(** * AISentinel JavaScript SDK: offline-resilient evaluation and caching

    A shallow embedding of [src/types.ts], [src/utils.ts], [src/storage.ts],
    [src/cache.ts] and [src/Governor.ts], and the properties of the retry
    controller, the offline queue, the rulepack cache and the audit log.

    Conventions of the embedding.
    - A JavaScript [number] that holds a count or a duration in milliseconds
      is a [Z]; [Number.POSITIVE_INFINITY] and the [null] that
      [JSON.stringify] writes for it are separate constructors of
      [Timestamp].
    - [async] methods are state transformers: every [await] is sequenced, as
      the single-caller model of the SDK prescribes.
    - What the SDK cannot decide by itself (the remote service, the transport,
      the hash, the PII scanner, JSON decoding of a rulepack) is a field of
      the class [Runtime]; theorems hold for every runtime.
    - The durable tier is taken to accept every read and write: the file
      system and IndexedDB raise nothing, and the file of a namespaced key
      [k] is [k.json] in the cache directory. *)

From Stdlib Require Import ZArith Ascii String List Bool Lia.
From stdpp Require Import base option list gmap strings pretty.

Local Open Scope string_scope.
Local Open Scope list_scope.
Local Open Scope Z_scope.

(** ** types.ts *)

Module Types.

(** [expiresAt] of a [CacheEntry]: a finite time in ms, [Infinity], or the
    [null] read back from a JSON file that held [Infinity]. *)
Inductive Timestamp :=
| Finite (ms : Z)
| PositiveInfinity
| NullTime.

Record CacheEntry (V : Type) := mkCacheEntry {
  value : V;
  expiresAt : Timestamp
}.
Arguments mkCacheEntry {V} _ _.
Arguments value {V} _.
Arguments expiresAt {V} _.

Record CacheMetrics := mkCacheMetrics {
  hits : Z;
  misses : Z;
  stale : Z
}.

(** interface StorageDriver.  [S] is the state of the backend; the [Z]
    argument is the reading of [Date.now()] during the call. *)
Class StorageDriver (S V : Type) := {
  getItem : string -> Z -> S -> option V * S;
  setItem : string -> V -> option Z -> Z -> S -> S;
  removeItem : string -> S -> S
}.

(** *** Errors.  [GovernorError] and its four subclasses; [code] is fixed by
    the subclass and free for the base class. *)
Inductive ErrorClass :=
| BaseGovernorError (code : string)
| NetworkError
| TimeoutError
| PolicyError
| StorageError.

Definition classCode (c : ErrorClass) : string :=
  match c with
  | BaseGovernorError code => code
  | NetworkError => "network_error"
  | TimeoutError => "timeout_error"
  | PolicyError => "policy_error"
  | StorageError => "storage_error"
  end.

(** A thrown value: an error built by the SDK, an [Error] built by someone
    else ([TypeError] of fetch, [SyntaxError] of a JSON decoder, ...), or a
    value that is not an [Error] at all. *)
Inductive Thrown :=
| GovernorError (cls : ErrorClass) (message : string)
| Foreign (name message : string)
| NotAnError (shown : string).

(** [error.code]; a foreign error has no such field. *)
Definition code (e : Thrown) : option string :=
  match e with
  | GovernorError cls _ => Some (classCode cls)
  | _ => None
  end.

(** [error instanceof NetworkError] *)
Definition instanceofNetworkError (e : Thrown) : bool :=
  match e with
  | GovernorError NetworkError _ => true
  | _ => false
  end.

(** [error instanceof TimeoutError] *)
Definition instanceofTimeoutError (e : Thrown) : bool :=
  match e with
  | GovernorError TimeoutError _ => true
  | _ => false
  end.

(** [error instanceof Error] *)
Definition instanceofError (e : Thrown) : bool :=
  match e with
  | NotAnError _ => false
  | _ => true
  end.

(** *** Configuration *)
Record RetryOptions := mkRetryOptions {
  retries : Z;
  factor : Z;
  minTimeoutMs : Z;
  maxTimeoutMs : Z
}.

Record GovernorConfig := mkGovernorConfig {
  apiKey : option string;
  endpoint : string;
  timeoutMs : Z;
  retry : RetryOptions;
  cacheTTL : Z;
  offline : option bool;
  storageKeyPrefix : string;
  enableAuditLog : option bool
}.

(** *** Policies and rulepacks *)
Record RuleDefinition := mkRuleDefinition {
  ruleId : string;
  expression : string
}.

Record PolicyDefinition := mkPolicyDefinition {
  policyDefId : string;
  version : string;
  rules : list RuleDefinition
}.

Record Rulepack := mkRulepack {
  rulepackId : string;
  checksum : string;
  updatedAt : string;
  policies : list PolicyDefinition;
  ttlSeconds : option Z
}.

(** *** Evaluation *)
Inductive Input :=
| InputText (text : string)
| InputObject (json : string).

Record PayloadOptions := mkPayloadOptions {
  optOffline : option bool;
  optAudit : option bool
}.

Record EvaluationPayload := mkEvaluationPayload {
  policyId : string;
  input : Input;
  context : option string;
  options : option PayloadOptions
}.

Inductive Decision := allow | deny | review.

Inductive PIIType := email | phone | ssn | credit_card | ip.

Record PIIMatch := mkPIIMatch {
  piiType : PIIType;
  piiMatch : string;
  piiIndex : Z
}.

(** [metadata : Record<string, unknown>], with the keys the SDK writes
    named and the rest kept as they came. *)
Record Metadata := mkMetadata {
  mdOffline : option bool;
  mdQueuedEventId : option string;
  mdPiiMatches : option (list PIIMatch);
  mdCacheMetrics : option CacheMetrics;
  mdOther : list (string * string)
}.

(** Read off an untyped JSON body, every field may be missing at run
    time. *)
Record EvaluationResult := mkEvaluationResult {
  resPolicyId : option string;
  decision : option Decision;
  score : option Z;
  reasons : option (list string);
  metadata : option Metadata;
  evaluatedAt : option string
}.

(** *** Offline events and audit records.  An event is tagged by its
    [type]; the tag fixes what [payload] holds. *)
Inductive OfflineEvent :=
| EvaluationEvent (payload : EvaluationPayload) (createdAt : string)
| PolicyUpdateEvent (payload : list PolicyDefinition) (createdAt : string).

Record AuditPayload := mkAuditPayload {
  auPolicyId : string;
  auDecision : option Decision;
  auScore : option Z;
  auOffline : bool;
  auMatches : list PIIMatch
}.

Record AuditRecord := mkAuditRecord {
  auditId : string;
  timestamp : string;
  action : string;
  auditPayload : AuditPayload
}.

(** *** HTTP *)
Inductive Method := GET | POST | PUT | DELETE.
Inductive ResponseType := json | arrayBuffer | text.

Inductive Body :=
| BodyEvaluation (payload : EvaluationPayload)
| BodyPolicies (policies : list PolicyDefinition).

(** [signal] is never passed by the SDK and is left out. *)
Record HttpRequestOptions := mkHttpRequestOptions {
  url : string;
  method : option Method;
  headers : option (list (string * string));
  body : option Body;
  reqTimeoutMs : option Z;
  responseType : option ResponseType;
  useStream : option bool
}.

(** A decoded JSON body, as far as the SDK looks into it: an object read
    as an evaluation result, the value [null], or anything else. *)
Inductive Json :=
| JsonEvaluation (r : EvaluationResult)
| JsonNull
| JsonOther (raw : string).

(** [response.data]: the body of the response itself when [useStream] asked
    for it, a Node stream (it has [pipe], and yields [bytes]) or a body
    without [pipe] such as the [ReadableStream] of the Fetch API; or what
    was read off the body. *)
Inductive Data :=
| DataStream (bytes : string)
| DataWebStream
| DataArrayBuffer (bytes : string)
| DataText (s : string)
| DataJson (j : Json).

Record HttpResponse := mkHttpResponse {
  status : Z;
  responseHeaders : list (string * string);
  data : Data
}.

End Types.
Import Types.

(** ** storage.ts *)

Module Storage.

Section NodeStorage.
Context {V : Type}.

(** [memoryStore] is the module-level map, [files] the directory
    [~/.aisentinel/cache], indexed by the namespaced key: the file of the
    key [k] is [k.json], which is where [path.join] puts it for a key
    without a path separator. *)
Record NodeStorage := mkNodeStorage {
  prefix : string;
  memoryStore : gmap string (CacheEntry V);
  files : gmap string (CacheEntry V)
}.

(** serialize: [Date.now() + (ttlMs ?? Number.POSITIVE_INFINITY)] *)
Definition serialize (v : V) (ttlMs : option Z) (now : Z) : CacheEntry V :=
  mkCacheEntry v (match ttlMs with
                  | Some ttl => Finite (now + ttl)
                  | None => PositiveInfinity
                  end).

(** isExpired: [expiresAt !== Infinity && expiresAt < Date.now()];
    [null < n] compares [0 < n]. *)
Definition isExpired (now : Z) (entry : option (CacheEntry V)) : bool :=
  match entry with
  | None => true
  | Some e =>
      match expiresAt e with
      | PositiveInfinity => false
      | Finite t => t <? now
      | NullTime => 0 <? now
      end
  end.

(** [JSON.parse (JSON.stringify entry)]: [Infinity] comes back as [null]. *)
Definition jsonRoundTrip (e : CacheEntry V) : CacheEntry V :=
  mkCacheEntry (value e)
    (match expiresAt e with
     | PositiveInfinity => NullTime
     | t => t
     end).

Definition getPrefixedKey (p key : string) : string := p +:+ ":" +:+ key.

Definition nodeGetItem (key : string) (now : Z) (s : NodeStorage)
  : option V * NodeStorage :=
  let namespaced := getPrefixedKey (prefix s) key in
  let entry := memoryStore s !! namespaced in
  if negb (isExpired now entry) then (value <$> entry, s)
  else
    let persisted := files s !! namespaced in
    if isExpired now persisted then
      (None, mkNodeStorage (prefix s)
               (delete namespaced (memoryStore s))
               (delete namespaced (files s)))
    else
      match persisted with
      | Some p =>
          (Some (value p),
           mkNodeStorage (prefix s) (<[namespaced := p]> (memoryStore s)) (files s))
      | None => (None, s)
      end.

Definition nodeSetItem (key : string) (v : V) (ttlMs : option Z) (now : Z)
  (s : NodeStorage) : NodeStorage :=
  let namespaced := getPrefixedKey (prefix s) key in
  let entry := serialize v ttlMs now in
  mkNodeStorage (prefix s)
    (<[namespaced := entry]> (memoryStore s))
    (<[namespaced := jsonRoundTrip entry]> (files s)).

Definition nodeRemoveItem (key : string) (s : NodeStorage) : NodeStorage :=
  let namespaced := getPrefixedKey (prefix s) key in
  mkNodeStorage (prefix s)
    (delete namespaced (memoryStore s))
    (delete namespaced (files s)).

#[export] Instance createNodeStorage : StorageDriver NodeStorage V := {
  getItem := nodeGetItem;
  setItem := nodeSetItem;
  removeItem := nodeRemoveItem
}.

End NodeStorage.
Arguments NodeStorage : clear implicits.

End Storage.

#[global] Existing Instance Storage.createNodeStorage.

(** ** cache.ts *)

Module Cache.

Section CacheManager.
Context {S V : Type} {driver : StorageDriver S V}.

Record CacheManager := mkCacheManager {
  storage : S;
  namespace : string;
  ttlMs : Z;
  memory : gmap string (CacheEntry V);
  metrics : CacheMetrics
}.

Definition withMetrics (m : CacheMetrics) (c : CacheManager) : CacheManager :=
  mkCacheManager (storage c) (namespace c) (ttlMs c) (memory c) m.
Definition withMemory (m : gmap string (CacheEntry V)) (c : CacheManager)
  : CacheManager :=
  mkCacheManager (storage c) (namespace c) (ttlMs c) m (metrics c).
Definition withStorage (s : S) (c : CacheManager) : CacheManager :=
  mkCacheManager s (namespace c) (ttlMs c) (memory c) (metrics c).

Definition hit (m : CacheMetrics) := mkCacheMetrics (hits m + 1) (misses m) (stale m).
Definition miss (m : CacheMetrics) := mkCacheMetrics (hits m) (misses m + 1) (stale m).
Definition staled (m : CacheMetrics) := mkCacheMetrics (hits m) (misses m) (stale m + 1).

(** isExpired: [expiresAt !== Infinity && expiresAt <= now()] *)
Definition isExpired (now : Z) (entry : CacheEntry V) : bool :=
  match expiresAt entry with
  | PositiveInfinity => false
  | Finite t => t <=? now
  | NullTime => 0 <=? now
  end.

Definition storageKey (c : CacheManager) (key : string) : string :=
  namespace c +:+ ":" +:+ key.

(** The part of [get] after the in-process tier gave nothing. *)
Definition getPersisted (key : string) (now : Z) (c : CacheManager)
  : option V * CacheManager :=
  let '(persisted, st) := getItem (storageKey c key) now (storage c) in
  match persisted with
  | None => (None, withMetrics (miss (metrics c)) (withStorage st c))
  | Some v =>
      let entry := mkCacheEntry v (Finite (now + ttlMs c)) in
      (Some (value entry),
       withMemory (<[key := entry]> (memory c))
         (withMetrics (hit (metrics c)) (withStorage st c)))
  end.

Definition get (key : string) (now : Z) (c : CacheManager)
  : option V * CacheManager :=
  match memory c !! key with
  | Some record =>
      if negb (isExpired now record) then
        (Some (value record), withMetrics (hit (metrics c)) c)
      else
        getPersisted key now
          (withMemory (delete key (memory c))
             (withMetrics (staled (metrics c)) c))
  | None => getPersisted key now c
  end.

Definition set (key : string) (v : V) (ttl : option Z) (now : Z)
  (c : CacheManager) : CacheManager :=
  let t := default (ttlMs c) ttl in
  let entry := mkCacheEntry v (Finite (now + t)) in
  withStorage (setItem (storageKey c key) v (Some t) now (storage c))
    (withMemory (<[key := entry]> (memory c)) c).

Definition delete (key : string) (c : CacheManager) : CacheManager :=
  withStorage (removeItem (storageKey c key) (storage c))
    (withMemory (base.delete key (memory c)) c).

Definition has (key : string) (now : Z) (c : CacheManager) : bool * CacheManager :=
  let '(v, c') := get key now c in (bool_decide (is_Some v), c').

Definition getMetrics (c : CacheManager) : CacheMetrics := metrics c.

(** A [get] at time [now] is answered by the in-process tier. *)
Definition memoryHit (key : string) (now : Z) (c : CacheManager) : bool :=
  match memory c !! key with
  | Some record => negb (isExpired now record)
  | None => false
  end.

(** A [get] at time [now] is answered by the durable tier with [v]. *)
Definition durableHit (key : string) (now : Z) (c : CacheManager) (v : V) : Prop :=
  memoryHit key now c = false /\
  fst (getItem (storageKey c key) now (storage c)) = Some v.

End CacheManager.
Arguments CacheManager : clear implicits.

End Cache.

(** ** The world outside the SDK *)

Module World.

(** What [fetch] resolves with. [bodyJson] is what [response.json()]
    gives: the decoded body, or the exception of the decoder. [bodyPipes]
    says that [typeof response.body.pipe] is ['function']. *)
Record Response := mkResponse {
  ok : bool;
  respStatus : Z;
  respHeaders : list (string * string);
  hasBody : bool;
  bodyPipes : bool;
  bodyText : string;
  bodyJson : Json + Thrown
}.

Inductive Settled :=
| Resolves (r : Response)
| Rejects (e : Thrown).

(** The promise returned by [fetch] settles after [elapsedMs]. *)
Record Reply := mkReply {
  settled : Settled;
  elapsedMs : Z
}.

(** What an observer of the instance sees, oldest first: requests handed to
    the transport with what came back, timers slept through, and writes of
    the connectivity flag. *)
Inductive Event :=
| Requested (options : HttpRequestOptions) (reply : Reply)
| Delayed (ms : Z)
| ModeSet (offline : bool).

(** Everything the SDK imports from its environment.  [fetch history
    options] is the transport together with the remote service: it may
    answer by what happened before.  [hashString] is the hex digest of
    SHA-256, 64 characters long whatever the input.  [parseRulepack] is
    [JSON.parse] read as a [Rulepack], [None] standing for the value [null],
    and [inflate] is pako's; when they throw, the string is the message of
    their exception. *)
Class Runtime := {
  isBrowser : bool;
  hasFetch : bool;
  fetch : list Event -> HttpRequestOptions -> Reply;
  hashString : string -> string;
  hashString_length : forall v, String.length (hashString v) = 64%nat;
  scanPatterns : string -> list PIIMatch;
  toISOString : Z -> string;
  randomUUID : nat -> string;
  parseRulepack : string -> option Rulepack + string;
  inflate : string -> string + string;
  stringify : Json -> string
}.

End World.
Import World.

(** ** Governor.ts, with the functions of utils.ts it calls *)

Module Governor.

Section Governor.
Context {S : Type} {driver : StorageDriver S Rulepack} {runtime : Runtime}.

(** The instance and the world it runs in.  [storedQueue], [storedAudit]
    and [storedIndex] are what [this.storage] holds under the keys
    [offline-queue], [audit-log] and [rulepack-index]; the keys of the
    rulepack cache live in [Cache.storage rulepackCache], the same driver
    under another namespace. *)
Record Governor := mkGovernor {
  config : GovernorConfig;
  rulepackCache : Cache.CacheManager S Rulepack;
  offlineQueue : list OfflineEvent;
  auditLog : list AuditRecord;
  rulepackIndex : gmap string string;
  isOffline : bool;
  storedQueue : option (list OfflineEvent);
  storedAudit : option (list AuditRecord);
  storedIndex : option (gmap string string);
  clock : Z;
  trace : list Event;
  uuids : nat
}.

Definition withRulepackCache c (g : Governor) :=
  mkGovernor (config g) c (offlineQueue g) (auditLog g) (rulepackIndex g)
    (isOffline g) (storedQueue g) (storedAudit g) (storedIndex g)
    (clock g) (trace g) (uuids g).
Definition withOfflineQueue q (g : Governor) :=
  mkGovernor (config g) (rulepackCache g) q (auditLog g) (rulepackIndex g)
    (isOffline g) (storedQueue g) (storedAudit g) (storedIndex g)
    (clock g) (trace g) (uuids g).
Definition withAuditLog l (g : Governor) :=
  mkGovernor (config g) (rulepackCache g) (offlineQueue g) l (rulepackIndex g)
    (isOffline g) (storedQueue g) (storedAudit g) (storedIndex g)
    (clock g) (trace g) (uuids g).
Definition withRulepackIndex i (g : Governor) :=
  mkGovernor (config g) (rulepackCache g) (offlineQueue g) (auditLog g) i
    (isOffline g) (storedQueue g) (storedAudit g) (storedIndex g)
    (clock g) (trace g) (uuids g).
Definition withIsOffline b (g : Governor) :=
  mkGovernor (config g) (rulepackCache g) (offlineQueue g) (auditLog g)
    (rulepackIndex g) b (storedQueue g) (storedAudit g) (storedIndex g)
    (clock g) (trace g) (uuids g).
Definition withStoredQueue q (g : Governor) :=
  mkGovernor (config g) (rulepackCache g) (offlineQueue g) (auditLog g)
    (rulepackIndex g) (isOffline g) q (storedAudit g) (storedIndex g)
    (clock g) (trace g) (uuids g).
Definition withStoredAudit a (g : Governor) :=
  mkGovernor (config g) (rulepackCache g) (offlineQueue g) (auditLog g)
    (rulepackIndex g) (isOffline g) (storedQueue g) a (storedIndex g)
    (clock g) (trace g) (uuids g).
Definition withStoredIndex i (g : Governor) :=
  mkGovernor (config g) (rulepackCache g) (offlineQueue g) (auditLog g)
    (rulepackIndex g) (isOffline g) (storedQueue g) (storedAudit g) i
    (clock g) (trace g) (uuids g).
Definition withClock t (g : Governor) :=
  mkGovernor (config g) (rulepackCache g) (offlineQueue g) (auditLog g)
    (rulepackIndex g) (isOffline g) (storedQueue g) (storedAudit g)
    (storedIndex g) t (trace g) (uuids g).
Definition withTrace tr (g : Governor) :=
  mkGovernor (config g) (rulepackCache g) (offlineQueue g) (auditLog g)
    (rulepackIndex g) (isOffline g) (storedQueue g) (storedAudit g)
    (storedIndex g) (clock g) tr (uuids g).
Definition withUuids n (g : Governor) :=
  mkGovernor (config g) (rulepackCache g) (offlineQueue g) (auditLog g)
    (rulepackIndex g) (isOffline g) (storedQueue g) (storedAudit g)
    (storedIndex g) (clock g) (trace g) n.

(** *** Promises.  A call returns, throws, or is cut off because the loop
    it runs was given too little fuel. *)
Inductive Completion (A : Type) :=
| Return (a : A)
| Throw (e : Thrown)
| Unfinished.
Arguments Return {A} _.
Arguments Throw {A} _.
Arguments Unfinished {A}.

Definition M (A : Type) : Type := Governor -> Completion A * Governor.

Definition ret {A} (a : A) : M A := fun g => (Return a, g).
Definition throw {A} (e : Thrown) : M A := fun g => (Throw e, g).
Definition unfinished {A} : M A := fun g => (Unfinished, g).

Definition bind {A B} (m : M A) (k : A -> M B) : M B :=
  fun g =>
    match m g with
    | (Return a, g') => k a g'
    | (Throw e, g') => (Throw e, g')
    | (Unfinished, g') => (Unfinished, g')
    end.

(** [try { m } catch (error) { handler }] *)
Definition tryCatch {A} (m : M A) (handler : Thrown -> M A) : M A :=
  fun g =>
    match m g with
    | (Throw e, g') => handler e g'
    | r => r
    end.

Definition gets {A} (f : Governor -> A) : M A := fun g => (Return (f g), g).
Definition modify (f : Governor -> Governor) : M unit := fun g => (Return tt, f g).
Definition liftFallible {A} (r : A + Thrown) : M A :=
  match r with
  | inl a => ret a
  | inr e => throw e
  end.

Notation "x <- m ;; k" := (bind m (fun x => k))
  (at level 100, m at next level, right associativity, only parsing).
Notation "m ;;; k" := (bind m (fun _ => k))
  (at level 100, right associativity, only parsing).

(** *** utils.ts *)

Definition getEnvironment : string := if isBrowser then "browser" else "node".

(** [now()]: the clock of the world. *)
Definition now : M Z := gets clock.

(** [delay(ms)]: the timer is seen in the trace and moves the clock. *)
Definition delay (ms : Z) : M unit :=
  modify (fun g => withTrace (trace g ++ [Delayed ms])
                     (withClock (clock g + Z.max 0 ms) g)).

(** [Math.min(maxTimeoutMs, minTimeoutMs * Math.pow(factor, attempt))] *)
Definition backoffDelayMs (attempt : Z) (options : RetryOptions) : Z :=
  Z.min (maxTimeoutMs options) (minTimeoutMs options * factor options ^ attempt).

Definition exponentialBackoff (attempt : Z) (options : RetryOptions) : M unit :=
  delay (backoffDelayMs attempt options).

(** [withTimeout(promise, timeoutMs, message)] on a promise that settles as
    [reply] says: what the race settles to, and when. *)
Definition withTimeout (reply : Reply) (timeoutMs : Z) (message : string)
  : Settled * Z :=
  if timeoutMs <=? 0 then (settled reply, elapsedMs reply)
  else if elapsedMs reply <? timeoutMs then (settled reply, elapsedMs reply)
  else (Rejects (GovernorError TimeoutError message), timeoutMs).

Definition lowerAscii (c : ascii) : ascii :=
  let n := nat_of_ascii c in
  if ((65 <=? n) && (n <=? 90))%nat then ascii_of_nat (n + 32) else c.

Fixpoint toLowerCase (s : string) : string :=
  match s with
  | EmptyString => EmptyString
  | String c rest => String (lowerAscii c) (toLowerCase rest)
  end.

Definition parseHeaders (hs : list (string * string)) : list (string * string) :=
  map (fun kv => (toLowerCase (fst kv), snd kv)) hs.

Definition ensureFetch : M unit :=
  if hasFetch then ret tt
  else if negb isBrowser then ret tt
  else throw (GovernorError NetworkError "Fetch API is not available in this environment").

(** The part of [httpRequest] after [response] is there. *)
Definition readResponse (options : HttpRequestOptions) (response : Response)
  : HttpResponse + Thrown :=
  if negb (ok response) then
    inr (GovernorError NetworkError
           ("HTTP " +:+ pretty (respStatus response) +:+ ": " +:+ bodyText response))
  else if default false (useStream options) && negb isBrowser && hasBody response then
    inl (mkHttpResponse (respStatus response) (parseHeaders (respHeaders response))
           (if bodyPipes response then DataStream (bodyText response)
            else DataWebStream))
  else
    match responseType options with
    | Some arrayBuffer =>
        inl (mkHttpResponse (respStatus response) (parseHeaders (respHeaders response))
               (DataArrayBuffer (bodyText response)))
    | Some text =>
        inl (mkHttpResponse (respStatus response) (parseHeaders (respHeaders response))
               (DataText (bodyText response)))
    | _ =>
        match bodyJson response with
        | inl decoded =>
            inl (mkHttpResponse (respStatus response)
                   (parseHeaders (respHeaders response)) (DataJson decoded))
        | inr error => inr error
        end
    end.

(** [options.timeoutMs ?? 10_000] and the message of the timeout. *)
Definition raced (options : HttpRequestOptions) (reply : Reply) : Settled * Z :=
  withTimeout reply (default 10000 (reqTimeoutMs options))
    ("Request to " +:+ url options +:+ " timed out").

(** What [httpRequest] gives once [fetch] was called and answered
    [reply]. *)
Definition attemptResult (options : HttpRequestOptions) (reply : Reply)
  : HttpResponse + Thrown :=
  match fst (raced options reply) with
  | Rejects error => inr error
  | Resolves response => readResponse options response
  end.

(** The request is seen in the trace, and the clock moves by the time the
    race took. *)
Definition sent (options : HttpRequestOptions) (reply : Reply) (g : Governor)
  : Governor :=
  withTrace (trace g ++ [Requested options reply])
    (withClock (clock g + Z.max 0 (snd (raced options reply))) g).

Definition httpRequest (options : HttpRequestOptions) : M HttpResponse :=
  ensureFetch ;;;
  history <- gets trace ;;
  let reply := fetch history options in
  modify (sent options reply) ;;;
  liftFallible (attemptResult options reply).

Definition randomId (prefix : string) : M string :=
  n <- gets uuids ;;
  modify (withUuids (Datatypes.S n)) ;;;
  ret (prefix +:+ "_" +:+ randomUUID n).

(** *** cache.ts: createRulepackCacheKey *)
Definition createRulepackCacheKey (policyId checksum : string) : string :=
  hashString (policyId +:+ ":" +:+ checksum).

(** *** class Governor *)

Definition setOfflineMode (enabled : bool) : M unit :=
  modify (fun g => withTrace (trace g ++ [ModeSet enabled]) (withIsOffline enabled g)).

Definition truthy (b : option bool) : bool := default false b.

Definition createHeaders : M (list (string * string)) :=
  key <- gets (fun g => apiKey (config g)) ;;
  let headers := [("content-type", "application/json");
                  ("x-sdk-environment", getEnvironment);
                  ("x-sdk-version", "0.1.0")] in
  match key with
  | Some k => if String.eqb k "" then ret headers
              else ret (headers ++ [("Authorization", "Bearer " +:+ k)])
  | None => ret headers
  end.

Definition persistOfflineQueue : M unit :=
  modify (fun g => withStoredQueue (Some (offlineQueue g)) g).

Definition enqueueOfflineEvent (event : OfflineEvent) : M unit :=
  modify (fun g => withOfflineQueue (offlineQueue g ++ [event]) g) ;;;
  persistOfflineQueue.

(** [if (log.length > 500) log.splice(0, log.length - 500)] *)
Definition spliceOldest (log : list AuditRecord) : list AuditRecord :=
  if (500 <? length log)%nat then drop (length log - 500) log else log.

(** [push], then the splice, then persisted. *)
Definition appendAuditRecord (record : AuditRecord) : M unit :=
  enabled <- gets (fun g => enableAuditLog (config g)) ;;
  if negb (truthy enabled) then ret tt
  else
    modify (fun g => withAuditLog (auditLog g ++ [record]) g) ;;;
    modify (fun g => withAuditLog (spliceOldest (auditLog g)) g) ;;;
    modify (fun g => withStoredAudit (Some (auditLog g)) g).

(** A caller that appends [records] one after the other. *)
Fixpoint appendAuditRecords (records : list AuditRecord) : M unit :=
  match records with
  | [] => ret tt
  | record :: rest => appendAuditRecord record ;;; appendAuditRecords rest
  end.

Definition getAuditLog : M (list AuditRecord) := gets auditLog.

Definition clearAuditLog : M unit :=
  modify (fun g => withStoredAudit None (withAuditLog [] g)).

(** The loop of [requestWithRetry]; [attempt] and [lastError] are its two
    mutable variables. *)
Fixpoint retryLoop (fuel : nat) (options : HttpRequestOptions) (maxAttempts : Z)
  (attempt : Z) (lastError : option Thrown) : M HttpResponse :=
  match fuel with
  | O => unfinished
  | Datatypes.S fuel' =>
      if attempt <? maxAttempts then
        tryCatch
          (configured <- gets (fun g => timeoutMs (config g)) ;;
           response <- httpRequest
             (mkHttpRequestOptions (url options) (method options) (headers options)
                (body options) (Some (default configured (reqTimeoutMs options)))
                (responseType options) (useStream options)) ;;
           setOfflineMode false ;;;
           ret response)
          (fun error =>
             (if instanceofNetworkError error then setOfflineMode true else ret tt) ;;;
             let attempt := attempt + 1 in
             if attempt >=? maxAttempts then throw error
             else
               policy <- gets (fun g => retry (config g)) ;;
               exponentialBackoff (attempt - 1) policy ;;;
               retryLoop fuel' options maxAttempts attempt (Some error))
      else
        throw (match lastError with
               | Some e => if instanceofError e then e
                           else GovernorError (BaseGovernorError "unknown") "Unknown error"
               | None => GovernorError (BaseGovernorError "unknown") "Unknown error"
               end)
  end.

Definition requestWithRetry (options : HttpRequestOptions) : M HttpResponse :=
  r <- gets (fun g => retries (retry (config g))) ;;
  let maxAttempts := r + 1 in
  retryLoop (Datatypes.S (Z.to_nat maxAttempts)) options maxAttempts 0 None.

Definition cacheRulepack (policyId : string) (rulepack : Rulepack) : M unit :=
  ttl <- gets (fun g => cacheTTL (config g)) ;;
  let ttlSeconds := default (Z.max 1 (ttl / 1000)) (ttlSeconds rulepack) in
  let ttlMs := ttlSeconds * 1000 in
  let cacheKey := createRulepackCacheKey policyId (checksum rulepack) in
  t <- now ;;
  modify (fun g => withRulepackCache
                     (Cache.set cacheKey rulepack (Some ttlMs) t (rulepackCache g)) g) ;;;
  modify (fun g => withRulepackIndex (<[policyId := cacheKey]> (rulepackIndex g)) g) ;;;
  modify (fun g => withStoredIndex (Some (rulepackIndex g)) g).

Definition getCachedRulepack (policyId : string) : M (option Rulepack) :=
  cacheKey <- gets (fun g => rulepackIndex g !! policyId) ;;
  match cacheKey with
  | None => ret None
  | Some key =>
      if String.eqb key "" then ret None
      else
        t <- now ;;
        fun g =>
          let '(found, cache) := Cache.get key t (rulepackCache g) in
          (Return found, withRulepackCache cache g)
  end.

(** The bytes of a rulepack response, whatever shape [data] has: the
    chunks of a stream that has [pipe], the buffer, the string, and for
    anything else its [JSON.stringify], which is [{}] for a stream without
    [pipe]. *)
Definition rawBytes (d : Data) : string :=
  match d with
  | DataStream bytes => bytes
  | DataWebStream => "{}"
  | DataArrayBuffer bytes => bytes
  | DataText s => s
  | DataJson j => stringify j
  end.

(** Direct decode first; decompression only when that throws.  What is
    decoded may be [null]; [cacheRulepack] then throws on its first line,
    which [loadRulepack] below writes out. *)
Definition jsonParse (s : string) : option Rulepack + Thrown :=
  match parseRulepack s with
  | inl parsed => inl parsed
  | inr message => inr (Foreign "SyntaxError" message)
  end.

Definition decompress (bytes : string) : string + Thrown :=
  match inflate bytes with
  | inl decompressed => inl decompressed
  | inr message => inr (Foreign "Error" message)
  end.

Definition decodeRulepack (bytes : string) : M (option Rulepack) :=
  tryCatch (liftFallible (jsonParse bytes))
    (fun _ =>
       decompressed <- liftFallible (decompress bytes) ;;
       liftFallible (jsonParse decompressed)).

Definition loadRulepack (policyId : string) (forceRefresh : bool)
  : M (option Rulepack) :=
  if String.eqb policyId "" then
    throw (GovernorError PolicyError "policyId is required to load a rulepack")
  else
    cached <- (if forceRefresh then ret None else getCachedRulepack policyId) ;;
    match cached with
    | Some rulepack => ret (Some rulepack)
    | None =>
        off <- gets isOffline ;;
        if off then ret None
        else
          hs <- createHeaders ;;
          configured <- gets (fun g => timeoutMs (config g)) ;;
          endpoint <- gets (fun g => endpoint (config g)) ;;
          response <- requestWithRetry
            (mkHttpRequestOptions
               (endpoint +:+ "/policies/" +:+ policyId +:+ "/rulepack")
               (Some GET) (Some hs) None (Some configured)
               (Some (if isBrowser then arrayBuffer else text))
               (Some (negb isBrowser))) ;;
          decoded <- decodeRulepack (rawBytes (data response)) ;;
          match decoded with
          | Some rulepack =>
              cacheRulepack policyId rulepack ;;;
              ret (Some rulepack)
          | None =>
              throw (Foreign "TypeError"
                       "Cannot read properties of null (reading 'ttlSeconds')")
          end
    end.

Definition ensureRulepackCached (policyId : string) : M unit :=
  cached <- getCachedRulepack policyId ;;
  match cached with
  | Some _ => ret tt
  | None => loadRulepack policyId true ;;; ret tt
  end.

Definition updatePolicies (policies : list PolicyDefinition) : M unit :=
  off <- gets isOffline ;;
  if off then
    t <- now ;;
    enqueueOfflineEvent (PolicyUpdateEvent policies (toISOString t))
  else
    hs <- createHeaders ;;
    endpoint <- gets (fun g => endpoint (config g)) ;;
    requestWithRetry
      (mkHttpRequestOptions (endpoint +:+ "/policies") (Some PUT) (Some hs)
         (Some (BodyPolicies policies)) None None None) ;;;
    ret tt.

(** [response.data] read as an [EvaluationResult] by
    [{...response.data, metadata: {...response.data.metadata, ...}}]:
    reading [metadata] off [null] throws. *)
Definition asEvaluationResult (d : Data) : EvaluationResult + Thrown :=
  match d with
  | DataJson (JsonEvaluation r) => inl r
  | DataJson JsonNull =>
      inr (Foreign "TypeError" "Cannot read properties of null (reading 'metadata')")
  | _ => inl (mkEvaluationResult None None None None None None)
  end.

(** pii.ts: the five regular expressions are [scanPatterns]. *)
Definition detectPII (text : string) : list PIIMatch :=
  if String.eqb text "" then [] else scanPatterns text.

(** [typeof payload.input === 'string' ? detectPII(payload.input) : []] *)
Definition piiScan (i : Input) : list PIIMatch :=
  match i with
  | InputText s => detectPII s
  | InputObject _ => []
  end.

(** [this.isOffline || payload.options?.offline] *)
Definition routedOffline (g : Governor) (payload : EvaluationPayload) : bool :=
  isOffline g || truthy (options payload ≫= optOffline).

Definition evaluate (payload : EvaluationPayload) : M EvaluationResult :=
  if String.eqb (policyId payload) "" then
    throw (GovernorError PolicyError "policyId is required for evaluation")
  else
    let piiMatches := piiScan (input payload) in
    off <- gets (fun g => routedOffline g payload) ;;
    if off then
      created <- now ;;
      let createdAt := toISOString created in
      enqueueOfflineEvent (EvaluationEvent payload createdAt) ;;;
      evaluated <- now ;;
      ret (mkEvaluationResult (Some (policyId payload)) (Some review) None None
             (Some (mkMetadata (Some true) (Some createdAt) (Some piiMatches) None []))
             (Some (toISOString evaluated)))
    else
      ensureRulepackCached (policyId payload) ;;;
      hs <- createHeaders ;;
      configured <- gets (fun g => timeoutMs (config g)) ;;
      endpoint <- gets (fun g => endpoint (config g)) ;;
      response <- requestWithRetry
        (mkHttpRequestOptions
           (endpoint +:+ "/policies/" +:+ policyId payload +:+ "/evaluate")
           (Some POST) (Some hs) (Some (BodyEvaluation payload)) (Some configured)
           None None) ;;
      received <- liftFallible (asEvaluationResult (data response)) ;;
      cacheMetrics <- gets (fun g => Cache.getMetrics (rulepackCache g)) ;;
      let md := default (mkMetadata None None None None []) (metadata received) in
      let result :=
        mkEvaluationResult (resPolicyId received) (decision received) (score received)
          (reasons received)
          (Some (mkMetadata (mdOffline md) (mdQueuedEventId md) (Some piiMatches)
                   (Some cacheMetrics) (mdOther md)))
          (evaluatedAt received) in
      enabled <- gets (fun g => enableAuditLog (config g)) ;;
      (if truthy enabled then
         id <- randomId "audit" ;;
         t <- now ;;
         appendAuditRecord
           (mkAuditRecord id (toISOString t) "evaluate"
              (mkAuditPayload (policyId payload) (decision result) (score result)
                 false piiMatches))
       else ret tt) ;;;
      ret result.

(** The payload [flushOfflineQueue] hands to [evaluate]:
    [{...originalPayload, options: originalPayload.options
        ? {...originalPayload.options, offline: false} : undefined}] *)
Definition replayPayload (originalPayload : EvaluationPayload) : EvaluationPayload :=
  mkEvaluationPayload (policyId originalPayload) (input originalPayload)
    (context originalPayload)
    (match options originalPayload with
     | Some o => Some (mkPayloadOptions (Some false) (optAudit o))
     | None => None
     end).

(** The body of the [try] in [flushOfflineQueue]. *)
Definition replay (event : OfflineEvent) : M unit :=
  match event with
  | EvaluationEvent originalPayload _ =>
      evaluate (replayPayload originalPayload) ;;; ret tt
  | PolicyUpdateEvent policies _ => updatePolicies policies
  end.

(** The [while] loop of [flushOfflineQueue]. *)
Fixpoint flushLoop (fuel : nat) : M unit :=
  match fuel with
  | O => unfinished
  | Datatypes.S fuel' =>
      queue <- gets offlineQueue ;;
      match queue with
      | [] => ret tt
      | event :: rest =>
          modify (withOfflineQueue rest) ;;;
          tryCatch (replay event)
            (fun error =>
               modify (fun g => withOfflineQueue (event :: offlineQueue g) g) ;;;
               throw error) ;;;
          flushLoop fuel'
      end
  end.

Definition flushOfflineQueue : M unit :=
  off <- gets isOffline ;;
  if off then ret tt
  else
    n <- gets (fun g => length (offlineQueue g)) ;;
    flushLoop (Datatypes.S n) ;;;
    persistOfflineQueue.

(** The constructor: empty queue, log and index, the flag as configured;
    [t] is the time of the world the instance is born into. *)
Definition construct (cfg : GovernorConfig) (store : S) (t : Z) : Governor :=
  mkGovernor cfg
    (Cache.mkCacheManager store "rulepack" (cacheTTL cfg) ∅ (mkCacheMetrics 0 0 0))
    [] [] ∅ (default false (offline cfg)) None None None t [] 0.

(** *** Observations on traces *)

(** The events added to the trace between [g] and a later [g']. *)
Definition since (g g' : Governor) : list Event :=
  drop (length (trace g)) (trace g').

(** How many requests were handed to the transport. *)
Fixpoint requestsIn (tr : list Event) : nat :=
  match tr with
  | [] => 0%nat
  | Requested _ _ :: rest => Datatypes.S (requestsIn rest)
  | _ :: rest => requestsIn rest
  end.

(** The timers slept through, in order. *)
Fixpoint delaysIn (tr : list Event) : list Z :=
  match tr with
  | [] => []
  | Delayed ms :: rest => ms :: delaysIn rest
  | _ :: rest => delaysIn rest
  end.

(** The connectivity flag after the writes of [tr], starting from [mode]. *)
Fixpoint lastMode (mode : bool) (tr : list Event) : bool :=
  match tr with
  | [] => mode
  | ModeSet b :: rest => lastMode b rest
  | _ :: rest => lastMode mode rest
  end.

(** A request that [httpRequest] returned from carried its body to the
    remote service. *)
Definition delivered (ev : Event) : option Body :=
  match ev with
  | Requested o r =>
      match attemptResult o r with
      | inl _ => body o
      | inr _ => None
      end
  | _ => None
  end.

Definition deliveries (tr : list Event) : list Body := omap delivered tr.

Definition nextIsModeSet (b : bool) (tr : list Event) : bool :=
  match tr with
  | ModeSet b' :: _ => Bool.eqb b b'
  | _ => false
  end.

(** Every request that failed with a [NetworkError] is followed at once by
    a write of [true] to the flag, and every request that succeeded by a
    write of [false]. *)
Fixpoint modeTracked (tr : list Event) : bool :=
  match tr with
  | [] => true
  | Requested o r :: rest =>
      match attemptResult o r with
      | inl _ => nextIsModeSet false rest
      | inr e => if instanceofNetworkError e then nextIsModeSet true rest else true
      end && modeTracked rest
  | _ :: rest => modeTracked rest
  end.

(** What the body of an offline event looks like on the wire when it is
    replayed. *)
Definition replayBody (event : OfflineEvent) : Body :=
  match event with
  | EvaluationEvent originalPayload _ => BodyEvaluation (replayPayload originalPayload)
  | PolicyUpdateEvent policies _ => BodyPolicies policies
  end.

(** The bodies of all requests handed to the transport, whether they came
    through or not. *)
Definition requestBody (ev : Event) : option Body :=
  match ev with
  | Requested o _ => body o
  | _ => None
  end.

Definition bodiesIn (tr : list Event) : list Body := omap requestBody tr.

(** [g'] comes from [g] by a call that added [new] to the trace, wrote the
    flag only through [setOfflineMode], and left the configuration and the
    offline queue alone. *)
Record Effect (g g' : Governor) (new : list Event) : Prop := mkEffect {
  eff_trace : trace g' = trace g ++ new;
  eff_mode : isOffline g' = lastMode (isOffline g) new;
  eff_config : config g' = config g;
  eff_queue : offlineQueue g' = offlineQueue g;
  eff_storedQueue : storedQueue g' = storedQueue g
}.

Definition sameAudit (g g' : Governor) : Prop :=
  auditLog g' = auditLog g /\ storedAudit g' = storedAudit g /\ uuids g' = uuids g.

(** An error the SDK built itself, with its [code]. *)
Definition sdkError (e : Thrown) : Prop :=
  exists c, code e = Some c /\
            In c ["network_error"; "timeout_error"; "policy_error"; "unknown"].

(** An exception that was raised outside the SDK during the call: the
    transport rejected with it, or a decoder threw it. *)
Definition raisedOutside (new : list Event) (e : Thrown) : Prop :=
  (exists o r, In (Requested o r) new /\
     (settled r = Rejects e \/
      exists response, settled r = Resolves response /\ bodyJson response = inr e)) \/
  (exists s message, parseRulepack s = inr message /\ e = Foreign "SyntaxError" message) \/
  (exists s message, inflate s = inr message /\ e = Foreign "Error" message).

(** The [TypeError] of the SDK's own code when it reads a field off a
    response body or a rulepack that is the JSON value [null]. *)
Definition readOffNull (e : Thrown) : Prop :=
  e = Foreign "TypeError" "Cannot read properties of null (reading 'metadata')" \/
  e = Foreign "TypeError" "Cannot read properties of null (reading 'ttlSeconds')".

(** A call that may fail but never hangs: when it throws a [NetworkError]
    the flag has been set, and what it throws is an error of the SDK, an
    exception raised outside, or the [TypeError] of a read off [null]. *)
Definition FailsSafely {A} (new : list Event) (result : Completion A) : Prop :=
  match result with
  | Return _ => True
  | Throw e =>
      (instanceofNetworkError e = true -> forall mode, lastMode mode new = true) /\
      (sdkError e \/ raisedOutside new e \/ readOffNull e)
  | Unfinished => False
  end.

(** How a call that carries [sentBody] to the service through the retry
    controller completes.  When it throws, nothing was delivered, except
    that the body may have reached the service when the answer was
    [null]. *)
Definition Settles {A} (sentBody : option Body) (new : list Event)
  (result : Completion A) : Prop :=
  Forall (fun b => sentBody = Some b) (bodiesIn new) /\
  FailsSafely new result /\
  match result with
  | Return _ =>
      deliveries new = option_list sentBody /\
      forall mode, lastMode mode new = false
  | Throw e =>
      deliveries new = [] \/
      (deliveries new = option_list sentBody /\ readOffNull e)
  | Unfinished => False
  end.

(** The event [evaluate] queues for [payload] at the time of [g], and the
    instance after it was queued and the queue persisted. *)
Definition queuedEvent (payload : EvaluationPayload) (g : Governor) : OfflineEvent :=
  EvaluationEvent payload (toISOString (clock g)).

Definition enqueued (event : OfflineEvent) (g : Governor) : Governor :=
  withStoredQueue (Some (offlineQueue g ++ [event]))
    (withOfflineQueue (offlineQueue g ++ [event]) g).

(** The result [evaluate] makes up for a queued [payload]. *)
Definition offlineResult (payload : EvaluationPayload) (g : Governor)
  : EvaluationResult :=
  mkEvaluationResult (Some (policyId payload)) (Some review) None None
    (Some (mkMetadata (Some true) (Some (toISOString (clock g)))
             (Some (piiScan (input payload))) None []))
    (Some (toISOString (clock g))).

(** [g'] differs from [g] at most in the flag, the clock and the trace. *)
Definition sameInstance (g g' : Governor) : Prop :=
  g' = withIsOffline (isOffline g') (withClock (clock g') (withTrace (trace g') g)).

(** The options [requestWithRetry] hands to [httpRequest]. *)
Definition sentOptions (options : HttpRequestOptions) (g : Governor)
  : HttpRequestOptions :=
  mkHttpRequestOptions (url options) (method options) (headers options)
    (body options) (Some (default (timeoutMs (config g)) (reqTimeoutMs options)))
    (responseType options) (useStream options).

(** One failed attempt: what it leaves in the trace, and its error. *)
Inductive FailedAttempt (o : HttpRequestOptions) : list Event -> Thrown -> Prop :=
| failed_without_fetch :
    FailedAttempt o []
      (GovernorError NetworkError "Fetch API is not available in this environment")
| failed_request r e :
    attemptResult o r = inr e ->
    FailedAttempt o [Requested o r] e.

Definition modeAfter (e : Thrown) : list Event :=
  if instanceofNetworkError e then [ModeSet true] else [].

(** The runs of the retry loop from attempt number [attempt] on: the events
    they add and how they complete. *)
Inductive RetryRun (policy : RetryOptions) (maxAttempts : Z) (o : HttpRequestOptions)
  : Z -> list Event -> Completion HttpResponse -> Prop :=
| run_success attempt r response :
    attempt < maxAttempts ->
    attemptResult o r = inl response ->
    RetryRun policy maxAttempts o attempt [Requested o r; ModeSet false] (Return response)
| run_exhausted attempt evs e :
    attempt < maxAttempts ->
    FailedAttempt o evs e ->
    maxAttempts <= attempt + 1 ->
    RetryRun policy maxAttempts o attempt (evs ++ modeAfter e) (Throw e)
| run_retry attempt evs e rest result :
    attempt < maxAttempts ->
    FailedAttempt o evs e ->
    attempt + 1 < maxAttempts ->
    RetryRun policy maxAttempts o (attempt + 1) rest result ->
    RetryRun policy maxAttempts o attempt
      (evs ++ modeAfter e ++ Delayed (backoffDelayMs attempt policy) :: rest) result.

(** What a failed attempt that is retried leaves in the trace: the attempt
    (its events and its error), the write of the flag that its error asks
    for, and the backoff delay of attempt number [k]. *)
Definition retried (policy : RetryOptions) (k : nat) (failure : list Event * Thrown)
  : list Event :=
  fst failure ++ modeAfter (snd failure) ++
  [Delayed (backoffDelayMs (Z.of_nat k) policy)].

(** The same for the failed attempts number [k], [k + 1], ... in a row. *)
Fixpoint retriedFrom (policy : RetryOptions) (k : nat)
  (failures : list (list Event * Thrown)) : list Event :=
  match failures with
  | [] => []
  | failure :: rest => retried policy k failure ++ retriedFrom policy (Datatypes.S k) rest
  end.

End Governor.
Arguments Governor : clear implicits.
Arguments Return {A} _.
Arguments Throw {A} _.
Arguments Unfinished {A}.

End Governor.

(** ** config.ts *)

Module Config.

Definition DEFAULT_RETRY : RetryOptions := mkRetryOptions 3 2 250 4000.

Definition DEFAULT_ENDPOINT : string := "https://api.aisentinel.ai/v1".

Definition DEFAULTS : GovernorConfig :=
  mkGovernorConfig None DEFAULT_ENDPOINT 10000 DEFAULT_RETRY 300000
    (Some false) "aisentinel" (Some true).

End Config.

(** ** Scenarios
    Concrete worlds and instances on which the properties below are
    exercised. *)

Module Scenario.

(** A stand-in digest: the first 64 characters of the input, padded. *)
Fixpoint pad (n : nat) (s : string) : string :=
  match n with
  | O => EmptyString
  | Datatypes.S n' =>
      match s with
      | EmptyString => String "0"%char (pad n' EmptyString)
      | String c rest => String c (pad n' rest)
      end
  end.

Fixpoint pad_length (n : nat) : forall s, String.length (pad n s) = n :=
  match n with
  | O => fun _ => eq_refl
  | Datatypes.S n' => fun s =>
      match s with
      | EmptyString => f_equal Datatypes.S (pad_length n' EmptyString)
      | String _ rest => f_equal Datatypes.S (pad_length n' rest)
      end
  end.

Definition bundle (sum : string) : Rulepack :=
  mkRulepack "p1" sum "2025-10-20T00:00:00.000Z"
    [mkPolicyDefinition "p1" "1" [mkRuleDefinition "r1" "true"]] None.

(** A world whose transport and service behave as [script] says. *)
Definition world (script : list Event -> HttpRequestOptions -> Reply) : Runtime := {|
  isBrowser := false;
  hasFetch := true;
  fetch := script;
  hashString := pad 64;
  hashString_length := pad_length 64;
  scanPatterns := fun _ => [];
  toISOString := fun t => pretty t;
  randomUUID := fun n => pretty n;
  parseRulepack := fun s => if String.eqb s "" then inr "Unexpected end of JSON input"
                            else inl (Some (bundle s));
  inflate := fun _ => inr "incorrect header check";
  stringify := fun _ => ""
|}.

Definition answer (ok : bool) (status : Z) (body : string) (decoded : Json + Thrown)
  : Reply :=
  mkReply (Resolves (mkResponse ok status [] true true body decoded)) 20.

Definition verdict : EvaluationResult :=
  mkEvaluationResult (Some "p1") (Some allow) (Some 1) None None
    (Some "2025-10-20T00:00:01.000Z").

(** The service answers every request. *)
Definition healthy (history : list Event) (o : HttpRequestOptions) : Reply :=
  match method o with
  | Some GET => answer true 200 "c1" (inr (Foreign "SyntaxError" "Unexpected token c"))
  | _ => answer true 200 "{}" (inl (JsonEvaluation verdict))
  end.

(** The connection is refused: [fetch] rejects with its own [TypeError]. *)
Definition refused (history : list Event) (o : HttpRequestOptions) : Reply :=
  mkReply (Rejects (Foreign "TypeError" "fetch failed")) 5.

(** The service answers 503 to everything. *)
Definition unavailable (history : list Event) (o : HttpRequestOptions) : Reply :=
  answer false 503 "down" (inr (Foreign "SyntaxError" "Unexpected token d")).

(** The service answers 200 with a body that is not JSON. *)
Definition garbled (history : list Event) (o : HttpRequestOptions) : Reply :=
  answer true 200 "<html>" (inr (Foreign "SyntaxError" "Unexpected token <")).

Definition isPost (ev : Event) : bool :=
  match ev with
  | Requested o _ => match method o with Some POST => true | _ => false end
  | _ => false
  end.

(** The service answers evaluation requests with the JSON value [null]. *)
Definition hollow (history : list Event) (o : HttpRequestOptions) : Reply :=
  match method o with
  | Some POST => answer true 200 "null" (inl JsonNull)
  | _ => healthy history o
  end.

(** With [retries = 0]: the first evaluation request gets a 503, all later
    requests are answered. *)
Definition flaky (history : list Event) (o : HttpRequestOptions) : Reply :=
  match method o with
  | Some POST => if existsb isPost history then healthy history o
                 else unavailable history o
  | _ => healthy history o
  end.

Definition emptyStore : Storage.NodeStorage Rulepack :=
  Storage.mkNodeStorage "aisentinel" ∅ ∅.

Definition fresh : Governor.Governor (Storage.NodeStorage Rulepack) :=
  Governor.construct Config.DEFAULTS emptyStore 1000.

Definition noRetry : GovernorConfig :=
  mkGovernorConfig None Config.DEFAULT_ENDPOINT 10000 (mkRetryOptions 0 2 250 4000)
    300000 (Some false) "aisentinel" (Some true).

Definition ask (text : string) (opts : option PayloadOptions) : EvaluationPayload :=
  mkEvaluationPayload "p1" (InputText text) None opts.

Definition ping : HttpRequestOptions :=
  mkHttpRequestOptions "https://api.aisentinel.ai/v1/policies/updates" (Some GET)
    None None None None None.

Definition entry (n : nat) : AuditRecord :=
  mkAuditRecord (pretty n) "2025-10-20T00:00:00.000Z" "evaluate"
    (mkAuditPayload "p1" (Some allow) None false []).

(** A durable tier that holds a bundle the in-process tier does not. *)
Definition warmStore : Storage.NodeStorage Rulepack :=
  Storage.mkNodeStorage "aisentinel" ∅
    {[ "aisentinel:rulepack:k1" := mkCacheEntry (bundle "c1") (Finite 5000) ]}.

Definition coldCache : Cache.CacheManager (Storage.NodeStorage Rulepack) Rulepack :=
  Cache.mkCacheManager warmStore "rulepack" 300000 ∅ (mkCacheMetrics 0 0 0).

(** The worlds. *)
Definition up : Runtime := world healthy.
Definition down : Runtime := world unavailable.
Definition cut : Runtime := world refused.
Definition noisy : Runtime := world garbled.
Definition shaky : Runtime := world flaky.
Definition blank : Runtime := world hollow.

(** A caller asks for offline handling on a connected instance. *)
Definition offlineAsk : EvaluationPayload :=
  ask "hello" (Some (mkPayloadOptions (Some true) None)).

Definition queuedOnce : Governor.Governor (Storage.NodeStorage Rulepack) :=
  snd (Governor.evaluate (runtime := up) offlineAsk fresh).

(** Three events wait in the queue of a connected instance that does not
    retry. *)
Definition E1 : OfflineEvent := EvaluationEvent offlineAsk "t1".
Definition E2 : OfflineEvent :=
  PolicyUpdateEvent [mkPolicyDefinition "p1" "2" []] "t2".
Definition E3 : OfflineEvent := EvaluationEvent (ask "bye" None) "t3".

Definition threeQueued : Governor.Governor (Storage.NodeStorage Rulepack) :=
  Governor.withOfflineQueue [E1; E2; E3]
    (Governor.construct noRetry emptyStore 1000).

(** The first flush, then the operator reconnects and flushes again. *)
Definition firstFlush :=
  Governor.flushOfflineQueue (runtime := shaky) threeQueued.
Definition secondFlush :=
  Governor.flushOfflineQueue (runtime := shaky)
    (snd (Governor.setOfflineMode false (snd firstFlush))).

Definition sixHundred : list AuditRecord := map entry (seq 0 600).

End Scenario.

(** ** storage.ts and cache.ts: listing the keys, clearing, a new process *)

Module Listing.

(** The string without its first [n] characters. *)
Fixpoint skip (n : nat) (s : string) : string :=
  match n, s with
  | O, _ => s
  | Datatypes.S n', String _ rest => skip n' rest
  | Datatypes.S _, EmptyString => EmptyString
  end.

(** [s.replace(pattern, replacement)] for a string pattern: the first
    occurrence only. *)
Fixpoint replaceFirst (pattern replacement s : string) : string :=
  if String.prefix pattern s then
    replacement +:+ skip (String.length pattern) s
  else
    match s with
    | EmptyString => EmptyString
    | String c rest => String c (replaceFirst pattern replacement rest)
    end.

(** [s.replace(/\.json$/, '')] *)
Fixpoint stripJson (s : string) : string :=
  if String.eqb s ".json" then EmptyString
  else
    match s with
    | EmptyString => EmptyString
    | String c rest => String c (stripJson rest)
    end.

(** [path.sep] of POSIX and of Windows. *)
Definition isSeparator (c : ascii) : bool :=
  Ascii.eqb c "/" || Ascii.eqb c (ascii_of_nat 92).

(** A namespaced key without a path separator.  For such a key [k],
    [path.join(dir, `${k}.json`)] is the file [k.json] of the directory
    itself.  (A key with a separator names a file in another directory, or,
    through a [..] segment, the file of another key.) *)
Fixpoint plainName (s : string) : bool :=
  match s with
  | EmptyString => true
  | String c rest => negb (isSeparator c) && plainName rest
  end.

Section Node.
Context {V : Type}.

(** Both tiers hold plain names only: the files are those of the directory
    itself, one for each name. *)
Definition plainStore (s : Storage.NodeStorage V) : bool :=
  forallb (fun kv => plainName (fst kv)) (map_to_list (Storage.memoryStore s)) &&
  forallb (fun kv => plainName (fst kv)) (map_to_list (Storage.files s)).

(** A new process on the same machine: the module-level [memoryStore] starts
    empty, the directory is as it was left. *)
Definition restart (s : Storage.NodeStorage V) : Storage.NodeStorage V :=
  Storage.mkNodeStorage (Storage.prefix s) ∅ (Storage.files s).

(** [fs.readdir]: the file of the namespaced key [k] is [k.json]. *)
Definition readdir (s : Storage.NodeStorage V) : list string :=
  (fun kv => fst kv +:+ ".json") <$> map_to_list (Storage.files s).

(** [namespace ? getPrefixedKey(prefix, namespace) : `${prefix}:`] *)
Definition prefixFilter (namespace : option string) (s : Storage.NodeStorage V)
  : string :=
  match namespace with
  | None | Some EmptyString => Storage.prefix s +:+ ":"
  | Some n => Storage.getPrefixedKey (Storage.prefix s) n
  end.

Definition nodeKeys (namespace : option string) (s : Storage.NodeStorage V)
  : list string :=
  (fun name => stripJson (replaceFirst (Storage.prefix s +:+ ":") "" name))
    <$> List.filter (String.prefix (prefixFilter namespace s)) (readdir s).

(** Every file of the directory was written by [setItem] of this driver:
    its key starts with [prefix:]. *)
Definition wellKeyed (s : Storage.NodeStorage V) : bool :=
  forallb (fun kv => String.prefix (Storage.prefix s +:+ ":") (fst kv))
    (map_to_list (Storage.files s)).

(** Whatever [memoryStore] holds has a file. *)
Definition backed (s : Storage.NodeStorage V) : bool :=
  forallb (fun kv => bool_decide (is_Some (Storage.files s !! fst kv)))
    (map_to_list (Storage.memoryStore s)).

(** The two tiers of the driver are in step and its files are its own. *)
Definition inStep (s : Storage.NodeStorage V) : Prop :=
  wellKeyed s = true /\ backed s = true.

End Node.

(** [keys] of interface StorageDriver. *)
Class StorageKeys (S : Type) := {
  keys : option string -> S -> list string
}.

#[export] Instance nodeStorageKeys {V : Type} : StorageKeys (Storage.NodeStorage V) := {
  keys := nodeKeys
}.

Section Clear.
Context {S V : Type} {driver : StorageDriver S V} {listing : StorageKeys S}.

(** [Promise.all(keys.map((key) => this.storage.removeItem(key)))]: the
    removals are taken one after the other. *)
Definition removeAll (listed : list string) (st : S) : S :=
  foldl (fun st key => removeItem key st) st listed.

(** CacheManager.clear *)
Definition clear (c : Cache.CacheManager S V) : Cache.CacheManager S V :=
  let listed := keys (Some (Cache.namespace c)) (Cache.storage c) in
  Cache.withStorage (removeAll listed (Cache.storage c)) (Cache.withMemory ∅ c).

End Clear.

End Listing.

#[global] Existing Instance Listing.nodeStorageKeys.

(** ** storage.ts: the browser driver *)

Module Browser.

Section BrowserStorage.
Context {V : Type}.

(** [indexedDb] is the store of idb-keyval, which keeps [Infinity] as it
    is; when [indexedDbError] is [Some e] every call into it throws [e].
    [localStorage] is [None] where [typeof localStorage] is ['undefined'];
    its items are kept as [JSON.parse] reads them. *)
Record BrowserStorage := mkBrowserStorage {
  prefix : string;
  indexedDbError : option Thrown;
  indexedDb : gmap string (CacheEntry V);
  localStorage : option (gmap string (CacheEntry V))
}.

Definition browserRemoveItem (key : string) (s : BrowserStorage) : BrowserStorage :=
  let namespaced := Storage.getPrefixedKey (prefix s) key in
  match indexedDbError s with
  | None =>
      mkBrowserStorage (prefix s) None (delete namespaced (indexedDb s)) (localStorage s)
  | Some e =>
      match localStorage s with
      | Some items =>
          mkBrowserStorage (prefix s) (Some e) (indexedDb s)
            (Some (delete namespaced items))
      | None => s
      end
  end.

Definition browserGetItem (key : string) (now : Z) (s : BrowserStorage)
  : option V * BrowserStorage :=
  let namespaced := Storage.getPrefixedKey (prefix s) key in
  match indexedDbError s with
  | None =>
      let entry := indexedDb s !! namespaced in
      if Storage.isExpired now entry then
        (None, match entry with
               | Some _ => browserRemoveItem key s
               | None => s
               end)
      else (value <$> entry, s)
  | Some _ =>
      match localStorage s with
      | None => (None, s)
      | Some items =>
          let serialized := items !! namespaced in
          if Storage.isExpired now serialized then (None, s)
          else (value <$> serialized, s)
      end
  end.

(** [setItem] rejects with the error of IndexedDB where there is no
    [localStorage] to fall back to. *)
Definition browserSetItem (key : string) (v : V) (ttlMs : option Z) (now : Z)
  (s : BrowserStorage) : option Thrown * BrowserStorage :=
  let namespaced := Storage.getPrefixedKey (prefix s) key in
  let entry := Storage.serialize v ttlMs now in
  match indexedDbError s with
  | None =>
      (None, mkBrowserStorage (prefix s) None (<[namespaced := entry]> (indexedDb s))
               (localStorage s))
  | Some e =>
      match localStorage s with
      | None => (Some e, s)
      | Some items =>
          (None, mkBrowserStorage (prefix s) (Some e) (indexedDb s)
                   (Some (<[namespaced := Storage.jsonRoundTrip entry]> items)))
      end
  end.

End BrowserStorage.
Arguments BrowserStorage : clear implicits.

End Browser.

(** ** Governor.ts: what a new instance reads back *)

Module Persistence.

Definition OFFLINE_QUEUE_KEY : string := "offline-queue".
Definition AUDIT_LOG_KEY : string := "audit-log".
Definition RULEPACK_INDEX_KEY : string := "rulepack-index".

Definition withPrefix (cfg : GovernorConfig) (key : string) : string :=
  storageKeyPrefix cfg +:+ ":" +:+ key.

(** The three keys of the Governor in the Node driver, each with the type
    of what is stored under it. *)
Record Disk := mkDisk {
  queueFiles : Storage.NodeStorage (list OfflineEvent);
  auditFiles : Storage.NodeStorage (list AuditRecord);
  indexFiles : Storage.NodeStorage (gmap string string)
}.

(** A new process on the same machine. *)
Definition restart (d : Disk) : Disk :=
  mkDisk (Listing.restart (queueFiles d)) (Listing.restart (auditFiles d))
    (Listing.restart (indexFiles d)).

(** persistOfflineQueue, the last line of appendAuditRecord and the last
    line of cacheRulepack, as the driver sees them: no time to live is
    given. *)
Definition persistOfflineQueue (cfg : GovernorConfig) (queue : list OfflineEvent)
  (now : Z) (d : Disk) : Disk :=
  mkDisk (Storage.nodeSetItem (withPrefix cfg OFFLINE_QUEUE_KEY) queue None now
            (queueFiles d))
    (auditFiles d) (indexFiles d).

Definition persistAuditLog (cfg : GovernorConfig) (log : list AuditRecord)
  (now : Z) (d : Disk) : Disk :=
  mkDisk (queueFiles d)
    (Storage.nodeSetItem (withPrefix cfg AUDIT_LOG_KEY) log None now (auditFiles d))
    (indexFiles d).

Definition persistRulepackIndex (cfg : GovernorConfig) (index : gmap string string)
  (now : Z) (d : Disk) : Disk :=
  mkDisk (queueFiles d) (auditFiles d)
    (Storage.nodeSetItem (withPrefix cfg RULEPACK_INDEX_KEY) index None now
       (indexFiles d)).

Section Initialize.
Context {S : Type}.

(** initialize: what is found under each key is added to what the
    instance holds. *)
Definition initialize (now : Z) (d : Disk) (g : Governor.Governor S)
  : Governor.Governor S * Disk :=
  let cfg := Governor.config g in
  let '(queue, queues) :=
    Storage.nodeGetItem (withPrefix cfg OFFLINE_QUEUE_KEY) now (queueFiles d) in
  let g1 :=
    match queue with
    | Some found => Governor.withOfflineQueue (Governor.offlineQueue g ++ found) g
    | None => g
    end in
  let '(audit, audits) :=
    Storage.nodeGetItem (withPrefix cfg AUDIT_LOG_KEY) now (auditFiles d) in
  let g2 :=
    match audit with
    | Some found => Governor.withAuditLog (Governor.auditLog g1 ++ found) g1
    | None => g1
    end in
  let '(index, indexes) :=
    Storage.nodeGetItem (withPrefix cfg RULEPACK_INDEX_KEY) now (indexFiles d) in
  let g3 :=
    match index with
    | Some found => Governor.withRulepackIndex (found ∪ Governor.rulepackIndex g2) g2
    | None => g2
    end in
  (g3, mkDisk queues audits indexes).

End Initialize.

End Persistence.

(** ** config.ts: resolving a configuration, masking the key *)

Module Resolve.

(** [Partial<RetryOptions>] and [Partial<GovernorConfig>] *)
Record PartialRetryOptions := mkPartialRetryOptions {
  givenRetries : option Z;
  givenFactor : option Z;
  givenMinTimeoutMs : option Z;
  givenMaxTimeoutMs : option Z
}.

Record PartialGovernorConfig := mkPartialGovernorConfig {
  givenApiKey : option string;
  givenEndpoint : option string;
  givenTimeoutMs : option Z;
  givenRetry : option PartialRetryOptions;
  givenCacheTTL : option Z;
  givenOffline : option bool;
  givenStorageKeyPrefix : option string;
  givenEnableAuditLog : option bool
}.

(** [a ?? b] *)
Definition orElse {A} (a : option A) (b : A) : A := default b a.

Definition parseBoolean (value : option string) (fallback : bool) : bool :=
  match value with
  | None => fallback
  | Some v =>
      bool_decide (Governor.toLowerCase v ∈ ["1"; "true"; "yes"; "on"])
  end.

Section Environment.
(** [readEnv]: [process.env] or [window]; and [Number(value)] where it is
    finite. *)
Variable readEnv : string -> option string.
Variable toNumber : string -> option Z.

Definition parseNumber (value : option string) (fallback : Z) : Z :=
  match value with
  | None => fallback
  | Some v => default fallback (toNumber v)
  end.

Definition mergeRetry (input : option PartialRetryOptions) : RetryOptions :=
  mkRetryOptions
    (orElse (input ≫= givenRetries) (retries Config.DEFAULT_RETRY))
    (orElse (input ≫= givenFactor) (factor Config.DEFAULT_RETRY))
    (orElse (input ≫= givenMinTimeoutMs) (minTimeoutMs Config.DEFAULT_RETRY))
    (orElse (input ≫= givenMaxTimeoutMs) (maxTimeoutMs Config.DEFAULT_RETRY)).

Definition resolveGovernorConfig (config : option PartialGovernorConfig)
  : GovernorConfig :=
  let apiKey :=
    match config ≫= givenApiKey with
    | Some k => Some k
    | None => readEnv "AISENTINEL_API_KEY"
    end in
  let endpoint :=
    orElse (config ≫= givenEndpoint)
      (orElse (readEnv "AISENTINEL_ENDPOINT") Config.DEFAULT_ENDPOINT) in
  let timeoutMs :=
    orElse (config ≫= givenTimeoutMs)
      (parseNumber (readEnv "AISENTINEL_TIMEOUT_MS") (timeoutMs Config.DEFAULTS)) in
  let cacheTTL :=
    orElse (config ≫= givenCacheTTL)
      (parseNumber (readEnv "AISENTINEL_CACHE_TTL_MS") (cacheTTL Config.DEFAULTS)) in
  let offline :=
    orElse (config ≫= givenOffline)
      (parseBoolean (readEnv "AISENTINEL_OFFLINE")
         (orElse (offline Config.DEFAULTS) false)) in
  let enableAuditLog :=
    orElse (config ≫= givenEnableAuditLog)
      (parseBoolean (readEnv "AISENTINEL_ENABLE_AUDIT_LOG")
         (orElse (enableAuditLog Config.DEFAULTS) true)) in
  let storageKeyPrefix :=
    orElse (config ≫= givenStorageKeyPrefix)
      (orElse (readEnv "AISENTINEL_STORAGE_PREFIX") (storageKeyPrefix Config.DEFAULTS)) in
  mkGovernorConfig apiKey endpoint timeoutMs (mergeRetry (config ≫= givenRetry))
    cacheTTL (Some offline) storageKeyPrefix (Some enableAuditLog).

End Environment.

(** A configuration handed back as the argument of [Governor.create], as
    [getConfig] returns it. *)
Definition asGiven (c : GovernorConfig) : PartialGovernorConfig :=
  mkPartialGovernorConfig (apiKey c) (Some (endpoint c)) (Some (timeoutMs c))
    (Some (mkPartialRetryOptions (Some (retries (retry c))) (Some (factor (retry c)))
             (Some (minTimeoutMs (retry c))) (Some (maxTimeoutMs (retry c)))))
    (Some (cacheTTL c)) (offline c) (Some (storageKeyPrefix c)) (enableAuditLog c).

(** ['*'.repeat(n)] *)
Fixpoint stars (n : nat) : string :=
  match n with
  | O => EmptyString
  | Datatypes.S n' => String "*" (stars n')
  end.

Definition maskApiKey (apiKey : option string) : option string :=
  match apiKey with
  | None | Some EmptyString => None
  | Some key =>
      if (String.length key <=? 8)%nat then Some (stars (String.length key))
      else
        Some (String.substring 0 4 key +:+ "****"
              +:+ String.substring (String.length key - 4) 4 key)
  end.

End Resolve.

(** ** utils.ts and Governor.ts: cache keys and byte arrays *)

Module Utils.

(** A part of a cache key: [string | number | boolean]. *)
Inductive Part :=
| PartString (s : string)
| PartNumber (n : Z)
| PartBoolean (b : bool).

(** [`${part}`] *)
Definition template (part : Part) : string :=
  match part with
  | PartString s => s
  | PartNumber n => pretty n
  | PartBoolean true => "true"
  | PartBoolean false => "false"
  end.

(** [\s] on code units below 256: tab, line feed, vertical tab, form feed,
    carriage return, space, no-break space. *)
Definition isSpace (c : ascii) : bool :=
  let n := nat_of_ascii c in
  ((9 <=? n) && (n <=? 13) || (n =? 32) || (n =? 160))%nat.

(** [s.replace(/\s+/g, '_')]; [inRun] says that the character before was
    white space. *)
Fixpoint collapse (inRun : bool) (s : string) : string :=
  match s with
  | EmptyString => EmptyString
  | String c rest =>
      if isSpace c then
        if inRun then collapse true rest else String "_" (collapse true rest)
      else String c (collapse false rest)
  end.

(** [parts.join(':')] *)
Fixpoint join (parts : list string) : string :=
  match parts with
  | [] => EmptyString
  | [part] => part
  | part :: rest => part +:+ ":" +:+ join rest
  end.

Definition hasSpace (s : string) : bool :=
  existsb isSpace (list_ascii_of_string s).

Definition generateCacheKey (parts : list (option Part)) : string :=
  join (map (fun part => collapse false (template part)) (omap id parts)).

(** [target.set(source, offset)] of a typed array; [None] is the
    [RangeError] for a source that does not fit. *)
Definition typedSet (target source : list Byte.byte) (offset : nat)
  : option (list Byte.byte) :=
  if (offset + length source <=? length target)%nat then
    Some (take offset target ++ source ++ drop (offset + length source) target)
  else None.

(** concatUint8Arrays: the array of zeros, then the loop over the chunks
    with its [offset]. *)
Definition concatUint8Arrays (chunks : list (list Byte.byte))
  : option (list Byte.byte) :=
  let totalLength := foldl (fun sum chunk => (sum + length chunk)%nat) 0%nat chunks in
  let result := replicate totalLength Byte.x00 in
  fst <$>
    foldl (fun state chunk =>
             match state with
             | Some (result, offset) =>
                 match typedSet result chunk offset with
                 | Some written => Some (written, (offset + length chunk)%nat)
                 | None => None
                 end
             | None => None
             end)
      (Some (result, 0%nat)) chunks.

End Utils.

(** ** More scenarios *)

Module Cases.

(** A second cache on the store of [Scenario.warmStore], its namespace the
    first four letters of the namespace of the rulepack cache. *)
Definition ruleCache : Cache.CacheManager (Storage.NodeStorage Rulepack) Rulepack :=
  Cache.mkCacheManager Scenario.warmStore "rule" 60000 ∅ (mkCacheMetrics 0 0 0).

(** The index is written without a time to live at time 1000. *)
Definition indexWritten : Storage.NodeStorage Rulepack :=
  Storage.nodeSetItem "rulepack:k2" (Scenario.bundle "c2") None 1000 Scenario.warmStore.

(** The service answers after a minute, whatever the request. *)
Definition stalled (history : list Event) (o : HttpRequestOptions) : Reply :=
  mkReply (Resolves (mkResponse true 200 [] true true "{}"
                       (inl (JsonEvaluation Scenario.verdict)))) 60000.

Definition slow : Runtime := Scenario.world stalled.

(** The service answers the first request with 503; from then on the
    connection is refused. *)
Definition worsening (history : list Event) (o : HttpRequestOptions) : Reply :=
  match history with
  | [] => Scenario.unavailable history o
  | _ => Scenario.refused history o
  end.

Definition failing : Runtime := Scenario.world worsening.

(** An instance configured with [retries = -1]. *)
Definition noBudget : Governor.Governor (Storage.NodeStorage Rulepack) :=
  Governor.construct
    (mkGovernorConfig None Config.DEFAULT_ENDPOINT 10000 (mkRetryOptions (-1) 2 250 4000)
       300000 (Some false) "aisentinel" (Some true))
    Scenario.emptyStore 1000.

(** The service accepts everything but policy updates. *)
Definition frozen (history : list Event) (o : HttpRequestOptions) : Reply :=
  match method o with
  | Some PUT => Scenario.unavailable history o
  | _ => Scenario.healthy history o
  end.

Definition readOnly : Runtime := Scenario.world frozen.

(** The three events of [Scenario.threeQueued], persisted as they were
    queued. *)
Definition persistedThree : Governor.Governor (Storage.NodeStorage Rulepack) :=
  Governor.withStoredQueue (Some [Scenario.E1; Scenario.E2; Scenario.E3])
    Scenario.threeQueued.

(** An instance that holds the bundle of policy [p1] in its cache, and the
    same instance switched offline. *)
Definition cached : Governor.Governor (Storage.NodeStorage Rulepack) :=
  snd (Governor.cacheRulepack (runtime := Scenario.up) "p1" (Scenario.bundle "c1")
         Scenario.fresh).

Definition cachedOffline : Governor.Governor (Storage.NodeStorage Rulepack) :=
  Governor.withIsOffline true cached.

(** An environment that sets the timeout and the audit switch. *)
Definition shell (key : string) : option string :=
  if String.eqb key "AISENTINEL_TIMEOUT_MS" then Some "2500"
  else if String.eqb key "AISENTINEL_ENABLE_AUDIT_LOG" then Some "Off"
  else None.

(** An environment that sets everything, differently. *)
Definition otherShell (key : string) : option string :=
  if String.eqb key "AISENTINEL_API_KEY" then None else Some "1".

Definition decimal (s : string) : option Z :=
  if String.eqb s "2500" then Some 2500 else if String.eqb s "1" then Some 1 else None.

(** A disk that holds nothing under the prefix of the defaults. *)
Definition emptyDisk : Persistence.Disk :=
  Persistence.mkDisk (Storage.mkNodeStorage "aisentinel" ∅ ∅)
    (Storage.mkNodeStorage "aisentinel" ∅ ∅) (Storage.mkNodeStorage "aisentinel" ∅ ∅).

(** The queue of [Scenario.threeQueued], an audit log of two records and an
    empty index, persisted at time 1000. *)
Definition allOnDisk : Persistence.Disk :=
  Persistence.persistRulepackIndex Config.DEFAULTS ∅ 1000
    (Persistence.persistAuditLog Config.DEFAULTS [Scenario.entry 0; Scenario.entry 1] 1000
       (Persistence.persistOfflineQueue Config.DEFAULTS
          [Scenario.E1; Scenario.E2; Scenario.E3] 1000 emptyDisk)).

End Cases.

(** ** Time and failures read off the trace *)

Module Timing.

(** What an event adds to the clock. *)
Definition duration (ev : Event) : Z :=
  match ev with
  | Requested o r => Z.max 0 (snd (Governor.raced o r))
  | Delayed ms => Z.max 0 ms
  | ModeSet _ => 0
  end.

Definition elapsedIn (events : list Event) : Z :=
  fold_right (fun ev total => duration ev + total) 0 events.

Section Failures.
Context {runtime : Runtime}.

(** The event is a request whose attempt failed with a [NetworkError]. *)
Definition networkFailure (ev : Event) : bool :=
  match ev with
  | Requested o r =>
      match Governor.attemptResult o r with
      | inr e => instanceofNetworkError e
      | inl _ => false
      end
  | _ => false
  end.

End Failures.

End Timing.

(** ** What a queue holds *)

Module Queue.

(** The payloads of the evaluation events of a queue, in order. *)
Definition evaluations (queue : list OfflineEvent) : list EvaluationPayload :=
  omap (fun event =>
          match event with
          | EvaluationEvent payload _ => Some payload
          | PolicyUpdateEvent _ _ => None
          end) queue.

End Queue.

(** * Properties *)

(** ** The keyed cache *)

Section CacheProperties.
Context {S V : Type} {driver : StorageDriver S V}.
Implicit Types (c : Cache.CacheManager S V) (key : string) (v : V).

Lemma getPersisted_found key now c v :
  fst (getItem (Cache.storageKey c key) now (Cache.storage c)) = Some v ->
  Cache.getPersisted key now c =
    (Some v,
     Cache.withMemory (<[key := mkCacheEntry v (Finite (now + Cache.ttlMs c))]> (Cache.memory c))
       (Cache.withMetrics (Cache.hit (Cache.metrics c))
          (Cache.withStorage
             (snd (getItem (Cache.storageKey c key) now (Cache.storage c))) c))).
Proof.
  intros Hget. unfold Cache.getPersisted.
  destruct (getItem (Cache.storageKey c key) now (Cache.storage c)) as [persisted st].
  simpl in Hget. subst persisted. reflexivity.
Qed.

Lemma get_memoryHit key now c record :
  Cache.memory c !! key = Some record ->
  Cache.isExpired now record = false ->
  Cache.get key now c =
    (Some (value record), Cache.withMetrics (Cache.hit (Cache.metrics c)) c).
Proof.
  intros Hmem Hfresh. unfold Cache.get. rewrite Hmem, Hfresh. reflexivity.
Qed.

(** After a [get] answered by the durable tier, the in-process tier holds
    the value with expiry [now + ttlMs]. *)
Lemma get_durable_promotes key now c v :
  Cache.durableHit key now c v ->
  fst (Cache.get key now c) = Some v /\
  Cache.ttlMs (snd (Cache.get key now c)) = Cache.ttlMs c /\
  Cache.memory (snd (Cache.get key now c)) !! key =
    Some (mkCacheEntry v (Finite (now + Cache.ttlMs c))).
Proof.
  intros [Hmiss Hdurable]. unfold Cache.memoryHit in Hmiss. unfold Cache.get.
  destruct (Cache.memory c !! key) as [record|] eqn:Hmem.
  - apply negb_false_iff in Hmiss. rewrite Hmiss. simpl.
    rewrite (getPersisted_found key now _ v) by exact Hdurable. simpl.
    repeat split. apply lookup_insert_eq.
  - rewrite (getPersisted_found key now _ v) by exact Hdurable. simpl.
    repeat split. apply lookup_insert_eq.
Qed.

(** C8. A value that [get] finds only in the durable tier is returned and
    promoted into the in-process tier with expiry [now + ttlMs] of the cache
    (whatever expiry the durable entry had); a [get] of the same key at any
    time before that expiry, in particular at once, is answered by the
    in-process tier: it returns the value and only counts a hit. *)
Theorem durable_read_renews_ttl key now later c v :
  Cache.durableHit key now c v ->
  later < now + Cache.ttlMs c ->
  let promoted := snd (Cache.get key now c) in
  fst (Cache.get key now c) = Some v /\
  Cache.memory promoted !! key = Some (mkCacheEntry v (Finite (now + Cache.ttlMs c))) /\
  Cache.memoryHit key later promoted = true /\
  Cache.get key later promoted =
    (Some v, Cache.withMetrics (Cache.hit (Cache.metrics promoted)) promoted).
Proof.
  intros Hdurable Hsoon promoted.
  destruct (get_durable_promotes key now c v Hdurable) as (Hres & Httl & Hmem).
  fold promoted in Httl, Hmem.
  assert (Hfresh : Cache.isExpired later (mkCacheEntry v (Finite (now + Cache.ttlMs c))) = false).
  { unfold Cache.isExpired. simpl. apply Z.leb_gt. exact Hsoon. }
  repeat split; try assumption.
  - unfold Cache.memoryHit. rewrite Hmem, Hfresh. reflexivity.
  - rewrite (get_memoryHit key later promoted _ Hmem Hfresh). reflexivity.
Qed.

End CacheProperties.

(** The bundle sits in the durable tier with expiry 5000; read at time 1000
    through a cache with a TTL of 300000 it is promoted with expiry 301000,
    and the next read at time 1000 is a hit of the in-process tier. *)
Lemma durable_read_renews_ttl_witness :
  Cache.durableHit "k1" 1000 Scenario.coldCache
    (Scenario.bundle "c1") /\
  1000 < 1000 + Cache.ttlMs Scenario.coldCache /\
  let promoted := snd (Cache.get "k1" 1000 Scenario.coldCache) in
  fst (Cache.get "k1" 1000 Scenario.coldCache)
    = Some (Scenario.bundle "c1") /\
  Cache.memory promoted !! "k1" = Some (mkCacheEntry (Scenario.bundle "c1") (Finite (1000 + 300000))) /\
  Cache.memoryHit "k1" 1000 promoted = true /\
  Cache.get "k1" 1000 promoted =
    (Some (Scenario.bundle "c1"),
     Cache.withMetrics (Cache.hit (Cache.metrics promoted)) promoted).
Proof.
  assert (Hdurable : Cache.durableHit "k1" 1000
                       Scenario.coldCache (Scenario.bundle "c1")).
  { split; vm_compute; reflexivity. }
  assert (Hsoon : 1000 < 1000 + Cache.ttlMs Scenario.coldCache).
  { vm_compute. reflexivity. }
  split; [exact Hdurable|]. split; [exact Hsoon|].
  exact (durable_read_renews_ttl "k1" 1000 1000 Scenario.coldCache (Scenario.bundle "c1")
           Hdurable Hsoon).
Defined.

(** ** The retry controller *)

Section RetryProperties.
Context {S : Type} {driver : StorageDriver S Rulepack} {runtime : Runtime}.
Import Governor.
Implicit Types (g : Governor.Governor S) (o options : HttpRequestOptions).

Lemma sameInstance_refl g : sameInstance g g.
Proof. unfold sameInstance. destruct g. reflexivity. Qed.

Lemma sameInstance_trans g1 g2 g3 :
  sameInstance g1 g2 -> sameInstance g2 g3 -> sameInstance g1 g3.
Proof.
  unfold sameInstance. intros H12 H23. rewrite H23. rewrite H12.
  destruct g1. reflexivity.
Qed.

Lemma httpRequest_eq o g :
  httpRequest o g =
    if hasFetch || negb isBrowser then
      (match attemptResult o (fetch (trace g) o) with
       | inl response => Return response
       | inr e => Throw e
       end, sent o (fetch (trace g) o) g)
    else
      (Throw (GovernorError NetworkError "Fetch API is not available in this environment"), g).
Proof.
  unfold httpRequest, ensureFetch, bind, gets, modify, liftFallible.
  destruct hasFetch, isBrowser; cbn [orb negb ret throw];
    try reflexivity;
    destruct (attemptResult o (fetch (trace g) o)); reflexivity.
Qed.

(** One turn of the loop of [requestWithRetry]. *)
Lemma retryLoop_step fuel options maxAttempts attempt lastError g :
  attempt < maxAttempts ->
  retryLoop (Datatypes.S fuel) options maxAttempts attempt lastError g =
    match httpRequest (sentOptions options g) g with
    | (Return response, g1) => (Return response, snd (setOfflineMode false g1))
    | (Throw e, g1) =>
        let g2 := if instanceofNetworkError e then snd (setOfflineMode true g1) else g1 in
        if attempt + 1 >=? maxAttempts then (Throw e, g2)
        else retryLoop fuel options maxAttempts (attempt + 1) (Some e)
               (snd (exponentialBackoff attempt (retry (config g2)) g2))
    | (Unfinished, g1) => (Unfinished, g1)
    end.
Proof.
  intros Hlt. cbn [retryLoop].
  apply Z.ltb_lt in Hlt. rewrite Hlt.
  unfold tryCatch, bind at 1 2. unfold gets at 1. fold (sentOptions options g).
  destruct (httpRequest (sentOptions options g) g) as [[response|e|] g1]; try reflexivity.
  unfold bind. destruct (instanceofNetworkError e); cbn.
  - destruct (attempt + 1 >=? maxAttempts); [reflexivity|].
    replace (attempt + 1 - 1) with attempt by lia. reflexivity.
  - destruct (attempt + 1 >=? maxAttempts); [reflexivity|].
    replace (attempt + 1 - 1) with attempt by lia. reflexivity.
Qed.

Lemma sameInstance_config g g' : sameInstance g g' -> config g' = config g.
Proof. unfold sameInstance. intros ->. reflexivity. Qed.

Lemma lastMode_app mode tr1 tr2 :
  lastMode mode (tr1 ++ tr2) = lastMode (lastMode mode tr1) tr2.
Proof.
  revert mode. induction tr1 as [|ev tr1 IH]; intros mode; [reflexivity|].
  destruct ev; cbn; apply IH.
Qed.

Lemma httpRequest_run o g :
  match httpRequest o g with
  | (Return response, g1) =>
      exists r, attemptResult o r = inl response /\
                trace g1 = trace g ++ [Requested o r] /\
                isOffline g1 = isOffline g /\ sameInstance g g1
  | (Throw e, g1) =>
      exists evs, FailedAttempt o evs e /\
                  trace g1 = trace g ++ evs /\
                  isOffline g1 = isOffline g /\ sameInstance g g1
  | (Unfinished, _) => False
  end.
Proof.
  rewrite httpRequest_eq. destruct (hasFetch || negb isBrowser).
  - destruct (attemptResult o (fetch (trace g) o)) as [response|e] eqn:Hres.
    + exists (fetch (trace g) o).
      split; [exact Hres|]. split; [reflexivity|]. split; [reflexivity|].
      unfold sameInstance. destruct g. reflexivity.
    + exists [Requested o (fetch (trace g) o)].
      split; [constructor; exact Hres|]. split; [reflexivity|]. split; [reflexivity|].
      unfold sameInstance. destruct g. reflexivity.
  - exists [].
    split; [constructor|]. split; [symmetry; apply app_nil_r|]. split; [reflexivity|].
    apply sameInstance_refl.
Qed.

Lemma modeAfter_run e g :
  let g2 := if instanceofNetworkError e then snd (setOfflineMode true g) else g in
  trace g2 = trace g ++ modeAfter e /\
  isOffline g2 = lastMode (isOffline g) (modeAfter e) /\
  sameInstance g g2.
Proof.
  unfold modeAfter. destruct (instanceofNetworkError e); cbn.
  - split; [reflexivity|]. split; [reflexivity|].
    unfold sameInstance. destruct g. reflexivity.
  - rewrite app_nil_r. split; [reflexivity|]. split; [reflexivity|].
    apply sameInstance_refl.
Qed.

Lemma FailedAttempt_lastMode o evs e mode :
  FailedAttempt o evs e -> lastMode mode evs = mode.
Proof. destruct 1; reflexivity. Qed.

(** The loop of [requestWithRetry] performs one of the runs of
    [RetryRun], and touches nothing but the trace, the clock and the
    flag. *)
Lemma retryLoop_run fuel : forall options maxAttempts attempt lastError g,
  attempt < maxAttempts ->
  (Z.to_nat (maxAttempts - attempt) <= fuel)%nat ->
  exists new,
    RetryRun (retry (config g)) maxAttempts (sentOptions options g) attempt new
      (fst (retryLoop fuel options maxAttempts attempt lastError g)) /\
    trace (snd (retryLoop fuel options maxAttempts attempt lastError g)) = trace g ++ new /\
    isOffline (snd (retryLoop fuel options maxAttempts attempt lastError g))
      = lastMode (isOffline g) new /\
    sameInstance g (snd (retryLoop fuel options maxAttempts attempt lastError g)).
Proof.
  induction fuel as [|fuel IH]; intros options maxAttempts attempt lastError g Hlt Hfuel;
    [lia|].
  rewrite retryLoop_step by assumption.
  pose proof (httpRequest_run (sentOptions options g) g) as Hreq.
  destruct (httpRequest (sentOptions options g) g) as [[response|e|] g1];
    [| |contradiction].
  - destruct Hreq as (r & Hres & Htrace & Hmode & Hsame).
    exists [Requested (sentOptions options g) r; ModeSet false]. cbn.
    split; [constructor; assumption|].
    split; [rewrite Htrace, <- app_assoc; reflexivity|].
    split; [reflexivity|].
    eapply sameInstance_trans; [exact Hsame|].
    unfold sameInstance. destruct g1. reflexivity.
  - destruct Hreq as (evs & Hfail & Htrace & Hmode & Hsame).
    destruct (modeAfter_run e g1) as (Htrace2 & Hmode2 & Hsame2).
    cbv zeta.
    set (g2 := if instanceofNetworkError e then snd (setOfflineMode true g1) else g1) in *.
    destruct (attempt + 1 >=? maxAttempts) eqn:Hlast.
    + exists (evs ++ modeAfter e). cbn [fst snd]. split; [|split; [|split]].
      * apply run_exhausted; [assumption|assumption|]. apply Z.geb_le in Hlast. lia.
      * rewrite Htrace2, Htrace, app_assoc. reflexivity.
      * rewrite Hmode2, Hmode, lastMode_app.
        rewrite (FailedAttempt_lastMode _ _ _ _ Hfail). reflexivity.
      * exact (sameInstance_trans _ _ _ Hsame Hsame2).
    + assert (Hmore : attempt + 1 < maxAttempts).
      { rewrite Z.geb_leb in Hlast. apply Z.leb_gt in Hlast. lia. }
      set (g3 := snd (exponentialBackoff attempt (retry (config g2)) g2)).
      assert (Hsame3 : sameInstance g g3).
      { eapply sameInstance_trans; [exact Hsame|].
        eapply sameInstance_trans; [exact Hsame2|].
        unfold sameInstance, g3. destruct g2. reflexivity. }
      assert (Hcfg2 : config g2 = config g).
      { apply sameInstance_config. exact (sameInstance_trans _ _ _ Hsame Hsame2). }
      assert (Hcfg3 : config g3 = config g) by (apply sameInstance_config; exact Hsame3).
      assert (Htrace3 : trace g3 = trace g ++ evs ++ modeAfter e ++
                          [Delayed (backoffDelayMs attempt (retry (config g)))]).
      { unfold g3. cbn. rewrite Htrace2, Htrace, Hcfg2, <- !app_assoc. reflexivity. }
      assert (Hmode3 : isOffline g3 = lastMode (isOffline g) (evs ++ modeAfter e)).
      { unfold g3. cbn. rewrite Hmode2, Hmode, lastMode_app.
        rewrite (FailedAttempt_lastMode _ _ _ _ Hfail). reflexivity. }
      destruct (IH options maxAttempts (attempt + 1) (Some e) g3 Hmore ltac:(lia))
        as (rest & Hrun & Htr & Hmd & Hsm).
      assert (Hopts : sentOptions options g3 = sentOptions options g).
      { unfold sentOptions. rewrite Hcfg3. reflexivity. }
      rewrite Hopts, Hcfg3 in Hrun.
      exists (evs ++ modeAfter e ++ Delayed (backoffDelayMs attempt (retry (config g))) :: rest).
      split; [|split; [|split]].
      * apply run_retry; assumption.
      * rewrite Htr, Htrace3, <- !app_assoc. reflexivity.
      * rewrite Hmd, Hmode3.
        change (Delayed (backoffDelayMs attempt (retry (config g))) :: rest)
          with ([Delayed (backoffDelayMs attempt (retry (config g)))] ++ rest).
        rewrite !app_assoc, (lastMode_app _ _ rest), (lastMode_app _ _ [_]).
        reflexivity.
      * exact (sameInstance_trans _ _ _ Hsame3 Hsm).
Qed.

(** *** What every run of the loop satisfies *)


Lemma delaysIn_app tr1 tr2 : delaysIn (tr1 ++ tr2) = delaysIn tr1 ++ delaysIn tr2.
Proof.
  induction tr1 as [|ev tr1 IH]; [reflexivity|].
  destruct ev; cbn; rewrite IH; reflexivity.
Qed.

Lemma deliveries_app tr1 tr2 : deliveries (tr1 ++ tr2) = deliveries tr1 ++ deliveries tr2.
Proof. unfold deliveries. apply omap_app. Qed.


Lemma modeAfter_delays e : delaysIn (modeAfter e) = [].
Proof. unfold modeAfter. destruct (instanceofNetworkError e); reflexivity. Qed.

Lemma modeAfter_deliveries e : deliveries (modeAfter e) = [].
Proof. unfold modeAfter. destruct (instanceofNetworkError e); reflexivity. Qed.


Lemma FailedAttempt_delays o evs e : FailedAttempt o evs e -> delaysIn evs = [].
Proof. destruct 1; reflexivity. Qed.

Lemma FailedAttempt_deliveries o evs e : FailedAttempt o evs e -> deliveries evs = [].
Proof.
  destruct 1 as [|r e Hres]; [reflexivity|].
  unfold deliveries. cbn. rewrite Hres. reflexivity.
Qed.

Lemma FailedAttempt_modeTracked o evs e rest :
  FailedAttempt o evs e ->
  modeTracked (evs ++ modeAfter e ++ rest) = modeTracked rest.
Proof.
  destruct 1 as [|r e Hres]; unfold modeAfter.
  - cbn. reflexivity.
  - cbn. rewrite Hres. destruct (instanceofNetworkError e); reflexivity.
Qed.

Section Runs.
Variables (policy : RetryOptions) (maxAttempts : Z) (o : HttpRequestOptions).

Lemma RetryRun_finished attempt new result :
  RetryRun policy maxAttempts o attempt new result -> result <> Unfinished.
Proof. induction 1; congruence. Qed.



(** A run that throws has used the whole budget. *)
Lemma RetryRun_exhausted attempt new e :
  RetryRun policy maxAttempts o attempt new (Throw e) ->
  Z.of_nat (length (delaysIn new)) = maxAttempts - attempt - 1.
Proof.
  remember (Throw e) as result eqn:Hresult.
  induction 1 as [attempt r response Hlt Hres
                 |attempt evs e' Hlt Hfail Hlast
                 |attempt evs e' rest result Hlt Hfail Hmore Hrun IH].
  - discriminate.
  - rewrite delaysIn_app, (FailedAttempt_delays _ _ _ Hfail), modeAfter_delays. cbn. lia.
  - change (Delayed (backoffDelayMs attempt policy) :: rest)
      with ([Delayed (backoffDelayMs attempt policy)] ++ rest).
    rewrite !delaysIn_app, (FailedAttempt_delays _ _ _ Hfail), modeAfter_delays. cbn.
    specialize (IH Hresult). lia.
Qed.

Lemma RetryRun_modeTracked attempt new result :
  RetryRun policy maxAttempts o attempt new result -> modeTracked new = true.
Proof.
  induction 1 as [attempt r response Hlt Hres
                 |attempt evs e Hlt Hfail Hlast
                 |attempt evs e rest result Hlt Hfail Hmore Hrun IH].
  - cbn. rewrite Hres. reflexivity.
  - rewrite <- (app_nil_r (modeAfter e)).
    rewrite (FailedAttempt_modeTracked _ _ _ _ Hfail). reflexivity.
  - rewrite (FailedAttempt_modeTracked _ _ _ _ Hfail). exact IH.
Qed.

(** The flag after a run: connected after a success, offline after a
    [NetworkError]. *)
Lemma RetryRun_lastMode attempt new result mode :
  RetryRun policy maxAttempts o attempt new result ->
  match result with
  | Return _ => lastMode mode new = false
  | Throw e => instanceofNetworkError e = true -> lastMode mode new = true
  | Unfinished => False
  end.
Proof.
  intros Hrun. revert mode.
  induction Hrun as [attempt r response Hlt Hres
                    |attempt evs e Hlt Hfail Hlast
                    |attempt evs e rest result Hlt Hfail Hmore Hrun IH]; intros mode.
  - reflexivity.
  - intros Hnet. rewrite lastMode_app. unfold modeAfter. rewrite Hnet. reflexivity.
  - specialize (IH (lastMode mode (evs ++ modeAfter e))).
    change (Delayed (backoffDelayMs attempt policy) :: rest)
      with ([Delayed (backoffDelayMs attempt policy)] ++ rest).
    rewrite !app_assoc, (lastMode_app _ _ rest), (lastMode_app _ _ [_]).
    exact IH.
Qed.

(** Only the last request of a run can have reached the service, and it
    has exactly when the run returns. *)
Lemma RetryRun_deliveries attempt new result :
  RetryRun policy maxAttempts o attempt new result ->
  deliveries new = match result with
                   | Return _ => option_list (body o)
                   | _ => []
                   end.
Proof.
  induction 1 as [attempt r response Hlt Hres
                 |attempt evs e Hlt Hfail Hlast
                 |attempt evs e rest result Hlt Hfail Hmore Hrun IH].
  - unfold deliveries. cbn. rewrite Hres. destruct (body o); reflexivity.
  - rewrite deliveries_app, (FailedAttempt_deliveries _ _ _ Hfail), modeAfter_deliveries.
    reflexivity.
  - change (Delayed (backoffDelayMs attempt policy) :: rest)
      with ([Delayed (backoffDelayMs attempt policy)] ++ rest).
    rewrite !deliveries_app, (FailedAttempt_deliveries _ _ _ Hfail), modeAfter_deliveries.
    exact IH.
Qed.

(** The error of a run that throws is the error of one of its attempts,
    unchanged. *)
Lemma RetryRun_thrown attempt new e :
  RetryRun policy maxAttempts o attempt new (Throw e) ->
  e = GovernorError NetworkError "Fetch API is not available in this environment" \/
  exists r, In (Requested o r) new /\ attemptResult o r = inr e.
Proof.
  remember (Throw e) as result eqn:Hresult.
  induction 1 as [attempt r response Hlt Hres
                 |attempt evs e' Hlt Hfail Hlast
                 |attempt evs e' rest result Hlt Hfail Hmore Hrun IH].
  - discriminate.
  - injection Hresult as ->. destruct Hfail as [|r e Hres]; [left; reflexivity|].
    right. exists r. split; [left; reflexivity|exact Hres].
  - destruct (IH Hresult) as [->|(r & Hin & Hres)]; [left; reflexivity|].
    right. exists r. split; [|exact Hres].
    apply in_or_app. right. apply in_or_app. right. right. exact Hin.
Qed.

(** A run is a row of failed attempts, each followed by the write of the
    flag its error asks for and by a backoff delay, and then one closing
    attempt: a successful one, or the failed attempt that uses up the
    budget, whose error is thrown. *)
Lemma RetryRun_attempts (k : nat) new result :
  RetryRun policy maxAttempts o (Z.of_nat k) new result ->
  exists failures closing,
    Forall (fun failure => FailedAttempt o (fst failure) (snd failure)) failures /\
    new = retriedFrom policy k failures ++ closing /\
    match result with
    | Return response =>
        Z.of_nat (k + length failures) < maxAttempts /\
        exists r, attemptResult o r = inl response /\
                  closing = [Requested o r; ModeSet false]
    | Throw e =>
        Z.of_nat (k + length failures) + 1 = maxAttempts /\
        exists evs, FailedAttempt o evs e /\ closing = evs ++ modeAfter e
    | Unfinished => False
    end.
Proof.
  remember (Z.of_nat k) as attempt eqn:Hk. intros Hrun. revert k Hk.
  induction Hrun as [attempt r response Hlt Hres
                    |attempt evs e Hlt Hfail Hlast
                    |attempt evs e rest result Hlt Hfail Hmore Hrun IH]; intros k ->.
  - exists [], [Requested o r; ModeSet false].
    split; [constructor|]. split; [reflexivity|].
    split; [cbn [length]; lia|]. exists r. split; [exact Hres|reflexivity].
  - exists [], (evs ++ modeAfter e).
    split; [constructor|]. split; [reflexivity|].
    split; [cbn [length]; lia|]. exists evs. split; [exact Hfail|reflexivity].
  - destruct (IH (Datatypes.S k) ltac:(lia)) as (failures & closing & Hall & -> & Hend).
    exists ((evs, e) :: failures), closing.
    split; [constructor; [exact Hfail|exact Hall]|].
    split.
    { cbn [retriedFrom]. unfold retried. cbn [fst snd].
      rewrite <- !app_assoc. reflexivity. }
    destruct result as [response|e'|]; [| |exact Hend].
    + destruct Hend as [Hcount Hclosing]. split; [cbn [length]; lia|exact Hclosing].
    + destruct Hend as [Hcount Hclosing]. split; [cbn [length]; lia|exact Hclosing].
Qed.

(** Every request of a run carries the options of the call. *)
Lemma RetryRun_options attempt new result :
  RetryRun policy maxAttempts o attempt new result ->
  forall o' r, In (Requested o' r) new -> o' = o.
Proof.
  assert (Hfailed : forall evs e o' r,
             FailedAttempt o evs e -> In (Requested o' r) (evs ++ modeAfter e) -> o' = o).
  { intros evs e o' r Hfail Hin. apply in_app_or in Hin as [Hin|Hin].
    - destruct Hfail; [contradiction|]. destruct Hin as [Heq|[]]. congruence.
    - unfold modeAfter in Hin. destruct (instanceofNetworkError e); [|contradiction].
      destruct Hin as [Heq|[]]. discriminate. }
  induction 1 as [attempt r response Hlt Hres
                 |attempt evs e Hlt Hfail Hlast
                 |attempt evs e rest result Hlt Hfail Hmore Hrun IH]; intros o' r' Hin.
  - destruct Hin as [Heq|[Heq|[]]]; congruence.
  - eapply Hfailed; eassumption.
  - rewrite app_assoc in Hin. apply in_app_or in Hin as [Hin|Hin].
    + eapply Hfailed; eassumption.
    + destruct Hin as [Heq|Hin]; [discriminate|]. eapply IH; eassumption.
Qed.

End Runs.

(** *** [httpRequest] types the failures it detects itself and passes the
    others on *)

Lemma attemptResult_thrown o r e :
  attemptResult o r = inr e ->
  (exists message, e = GovernorError TimeoutError message) \/
  (exists message, e = GovernorError NetworkError message) \/
  settled r = Rejects e \/
  (exists response, settled r = Resolves response /\ bodyJson response = inr e).
Proof.
  unfold attemptResult, raced, withTimeout.
  destruct (default 10000 (reqTimeoutMs o) <=? 0); cbn [fst].
  2: destruct (elapsedMs r <? default 10000 (reqTimeoutMs o)); cbn [fst].
  3: { intros [= <-]. left. eexists. reflexivity. }
  all: destruct (settled r) as [response|e'] eqn:Hsettled;
    [|intros [= <-]; right; right; left; reflexivity].
  all: unfold readResponse; destruct (negb (ok response));
    [intros [= <-]; right; left; eexists; reflexivity|].
  all: destruct (default false (useStream o) && negb isBrowser && hasBody response);
    [discriminate|].
  all: destruct (responseType o) as [[| |]|]; try discriminate.
  all: destruct (bodyJson response) as [decoded|e'] eqn:Hjson; [discriminate|].
  all: intros [= <-]; right; right; right; exists response; split; [reflexivity|exact Hjson].
Qed.

Lemma sdkError_network message : sdkError (GovernorError NetworkError message).
Proof. exists "network_error". split; [reflexivity|]. cbn. auto. Qed.

Lemma sdkError_timeout message : sdkError (GovernorError TimeoutError message).
Proof. exists "timeout_error". split; [reflexivity|]. cbn. auto. Qed.

Lemma sdkError_policy message : sdkError (GovernorError PolicyError message).
Proof. exists "policy_error". split; [reflexivity|]. cbn. auto. Qed.

Lemma sdkError_unknown message : sdkError (GovernorError (BaseGovernorError "unknown") message).
Proof. exists "unknown". split; [reflexivity|]. cbn. auto 6. Qed.

Lemma bodiesIn_app tr1 tr2 : bodiesIn (tr1 ++ tr2) = bodiesIn tr1 ++ bodiesIn tr2.
Proof. unfold bodiesIn. apply omap_app. Qed.

Lemma bodiesIn_In tr b :
  In b (bodiesIn tr) -> exists o r, In (Requested o r) tr /\ body o = Some b.
Proof.
  induction tr as [|ev tr IH]; [intros []|].
  unfold bodiesIn. cbn. destruct ev as [o r| |]; cbn.
  - destruct (body o) as [b'|] eqn:Hbody.
    + intros [<-|Hin].
      * exists o, r. split; [left; reflexivity|exact Hbody].
      * destruct (IH Hin) as (o' & r' & Hin' & Hb). exists o', r'. split; [right|]; assumption.
    + intros Hin. destruct (IH Hin) as (o' & r' & Hin' & Hb).
      exists o', r'. split; [right|]; assumption.
  - intros Hin. destruct (IH Hin) as (o' & r' & Hin' & Hb).
    exists o', r'. split; [right|]; assumption.
  - intros Hin. destruct (IH Hin) as (o' & r' & Hin' & Hb).
    exists o', r'. split; [right|]; assumption.
Qed.

Lemma RetryRun_settles policy maxAttempts o attempt new result :
  RetryRun policy maxAttempts o attempt new result ->
  Settles (body o) new result.
Proof.
  intros Hrun. split.
  - apply Forall_forall. intros b Hin. apply list_elem_of_In in Hin.
    destruct (bodiesIn_In _ _ Hin) as (o' & r & Hreq & Hbody).
    rewrite (RetryRun_options _ _ _ _ _ _ Hrun o' r Hreq) in Hbody. exact Hbody.
  - pose proof (RetryRun_deliveries _ _ _ _ _ _ Hrun) as Hdel.
    pose proof (fun mode => RetryRun_lastMode _ _ _ _ _ _ mode Hrun) as Hmode.
    destruct result as [response|e|].
    + split; [exact I|]. split; [exact Hdel|exact Hmode].
    + split; [|left; exact Hdel].
      split; [intros Hnet mode; exact (Hmode mode Hnet)|].
      destruct (RetryRun_thrown _ _ _ _ _ _ Hrun) as [->|(r & Hin & Hres)].
      * left. apply sdkError_network.
      * destruct (attemptResult_thrown _ _ _ Hres)
          as [[m ->]|[[m ->]|[Hrej|Hjson]]].
        -- left. apply sdkError_timeout.
        -- left. apply sdkError_network.
        -- right. left. left. exists o, r. split; [exact Hin|left; exact Hrej].
        -- right. left. left. exists o, r. split; [exact Hin|right; exact Hjson].
    + split; exact (Hmode false).
Qed.

(** [requestWithRetry]: with no attempt allowed it throws at once; otherwise
    it performs a run of the loop from attempt 0. *)
Lemma requestWithRetry_run options g :
  let maxAttempts := retries (retry (config g)) + 1 in
  exists new,
    Effect g (snd (requestWithRetry options g)) new /\
    sameInstance g (snd (requestWithRetry options g)) /\
    ((maxAttempts <= 0 /\ new = [] /\
      fst (requestWithRetry options g) =
        Throw (GovernorError (BaseGovernorError "unknown") "Unknown error")) \/
     (0 < maxAttempts /\
      RetryRun (retry (config g)) maxAttempts (sentOptions options g) 0 new
        (fst (requestWithRetry options g)))).
Proof.
  intros maxAttempts. unfold requestWithRetry, bind, gets. fold maxAttempts.
  destruct (Z_lt_le_dec 0 maxAttempts) as [Hpos|Hnone].
  - destruct (retryLoop_run (Datatypes.S (Z.to_nat maxAttempts)) options maxAttempts 0 None g
                Hpos ltac:(lia)) as (new & Hrun & Htrace & Hmode & Hsame).
    exists new. split; [|split; [exact Hsame|right; split; assumption]].
    constructor; try assumption; rewrite Hsame; reflexivity.
  - exists []. cbn [retryLoop].
    assert (Hno : (0 <? maxAttempts) = false) by (apply Z.ltb_ge; exact Hnone).
    rewrite Hno. cbn.
    split; [|split; [apply sameInstance_refl|left; repeat split; assumption]].
    constructor; try reflexivity. symmetry. apply app_nil_r.
Qed.

Lemma requestWithRetry_settles options g :
  exists new,
    Effect g (snd (requestWithRetry options g)) new /\
    sameInstance g (snd (requestWithRetry options g)) /\
    Settles (body options) new (fst (requestWithRetry options g)).
Proof.
  destruct (requestWithRetry_run options g) as (new & Heff & Hsame & Hcases).
  exists new. split; [exact Heff|]. split; [exact Hsame|].
  destruct Hcases as [(_ & -> & ->)|(_ & Hrun)].
  - split; [constructor|]. split; [|left; reflexivity].
    split; [discriminate|]. left. apply sdkError_unknown.
  - exact (RetryRun_settles _ _ _ _ _ _ Hrun).
Qed.

End RetryProperties.

(** ** The instance: rulepacks, evaluation, the offline queue *)

Section GovernorProperties.
Context {S : Type} {driver : StorageDriver S Rulepack} {runtime : Runtime}.
Import Governor.
Implicit Types (g : Governor.Governor S) (o options : HttpRequestOptions).
Implicit Types (p payload : EvaluationPayload).

Lemma bind_Return {A B} (m : M A) (k : A -> M B) g a g1 :
  m g = (Return a, g1) -> bind m k g = k a g1.
Proof. unfold bind. intros ->. reflexivity. Qed.

Lemma bind_Throw {A B} (m : M A) (k : A -> M B) g e g1 :
  m g = (Throw e, g1) -> bind m k g = (Throw e, g1).
Proof. unfold bind. intros ->. reflexivity. Qed.

Lemma bind_gets {A B} (f : Governor.Governor S -> A) (k : A -> M B) g :
  bind (gets f) k g = k (f g) g.
Proof. reflexivity. Qed.

Lemma bind_modify {B} (f : Governor.Governor S -> Governor.Governor S) (k : unit -> M B) g :
  bind (modify f) k g = k tt (f g).
Proof. reflexivity. Qed.

Lemma bind_ret {A B} (a : A) (k : A -> M B) g : bind (ret a) k g = k a g.
Proof. reflexivity. Qed.

Lemma bind_throw {A B} (e : Thrown) (k : A -> M B) g :
  bind (throw e) k g = (Throw e, g).
Proof. reflexivity. Qed.

Lemma Effect_refl g : Effect g g [].
Proof. constructor; try reflexivity. symmetry. apply app_nil_r. Qed.

Lemma Effect_trans g1 g2 g3 new1 new2 :
  Effect g1 g2 new1 -> Effect g2 g3 new2 -> Effect g1 g3 (new1 ++ new2).
Proof.
  intros [Ht1 Hm1 Hc1 Hq1 Hs1] [Ht2 Hm2 Hc2 Hq2 Hs2]. constructor.
  - rewrite Ht2, Ht1, app_assoc. reflexivity.
  - rewrite Hm2, Hm1, lastMode_app. reflexivity.
  - congruence.
  - congruence.
  - congruence.
Qed.

Lemma Effect_since g g' new : Effect g g' new -> since g g' = new.
Proof.
  intros [Ht _ _ _ _]. unfold since. rewrite Ht. apply drop_app_length.
Qed.

Lemma sameAudit_refl g : sameAudit g g.
Proof. repeat split. Qed.

Lemma sameAudit_trans g1 g2 g3 : sameAudit g1 g2 -> sameAudit g2 g3 -> sameAudit g1 g3.
Proof. unfold sameAudit. intros (? & ? & ?) (? & ? & ?). repeat split; congruence. Qed.

Lemma sameInstance_sameAudit g g' : sameInstance g g' -> sameAudit g g'.
Proof. unfold sameInstance. intros ->. repeat split. Qed.

Lemma raisedOutside_app_r new1 new2 e :
  raisedOutside new2 e -> raisedOutside (new1 ++ new2) e.
Proof.
  intros [(o & r & Hin & Hr)|Hdec]; [|right; exact Hdec].
  left. exists o, r. split; [apply in_or_app; right; exact Hin|exact Hr].
Qed.

(** *** The rulepack cache leaves trace, flag, queue and audit log alone *)

Lemma getCachedRulepack_silent policyId g :
  exists found g',
    getCachedRulepack policyId g = (Return found, g') /\
    Effect g g' [] /\ sameAudit g g'.
Proof.
  unfold getCachedRulepack, now, bind, gets.
  destruct (rulepackIndex g !! policyId) as [key|].
  - destruct (String.eqb key "").
    + exists None, g. split; [reflexivity|]. split; [apply Effect_refl|apply sameAudit_refl].
    + cbn. destruct (Cache.get key (clock g) (rulepackCache g)) as [found cache].
      exists found, (withRulepackCache cache g). split; [reflexivity|].
      split; [|repeat split]. constructor; try reflexivity. symmetry. apply app_nil_r.
  - exists None, g. split; [reflexivity|]. split; [apply Effect_refl|apply sameAudit_refl].
Qed.

Lemma cacheRulepack_silent policyId rulepack g :
  exists g', cacheRulepack policyId rulepack g = (Return tt, g') /\
             Effect g g' [] /\ sameAudit g g'.
Proof.
  unfold cacheRulepack, now, bind, gets, modify. cbn.
  eexists. split; [reflexivity|]. split; [|repeat split].
  constructor; try reflexivity. symmetry. apply app_nil_r.
Qed.

Lemma createHeaders_pure g : exists hs, createHeaders g = (Return hs, g).
Proof.
  unfold createHeaders, bind, gets. destruct (apiKey (config g)) as [k|].
  - destruct (String.eqb k ""); eexists; reflexivity.
  - eexists; reflexivity.
Qed.

Lemma decodeRulepack_cases bytes g :
  (exists decoded, decodeRulepack bytes g = (Return decoded, g)) \/
  (exists e, decodeRulepack bytes g = (Throw e, g) /\
             instanceofNetworkError e = false /\
             forall new, raisedOutside new e).
Proof.
  unfold decodeRulepack, tryCatch, liftFallible, jsonParse, decompress, bind.
  destruct (parseRulepack bytes) as [decoded|m1]; [left; eexists; reflexivity|].
  cbn. destruct (inflate bytes) as [decompressed|m2] eqn:Hinflate; cbn.
  - destruct (parseRulepack decompressed) as [decoded|m3] eqn:Hparse;
      [left; eexists; reflexivity|].
    right. eexists. split; [reflexivity|]. split; [reflexivity|].
    intros new. right. left. exists decompressed, m3. split; [exact Hparse|reflexivity].
  - right. eexists. split; [reflexivity|]. split; [reflexivity|].
    intros new. right. right. exists bytes, m2. split; [exact Hinflate|reflexivity].
Qed.

Lemma Settles_FailsSafely {A} sentBody new (result : Completion A) :
  Settles sentBody new result -> FailsSafely new result.
Proof.
  intros (_ & Hfail & _). exact Hfail.
Qed.

Lemma Settles_no_body {A} new (result : Completion A) :
  Settles None new result -> bodiesIn new = [] /\ deliveries new = [].
Proof.
  intros (Hbodies & _ & Hres). split.
  - destruct (bodiesIn new) as [|b bs]; [reflexivity|].
    inversion Hbodies as [|? ? Hb]. discriminate.
  - destruct result as [a|e|]; [apply Hres| |contradiction].
    destruct Hres as [Hdel|(Hdel & _)]; exact Hdel.
Qed.

Ltac step_request :=
  match goal with
  | |- context [bind (requestWithRetry ?o) _ ?g0] =>
      let Hs := fresh "Hsettles" in
      let Hreq := fresh "Hreq" in
      let new := fresh "new" in
      destruct (requestWithRetry_settles o g0) as (new & ?Heff & ?Hsame & Hs);
      cbn [body] in Hs;
      destruct (requestWithRetry o g0) as [[?response|?e|] ?g1] eqn:Hreq;
      cbn [fst snd] in *;
      [rewrite (bind_Return _ _ _ _ _ Hreq)
      |rewrite (bind_Throw _ _ _ _ _ Hreq)
      |destruct Hs as (_ & [] & _)]
  end.

Lemma loadRulepack_forced policyId g result g' :
  loadRulepack policyId true g = (result, g') ->
  exists new,
    Effect g g' new /\ sameAudit g g' /\
    bodiesIn new = [] /\ deliveries new = [] /\ FailsSafely new result.
Proof.
  unfold loadRulepack. destruct (String.eqb policyId "").
  { intros [= <- <-]. exists []. split; [apply Effect_refl|].
    split; [apply sameAudit_refl|]. repeat split; try discriminate.
    left. apply sdkError_policy. }
  cbn [bind ret gets]. destruct (isOffline g).
  { intros [= <- <-]. exists []. split; [apply Effect_refl|].
    split; [apply sameAudit_refl|]. repeat split. }
  destruct (createHeaders_pure g) as [hs Hhs].
  rewrite (bind_Return _ _ _ _ _ Hhs). cbn [bind gets]. step_request.
  - destruct (Settles_no_body _ _ Hsettles) as [Hbodies Hdeliveries].
    destruct (decodeRulepack_cases (rawBytes (data response)) g1)
      as [[[rulepack|] Hdec]|(e & Hdec & Hnet & Hout)].
    + rewrite (bind_Return _ _ _ _ _ Hdec).
      destruct (cacheRulepack_silent policyId rulepack g1) as (g2 & Hcache & Heff2 & Haud2).
      rewrite (bind_Return _ _ _ _ _ Hcache).
      intros [= <- <-].
      exists new. split; [|split; [|repeat split; assumption]].
      * rewrite <- (app_nil_r new). eapply Effect_trans; eassumption.
      * eapply sameAudit_trans; [apply sameInstance_sameAudit; exact Hsame|exact Haud2].
    + rewrite (bind_Return _ _ _ _ _ Hdec). intros [= <- <-].
      exists new. split; [exact Heff|].
      split; [apply sameInstance_sameAudit; exact Hsame|].
      split; [exact Hbodies|]. split; [exact Hdeliveries|].
      split; [discriminate|right; right; right; reflexivity].
    + rewrite (bind_Throw _ _ _ _ _ Hdec). intros [= <- <-].
      exists new. split; [exact Heff|].
      split; [apply sameInstance_sameAudit; exact Hsame|].
      split; [exact Hbodies|]. split; [exact Hdeliveries|].
      split; [congruence|right; left; apply Hout].
  - destruct (Settles_no_body _ _ Hsettles) as [Hbodies Hdeliveries].
    intros [= <- <-].
    exists new. split; [exact Heff|].
    split; [apply sameInstance_sameAudit; exact Hsame|].
    split; [exact Hbodies|]. split; [exact Hdeliveries|].
    exact (Settles_FailsSafely _ _ _ Hsettles).
Qed.

Lemma ensureRulepackCached_effect policyId g result g' :
  ensureRulepackCached policyId g = (result, g') ->
  exists new,
    Effect g g' new /\ sameAudit g g' /\
    bodiesIn new = [] /\ deliveries new = [] /\ FailsSafely new result.
Proof.
  unfold ensureRulepackCached.
  destruct (getCachedRulepack_silent policyId g) as (found & g1 & Hget & Heff1 & Haud1).
  rewrite (bind_Return _ _ _ _ _ Hget).
  destruct found as [rulepack|].
  - intros [= <- <-]. exists []. split; [exact Heff1|]. split; [exact Haud1|].
    repeat split.
  - unfold bind.
    destruct (loadRulepack policyId true g1) as [[loaded|e|] g2] eqn:Hload;
      destruct (loadRulepack_forced _ _ _ _ Hload) as (new & Heff & Haud & Hb & Hd & Hfail);
      intros [= <- <-].
    + exists new. split; [exact (Effect_trans _ _ _ [] new Heff1 Heff)|].
      split; [eapply sameAudit_trans; eassumption|]. repeat split; assumption.
    + exists new. split; [exact (Effect_trans _ _ _ [] new Heff1 Heff)|].
      split; [eapply sameAudit_trans; eassumption|]. repeat split; try assumption;
        apply Hfail.
    + contradiction.
Qed.

(** *** [evaluate] *)

Lemma evaluate_missing_policy p g :
  policyId p = "" ->
  evaluate p g = (Throw (GovernorError PolicyError "policyId is required for evaluation"), g).
Proof. intros Hid. unfold evaluate. rewrite Hid. reflexivity. Qed.

(** The offline route: the payload is queued as it came, nothing is sent,
    the audit log is not touched. *)
Lemma evaluate_offline p g :
  policyId p <> "" ->
  routedOffline g p = true ->
  evaluate p g = (Return (offlineResult p g), enqueued (queuedEvent p g) g).
Proof.
  intros Hid Hoff. unfold evaluate.
  apply String.eqb_neq in Hid. rewrite Hid.
  unfold bind at 1. cbn [gets]. rewrite Hoff. reflexivity.
Qed.

Lemma appendAuditRecord_enabled record g :
  truthy (enableAuditLog (config g)) = true ->
  appendAuditRecord record g =
    (Return tt,
     withStoredAudit (Some (spliceOldest (auditLog g ++ [record])))
       (withAuditLog (spliceOldest (auditLog g ++ [record])) g)).
Proof.
  intros Hon. unfold appendAuditRecord. unfold bind at 1. cbn [gets].
  rewrite Hon. reflexivity.
Qed.

Lemma appendAuditRecord_disabled record g :
  truthy (enableAuditLog (config g)) = false ->
  appendAuditRecord record g = (Return tt, g).
Proof.
  intros Hoff. unfold appendAuditRecord. unfold bind at 1. cbn [gets].
  rewrite Hoff. reflexivity.
Qed.

(** The online route. *)
Lemma evaluate_online p g result g' :
  policyId p <> "" ->
  routedOffline g p = false ->
  evaluate p g = (result, g') ->
  exists new,
    Effect g g' new /\
    Settles (Some (BodyEvaluation p)) new result /\
    match result with
    | Return _ =>
        if truthy (enableAuditLog (config g)) then
          exists record,
            action record = "evaluate" /\
            auditLog g' = spliceOldest (auditLog g ++ [record]) /\
            storedAudit g' = Some (auditLog g')
        else sameAudit g g'
    | _ => sameAudit g g'
    end.
Proof.
  intros Hid Hon. unfold evaluate.
  apply String.eqb_neq in Hid. rewrite Hid.
  unfold bind at 1. cbn [gets]. rewrite Hon.
  unfold bind at 1.
  destruct (ensureRulepackCached (policyId p) g) as [[[]|e|] g1] eqn:Hensure;
    destruct (ensureRulepackCached_effect _ _ _ _ Hensure)
      as (new1 & Heff1 & Haud1 & Hb1 & Hd1 & Hfail1); [| |contradiction].
  2: { intros [= <- <-]. exists new1. split; [exact Heff1|]. split; [|exact Haud1].
       split; [rewrite Hb1; constructor|]. split; [exact Hfail1|left; exact Hd1]. }
  destruct (createHeaders_pure g1) as [hs Hhs].
  rewrite (bind_Return _ _ _ _ _ Hhs). rewrite !bind_gets. step_request.
  - destruct Hsettles as (Hbodies & _ & Hdel & Hmode).
    assert (Heff2 : Effect g g0 (new1 ++ new)) by (eapply Effect_trans; eassumption).
    assert (Haud0 : sameAudit g g0).
    { eapply sameAudit_trans; [exact Haud1|apply sameInstance_sameAudit; exact Hsame]. }
    assert (Hsent : Forall (fun b => Some (BodyEvaluation p) = Some b)
                      (bodiesIn (new1 ++ new))).
    { rewrite bodiesIn_app, Hb1. exact Hbodies. }
    assert (Hdelivered : deliveries (new1 ++ new) = option_list (Some (BodyEvaluation p))).
    { rewrite deliveries_app, Hd1. exact Hdel. }
    destruct (asEvaluationResult (data response)) as [received|e] eqn:Hread.
    2: { cbn [liftFallible]. rewrite bind_throw.
         intros [= <- <-]. exists (new1 ++ new).
         split; [exact Heff2|]. split; [|exact Haud0].
         assert (Hnull : readOffNull e).
         { unfold asEvaluationResult in Hread.
           destruct (data response) as [| | | |[| |]]; try discriminate.
           injection Hread as <-. left. reflexivity. }
         split; [exact Hsent|]. split; [|right; split; assumption].
         split; [|right; right; exact Hnull].
         destruct Hnull as [-> | ->]; discriminate. }
    cbn [liftFallible]. rewrite bind_ret.
    assert (Hsettled : forall r : EvaluationResult,
               Settles (Some (BodyEvaluation p)) (new1 ++ new) (Return r)).
    { intros r. split; [exact Hsent|]. split; [exact I|].
      split; [exact Hdelivered|]. intros mode. rewrite lastMode_app. apply Hmode. }
    assert (Hcfg : config g0 = config g) by apply Heff2.
    rewrite !bind_gets. rewrite Hcfg.
    destruct (truthy (enableAuditLog (config g))) eqn:Henabled.
    + cbv [bind randomId now gets modify ret].
      rewrite appendAuditRecord_enabled by (cbn; rewrite Hcfg; exact Henabled).
      intros [= <- <-].
      exists (new1 ++ new). split; [|split; [apply Hsettled|]].
      * destruct Heff2 as [Ht Hm Hc Hq Hs]. constructor; assumption.
      * eexists (mkAuditRecord _ _ _ _). split; [reflexivity|]. cbn.
        destruct Haud0 as (-> & _ & _). split; reflexivity.
    + rewrite !bind_ret. cbn [ret]. intros [= <- <-].
      exists (new1 ++ new). split; [exact Heff2|]. split; [apply Hsettled|exact Haud0].
  - intros [= <- <-]. destruct Hsettles as (Hbodies & [Hnet Hkind] & Hdel).
    exists (new1 ++ new). split; [eapply Effect_trans; eassumption|]. split.
    + split; [rewrite bodiesIn_app, Hb1; exact Hbodies|]. split.
      * split; [intros Hn mode; rewrite lastMode_app; apply Hnet; exact Hn|].
        destruct Hkind as [Hsdk|[Hout|Hnull]]; [left; exact Hsdk| |right; right; exact Hnull].
        right. left. apply raisedOutside_app_r. exact Hout.
      * rewrite deliveries_app, Hd1. exact Hdel.
    + eapply sameAudit_trans; [exact Haud1|apply sameInstance_sameAudit; exact Hsame].
Qed.

(** *** Replaying the offline queue *)

Lemma updatePolicies_online policies g result g' :
  isOffline g = false ->
  updatePolicies policies g = (result, g') ->
  exists new,
    Effect g g' new /\ sameAudit g g' /\
    Settles (Some (BodyPolicies policies)) new result.
Proof.
  intros Hon. unfold updatePolicies. rewrite bind_gets, Hon.
  destruct (createHeaders_pure g) as [hs Hhs].
  rewrite (bind_Return _ _ _ _ _ Hhs). rewrite !bind_gets. step_request.
  - intros [= <- <-]. exists new. split; [exact Heff|].
    split; [apply sameInstance_sameAudit; exact Hsame|].
    destruct Hsettles as [Hbodies Hres]. split; assumption.
  - intros [= <- <-]. exists new. split; [exact Heff|].
    split; [apply sameInstance_sameAudit; exact Hsame|exact Hsettles].
Qed.

Lemma replayPayload_not_offline p :
  truthy (options (replayPayload p) ≫= optOffline) = false.
Proof. unfold replayPayload. cbn. destruct (options p); reflexivity. Qed.

Lemma Settles_unit {A} sentBody new (result : Completion A) :
  Settles sentBody new result ->
  Settles sentBody new (match result with
                        | Return _ => Return tt
                        | Throw e => Throw e
                        | Unfinished => Unfinished
                        end).
Proof. destruct result; exact (fun H => H). Qed.

(** One replay, started while connected: nothing is queued, the body on the
    wire is [replayBody event], it is delivered when the replay returns, and
    then the instance is still connected. *)
Lemma replay_online event g result g' :
  isOffline g = false ->
  replay event g = (result, g') ->
  exists new, Effect g g' new /\ Settles (Some (replayBody event)) new result.
Proof.
  intros Hon. destruct event as [p createdAt|policies createdAt]; cbn [replay replayBody].
  - destruct (String.eqb_spec (policyId (replayPayload p)) "") as [Hid|Hid].
    + unfold bind. rewrite (evaluate_missing_policy _ _ Hid). intros [= <- <-].
      exists []. split; [apply Effect_refl|]. split; [constructor|].
      split; [|left; reflexivity]. split; [discriminate|]. left. apply sdkError_policy.
    + assert (Hroute : routedOffline g (replayPayload p) = false).
      { unfold routedOffline. rewrite Hon, replayPayload_not_offline. reflexivity. }
      unfold bind.
      destruct (evaluate (replayPayload p) g) as [[r|e|] g1] eqn:Heval;
        destruct (evaluate_online _ _ _ _ Hid Hroute Heval) as (new & Heff & Hsettles & _);
        intros [= <- <-]; exists new; (split; [exact Heff|]);
        exact (Settles_unit _ _ _ Hsettles).
  - intros Hrun.
    destruct (updatePolicies_online _ _ _ _ Hon Hrun) as (new & Heff & _ & Hsettles).
    exists new. split; assumption.
Qed.

(** The loop of [flushOfflineQueue], started while connected with more
    fuel than events: it takes a prefix [sent] off the queue, whose replay
    bodies were delivered in order, and leaves the rest [kept] in the queue,
    in order; it returns when nothing is kept, and throws the error of the
    replay that failed with the failed event at the head of the queue. (The
    body of the failed event itself may have reached the service before its
    replay failed.) *)
Lemma flushLoop_fifo fuel : forall g result g',
  isOffline g = false ->
  (length (offlineQueue g) < fuel)%nat ->
  flushLoop fuel g = (result, g') ->
  exists sent kept new,
    offlineQueue g = sent ++ kept /\
    offlineQueue g' = kept /\
    trace g' = trace g ++ new /\
    config g' = config g /\
    Forall (fun b => exists event, In event (offlineQueue g) /\ b = replayBody event)
      (bodiesIn new) /\
    FailsSafely new result /\
    match result with
    | Return _ =>
        kept = [] /\ isOffline g' = false /\ storedQueue g' = storedQueue g /\
        deliveries new = map replayBody sent
    | Throw e =>
        exists failed rest during,
          kept = failed :: rest /\ offlineQueue during = rest /\
          fst (replay failed during) = Throw e /\
          (deliveries new = map replayBody sent \/
           deliveries new = map replayBody (sent ++ [failed]))
    | Unfinished => False
    end.
Proof.
  induction fuel as [|fuel IH]; intros g result g' Hon Hfuel; [lia|].
  cbn [flushLoop]. rewrite bind_gets.
  destruct (offlineQueue g) as [|event rest] eqn:Hqueue.
  { intros [= <- <-]. exists [], [], [].
    split; [reflexivity|]. split; [exact Hqueue|].
    split; [symmetry; apply app_nil_r|]. split; [reflexivity|].
    split; [constructor|]. split; [exact I|].
    split; [reflexivity|]. split; [exact Hon|]. split; reflexivity. }
  rewrite bind_modify. unfold bind at 1. unfold tryCatch.
  set (g1 := withOfflineQueue rest g).
  assert (Hon1 : isOffline g1 = false) by exact Hon.
  destruct (replay event g1) as [[[]|e|] g2] eqn:Hreplay;
    destruct (replay_online _ _ _ _ Hon1 Hreplay) as (new & Heff & Hbodies & Hsafe & Hres).
  - destruct Hres as [Hdel Hmode].
    assert (Hon2 : isOffline g2 = false).
    { destruct Heff as [_ Hm _ _ _]. rewrite Hm. apply Hmode. }
    assert (Hq2 : offlineQueue g2 = rest) by (destruct Heff as [_ _ _ Hq _]; exact Hq).
    intros Hloop.
    destruct (IH g2 result g' Hon2 ltac:(rewrite Hq2; cbn in Hfuel; lia) Hloop)
      as (sent & kept & new2 & Hsplit & Hkept & Htrace & Hcfg & Hbodies2 & Hsafe2 & Hend).
    exists (event :: sent), kept, (new ++ new2).
    split; [rewrite Hq2 in Hsplit; rewrite Hsplit; reflexivity|].
    split; [exact Hkept|].
    split; [rewrite Htrace; destruct Heff as [Ht _ _ _ _]; rewrite Ht, app_assoc; reflexivity|].
    split; [rewrite Hcfg; apply Heff|].
    split.
    { rewrite bodiesIn_app. apply Forall_app. split.
      - eapply Forall_impl; [exact Hbodies|]. intros b [= <-].
        exists event. split; [left; reflexivity|reflexivity].
      - eapply Forall_impl; [exact Hbodies2|]. intros b (ev & Hin & ->).
        exists ev. split; [right; rewrite <- Hq2; exact Hin|reflexivity]. }
    destruct result as [[]|e|]; [| |contradiction].
    + split; [exact I|]. destruct Hend as (Hk & Hoff & Hstored & Hdel2).
      split; [exact Hk|]. split; [exact Hoff|].
      split; [rewrite Hstored; apply Heff|].
      rewrite deliveries_app, Hdel, Hdel2. reflexivity.
    + split.
      * destruct Hsafe2 as [Hnet Hkind]. split.
        -- intros Hn mode. rewrite lastMode_app. apply Hnet. exact Hn.
        -- destruct Hkind as [Hsdk|[Hout|Hnull]];
             [left; exact Hsdk| |right; right; exact Hnull].
           right. left. apply raisedOutside_app_r. exact Hout.
      * destruct Hend as (failed & rest' & during & Hk & Hq & Hfailed & Hdel2).
        exists failed, rest', during.
        split; [exact Hk|]. split; [exact Hq|]. split; [exact Hfailed|].
        rewrite deliveries_app, Hdel.
        destruct Hdel2 as [-> | ->]; [left|right]; reflexivity.
  - rewrite bind_modify. cbn [throw]. intros [= <- <-].
    exists [], (event :: rest), new.
    split; [reflexivity|].
    split; [cbn; f_equal; apply Heff|].
    split; [apply Heff|].
    split; [apply Heff|].
    split.
    { eapply Forall_impl; [exact Hbodies|]. intros b [= <-].
      exists event. split; [left; reflexivity|reflexivity]. }
    split; [exact Hsafe|].
    exists event, rest, g1.
    split; [reflexivity|]. split; [reflexivity|].
    split; [rewrite Hreplay; reflexivity|].
    destruct Hres as [Hdel|[Hdel _]]; [left|right]; exact Hdel.
  - destruct Hsafe.
Qed.

(** [flushOfflineQueue]: a no-op while offline; otherwise the loop with
    enough fuel, and the emptied queue persisted when it returns. *)
Lemma flushOfflineQueue_fifo g result g' :
  flushOfflineQueue g = (result, g') ->
  if isOffline g then result = Return tt /\ g' = g
  else
    exists sent kept new,
      offlineQueue g = sent ++ kept /\
      offlineQueue g' = kept /\
      trace g' = trace g ++ new /\
      Forall (fun b => exists event, In event (offlineQueue g) /\ b = replayBody event)
        (bodiesIn new) /\
      FailsSafely new result /\
      match result with
      | Return _ =>
          kept = [] /\ storedQueue g' = Some [] /\
          deliveries new = map replayBody sent
      | Throw e =>
          exists failed rest during,
            kept = failed :: rest /\ offlineQueue during = rest /\
            fst (replay failed during) = Throw e /\
            (deliveries new = map replayBody sent \/
             deliveries new = map replayBody (sent ++ [failed]))
      | Unfinished => False
      end.
Proof.
  unfold flushOfflineQueue. rewrite bind_gets.
  destruct (isOffline g) eqn:Hon.
  { intros [= <- <-]. split; reflexivity. }
  rewrite bind_gets. unfold bind.
  destruct (flushLoop (Datatypes.S (length (offlineQueue g))) g) as [[[]|e|] g1] eqn:Hloop;
    destruct (flushLoop_fifo _ _ _ _ Hon (Nat.lt_succ_diag_r _) Hloop)
      as (sent & kept & new & Hsplit & Hkept & Htrace & Hcfg & Hbodies & Hsafe & Hend);
    intros [= <- <-]; [| |contradiction].
  - exists sent, kept, new. destruct Hend as (Hk & _ & _ & Hdel).
    split; [exact Hsplit|]. split; [exact Hkept|]. split; [exact Htrace|].
    split; [exact Hbodies|]. split; [exact I|].
    split; [exact Hk|]. split; [|exact Hdel]. cbn. rewrite Hkept, Hk. reflexivity.
  - exists sent, kept, new.
    split; [exact Hsplit|]. split; [exact Hkept|]. split; [exact Htrace|].
    split; [exact Hbodies|]. split; [exact Hsafe|exact Hend].
Qed.

(** *** The audit log *)

Lemma spliceOldest_drop (log : list AuditRecord) :
  spliceOldest log = drop (length log - 500) log.
Proof.
  unfold spliceOldest. destruct (500 <? length log)%nat eqn:Hlong; [reflexivity|].
  apply Nat.ltb_ge in Hlong. replace (length log - 500)%nat with 0%nat by lia.
  reflexivity.
Qed.

Lemma spliceOldest_app (log more : list AuditRecord) :
  spliceOldest (spliceOldest log ++ more) = spliceOldest (log ++ more).
Proof.
  rewrite !spliceOldest_drop.
  destruct (Nat.le_gt_cases (length log) 500) as [Hshort|Hlong].
  - replace (length log - 500)%nat with 0%nat by lia. reflexivity.
  - rewrite !length_app, length_drop, !skipn_app, drop_drop, length_drop.
    f_equal; f_equal; lia.
Qed.

Lemma spliceOldest_last (log records : list AuditRecord) :
  (500 < length records)%nat ->
  spliceOldest (log ++ records) = drop (length records - 500) records.
Proof.
  intros Hlong. rewrite spliceOldest_drop, length_app, skipn_app.
  rewrite drop_ge by lia. cbn. f_equal. lia.
Qed.

Lemma appendAuditRecords_log records : forall g,
  truthy (enableAuditLog (config g)) = true ->
  exists g',
    appendAuditRecords records g = (Return tt, g') /\
    config g' = config g /\
    match records with
    | [] => g' = g
    | _ => auditLog g' = spliceOldest (auditLog g ++ records) /\
           storedAudit g' = Some (auditLog g')
    end.
Proof.
  induction records as [|record rest IH]; intros g Hon.
  - exists g. repeat split.
  - cbn [appendAuditRecords].
    rewrite (bind_Return _ _ _ _ _ (appendAuditRecord_enabled record g Hon)).
    set (g1 := withStoredAudit _ _).
    destruct (IH g1 Hon) as (g' & Hrun & Hcfg & Hlog).
    exists g'. split; [exact Hrun|]. split; [exact Hcfg|].
    destruct rest as [|next rest].
    + subst g'. split; reflexivity.
    + destruct Hlog as [Hlog Hstored]. split; [|exact Hstored].
      rewrite Hlog. unfold g1. cbn [auditLog withStoredAudit withAuditLog].
      rewrite spliceOldest_app, <- app_assoc. reflexivity.
Qed.

(** C9. With audit logging enabled, after more than 500 records were
    appended (to whatever the log held before) the log holds exactly the 500
    records appended last, in the order they were appended, oldest
    first, and that is what was persisted; of 600 appended records the last
    500 remain. *)
Theorem audit_log_keeps_last_500 g (records : list AuditRecord) :
  truthy (enableAuditLog (config g)) = true ->
  (500 < length records)%nat ->
  let g' := snd (appendAuditRecords records g) in
  fst (appendAuditRecords records g) = Return tt /\
  auditLog g' = drop (length records - 500) records /\
  length (auditLog g') = 500%nat /\
  storedAudit g' = Some (auditLog g') /\
  (length records = 600%nat -> auditLog g' = drop 100 records).
Proof.
  intros Hon Hlong g'.
  destruct (appendAuditRecords_log records g Hon) as (g1 & Hrun & _ & Hlog).
  subst g'. rewrite Hrun. cbn [fst snd].
  destruct records as [|record rest]; [cbn in Hlong; lia|].
  destruct Hlog as [Hlog Hstored].
  assert (Hlast : auditLog g1 = drop (length (record :: rest) - 500) (record :: rest)).
  { rewrite Hlog. apply spliceOldest_last. exact Hlong. }
  split; [reflexivity|]. split; [exact Hlast|].
  split; [rewrite Hlast, length_drop; lia|].
  split; [exact Hstored|].
  intros H600. rewrite Hlast, H600. reflexivity.
Qed.

(** C10. An [evaluate] call that is routed offline, because the instance
    is offline or the caller asked for it, leaves the audit log and its
    persisted copy as they were; on the online route a call that returns
    appends one record with action [evaluate] when audit logging is enabled,
    and a call that throws appends nothing. *)
Theorem offline_route_skips_audit p g :
  let result := fst (evaluate p g) in
  let g' := snd (evaluate p g) in
  if routedOffline g p then sameAudit g g'
  else
    match result with
    | Return _ =>
        if truthy (enableAuditLog (config g)) then
          exists record,
            action record = "evaluate" /\
            auditLog g' = spliceOldest (auditLog g ++ [record]) /\
            storedAudit g' = Some (auditLog g')
        else sameAudit g g'
    | _ => sameAudit g g'
    end.
Proof.
  cbv zeta. destruct (String.eqb_spec (policyId p) "") as [Hid|Hid].
  - rewrite (evaluate_missing_policy _ _ Hid). cbn [fst snd].
    destruct (routedOffline g p); apply sameAudit_refl.
  - destruct (routedOffline g p) eqn:Hroute.
    + rewrite (evaluate_offline _ _ Hid Hroute). cbn [fst snd]. repeat split.
    + destruct (evaluate p g) as [result g'] eqn:Heval.
      destruct (evaluate_online _ _ _ _ Hid Hroute Heval) as (new & _ & _ & Haudit).
      exact Haudit.
Qed.

(** *** The claims about the retry controller *)

Lemma requestWithRetry_since options g :
  let g' := snd (requestWithRetry options g) in
  let policy := retry (config g) in
  Effect g g' (since g g') /\
  ((retries policy + 1 <= 0 /\ since g g' = [] /\
    fst (requestWithRetry options g) =
      Throw (GovernorError (BaseGovernorError "unknown") "Unknown error")) \/
   (0 < retries policy + 1 /\
    RetryRun policy (retries policy + 1) (sentOptions options g) 0 (since g g')
      (fst (requestWithRetry options g)))).
Proof.
  cbv zeta. destruct (requestWithRetry_run options g) as (new & Heff & _ & Hcases).
  rewrite (Effect_since _ _ _ Heff). split; [exact Heff|exact Hcases].
Qed.


(** C4, as the code has it. With a retry count that is not negative, a call
    of the retry controller is a row of failed attempts and one closing
    attempt.  Every failed attempt of the row, whatever its error, is
    followed by a backoff delay and by another attempt; the kind of the
    error decides only whether the flag is set to offline in between: it is
    for a [NetworkError] and is left alone for everything else
    ([modeAfter]).  The call returns when the closing attempt succeeds, after
    at most [retries] failures; it throws when [retries] failed attempts were
    retried and the closing attempt, the last of the [retries + 1], failed
    as well, and what it throws is the error of this last attempt,
    unchanged.  The flag of the instance afterwards is the last one
    written. *)
Theorem every_failure_is_retried options g :
  0 <= retries (retry (config g)) ->
  let policy := retry (config g) in
  let o := sentOptions options g in
  let result := fst (requestWithRetry options g) in
  let g' := snd (requestWithRetry options g) in
  exists failures closing,
    Forall (fun failure => FailedAttempt o (fst failure) (snd failure)) failures /\
    since g g' = retriedFrom policy 0 failures ++ closing /\
    isOffline g' = lastMode (isOffline g) (since g g') /\
    match result with
    | Return response =>
        Z.of_nat (length failures) <= retries policy /\
        exists r, attemptResult o r = inl response /\
                  closing = [Requested o r; ModeSet false]
    | Throw e =>
        Z.of_nat (length failures) = retries policy /\
        exists evs, FailedAttempt o evs e /\ closing = evs ++ modeAfter e
    | Unfinished => False
    end.
Proof.
  intros Hretries. cbv zeta.
  destruct (requestWithRetry_since options g) as [Heff [(Hnone & _)|(_ & Hrun)]]; [lia|].
  destruct (RetryRun_attempts _ _ _ 0 _ _ Hrun) as (failures & closing & Hall & Hnew & Hend).
  exists failures, closing.
  split; [exact Hall|]. split; [exact Hnew|]. split; [apply Heff|].
  destruct (fst (requestWithRetry options g)) as [response|e|]; [| |exact Hend].
  - destruct Hend as [Hcount Hclosing]. split; [cbn in Hcount; lia|exact Hclosing].
  - destruct Hend as [Hcount Hclosing]. split; [cbn in Hcount; lia|exact Hclosing].
Qed.

(** *** The claims about the offline queue *)

(** One turn of the loop of [flushOfflineQueue]. *)
Lemma flushLoop_step fuel g event rest :
  offlineQueue g = event :: rest ->
  flushLoop (Datatypes.S fuel) g =
    match replay event (withOfflineQueue rest g) with
    | (Return _, g1) => flushLoop fuel g1
    | (Throw e, g1) => (Throw e, withOfflineQueue (event :: offlineQueue g1) g1)
    | (Unfinished, g1) => (Unfinished, g1)
    end.
Proof.
  intros Hqueue. cbn [flushLoop]. rewrite bind_gets, Hqueue, bind_modify.
  unfold bind at 1. unfold tryCatch.
  destruct (replay event (withOfflineQueue rest g)) as [[[]|e|] g1]; reflexivity.
Qed.

(** One turn of [flushOfflineQueue] on a connected instance: the head is
    taken off the queue and replayed.  When the replay returns, its body was
    delivered, the queue is the rest and the flush goes on from there; when
    it throws, the flush throws the same error with the head back in front
    of the rest. *)
Lemma flushOfflineQueue_step g event rest :
  isOffline g = false ->
  offlineQueue g = event :: rest ->
  match replay event (withOfflineQueue rest g) with
  | (Return _, g1) =>
      offlineQueue g1 = rest /\ isOffline g1 = false /\
      storedQueue g1 = storedQueue g /\
      Forall (fun b => b = replayBody event) (bodiesIn (since (withOfflineQueue rest g) g1)) /\
      deliveries (since (withOfflineQueue rest g) g1) = [replayBody event] /\
      flushOfflineQueue g = flushOfflineQueue g1
  | (Throw e, g1) =>
      offlineQueue g1 = rest /\
      storedQueue g1 = storedQueue g /\
      flushOfflineQueue g = (Throw e, withOfflineQueue (event :: rest) g1)
  | (Unfinished, _) => False
  end.
Proof.
  intros Hon Hqueue. set (popped := withOfflineQueue rest g).
  assert (Hon1 : isOffline popped = false) by exact Hon.
  assert (Hflush : flushOfflineQueue g =
            bind (flushLoop (Datatypes.S (Datatypes.S (length rest))))
              (fun _ => persistOfflineQueue) g).
  { unfold flushOfflineQueue. rewrite bind_gets, Hon, bind_gets, Hqueue. reflexivity. }
  destruct (replay event popped) as [[[]|e|] g1] eqn:Hreplay;
    destruct (replay_online _ _ _ _ Hon1 Hreplay) as (new & Heff & Hbodies & Hsafe & Hres).
  - destruct Hres as [Hdel Hmode].
    assert (Hq : offlineQueue g1 = rest) by apply Heff.
    assert (Hon2 : isOffline g1 = false).
    { destruct Heff as [_ Hm _ _ _]. rewrite Hm. apply Hmode. }
    rewrite (Effect_since _ _ _ Heff).
    split; [exact Hq|]. split; [exact Hon2|]. split; [apply Heff|].
    split; [eapply Forall_impl; [exact Hbodies|]; intros b [= ->]; reflexivity|].
    split; [exact Hdel|].
    rewrite Hflush. unfold bind at 1.
    rewrite (flushLoop_step _ _ _ _ Hqueue). fold popped. rewrite Hreplay.
    unfold flushOfflineQueue. rewrite bind_gets, Hon2, bind_gets, Hq. reflexivity.
  - assert (Hq : offlineQueue g1 = rest) by apply Heff.
    split; [exact Hq|]. split; [apply Heff|].
    rewrite Hflush. unfold bind at 1.
    rewrite (flushLoop_step _ _ _ _ Hqueue). fold popped. rewrite Hreplay, Hq.
    reflexivity.
  - destruct Hsafe.
Qed.

(** C2. [flushOfflineQueue] does nothing while the instance is offline, and
    on an empty queue it persists the empty queue and returns.  Otherwise it
    pops the head event and attempts its delivery: [evaluate] on the replay
    payload for an evaluation, [updatePolicies] on the list for a policy
    update.  When the attempt returns, the body of the event was delivered,
    the queue is the rest, and the flush continues with the next event: it
    is the flush of the instance the attempt left.  When the attempt throws,
    the flush stops and throws the same error, with the same event pushed
    back at the head of the queue before the rest.
    So for every queue and every pattern of failures the flush finishes; a
    prefix [sent] of the queue was delivered in queue order and the suffix
    [kept] stays in the queue in its order.  It returns only when every
    event was delivered, and then the empty queue is persisted.  When it
    throws, the deliveries made are those of [sent], followed at most by
    that of the failed event itself, which is the head of [kept]; never by
    one of a later event. *)
Theorem flush_is_fifo g :
  let result := fst (flushOfflineQueue g) in
  let g' := snd (flushOfflineQueue g) in
  if isOffline g then flushOfflineQueue g = (Return tt, g)
  else
    match offlineQueue g with
    | [] => flushOfflineQueue g = (Return tt, withStoredQueue (Some []) g)
    | event :: rest =>
        let popped := withOfflineQueue rest g in
        let attempt :=
          match event with
          | EvaluationEvent originalPayload _ =>
              bind (evaluate (replayPayload originalPayload)) (fun _ => ret tt)
          | PolicyUpdateEvent policies _ => updatePolicies policies
          end in
        match attempt popped with
        | (Return _, g1) =>
            offlineQueue g1 = rest /\ isOffline g1 = false /\
            deliveries (since popped g1) = [replayBody event] /\
            flushOfflineQueue g = flushOfflineQueue g1
        | (Throw e, g1) =>
            offlineQueue g1 = rest /\
            flushOfflineQueue g = (Throw e, withOfflineQueue (event :: rest) g1)
        | (Unfinished, _) => False
        end
    end /\
    exists sent kept,
      offlineQueue g = sent ++ kept /\
      offlineQueue g' = kept /\
      match result with
      | Return _ =>
          kept = [] /\ storedQueue g' = Some [] /\
          deliveries (since g g') = map replayBody sent
      | Throw e =>
          kept <> [] /\
          (deliveries (since g g') = map replayBody sent \/
           deliveries (since g g') = map replayBody (sent ++ take 1 kept))
      | Unfinished => False
      end.
Proof.
  cbv zeta. destruct (isOffline g) eqn:Hon.
  { unfold flushOfflineQueue. rewrite bind_gets, Hon. reflexivity. }
  split.
  - destruct (offlineQueue g) as [|event rest] eqn:Hqueue.
    + unfold flushOfflineQueue. rewrite bind_gets, Hon, bind_gets, Hqueue.
      unfold bind at 1. cbn [length flushLoop]. rewrite bind_gets, Hqueue. cbn [ret].
      unfold persistOfflineQueue, modify. rewrite Hqueue. reflexivity.
    + pose proof (flushOfflineQueue_step g event rest Hon Hqueue) as Hstep.
      change (match event with
              | EvaluationEvent originalPayload _ =>
                  bind (evaluate (replayPayload originalPayload)) (fun _ => ret tt)
              | PolicyUpdateEvent policies _ => updatePolicies policies
              end) with (replay event).
      destruct (replay event (withOfflineQueue rest g)) as [[[]|e|] g1];
        [|exact (conj (proj1 Hstep) (proj2 (proj2 Hstep)))|exact Hstep].
      destruct Hstep as (Hq & Hon1 & _ & _ & Hdel & Hflush).
      split; [exact Hq|]. split; [exact Hon1|]. split; [exact Hdel|exact Hflush].
  - destruct (flushOfflineQueue g) as [result g'] eqn:Hrun. cbn [fst snd].
    pose proof (flushOfflineQueue_fifo _ _ _ Hrun) as Hfifo. rewrite Hon in Hfifo.
    destruct Hfifo as (sent & kept & new & Hsplit & Hkept & Htrace & _ & _ & Hend).
    exists sent, kept.
    split; [exact Hsplit|]. split; [exact Hkept|].
    assert (Hsince : since g g' = new)
      by (unfold since; rewrite Htrace; apply drop_app_length).
    rewrite Hsince. destruct result as [[]|e|]; [exact Hend| |exact Hend].
    destruct Hend as (failed & rest & during & -> & _ & _ & Hdel).
    split; [discriminate|exact Hdel].
Qed.

Lemma replay_keeps_queue event g :
  isOffline g = false ->
  offlineQueue (snd (replay event g)) = offlineQueue g.
Proof.
  intros Hon. destruct (replay event g) as [result g'] eqn:Hrun.
  destruct (replay_online _ _ _ _ Hon Hrun) as (new & Heff & _). apply Heff.
Qed.

(** C1. When [evaluate] queues a payload, the stored event holds the
    payload as the caller passed it, offline option included.  When
    [flushOfflineQueue] finds this event at the head of the queue of a
    connected instance, it pops it and calls [evaluate] on the replay
    payload: the same payload with [options.offline] set to [false], or
    without options when the original had none.  That call is not routed
    offline.  When it returns, every body it sent and the one body it
    delivered is the replay payload, no event was added to the queue or to
    the stored queue, the instance is still connected, and the flush goes on
    with the rest of the queue.
    When it throws, the flush throws the same error and the stored event is
    back at the head of the queue as it was, its own option untouched. *)
Theorem replay_overrides_offline_option p g (createdAt : string)
  (queued : Governor.Governor S) (rest : list OfflineEvent) :
  policyId p <> "" ->
  routedOffline g p = true ->
  isOffline queued = false ->
  offlineQueue queued = EvaluationEvent p createdAt :: rest ->
  offlineQueue (snd (evaluate p g)) =
    offlineQueue g ++ [EvaluationEvent p (toISOString (clock g))] /\
  replayPayload p =
    mkEvaluationPayload (policyId p) (input p) (context p)
      ((fun given => mkPayloadOptions (Some false) (optAudit given)) <$> options p) /\
  let popped := withOfflineQueue rest queued in
  routedOffline popped (replayPayload p) = false /\
  match evaluate (replayPayload p) popped with
  | (Return _, g1) =>
      Forall (fun b => b = BodyEvaluation (replayPayload p)) (bodiesIn (since popped g1)) /\
      deliveries (since popped g1) = [BodyEvaluation (replayPayload p)] /\
      offlineQueue g1 = rest /\
      storedQueue g1 = storedQueue queued /\
      isOffline g1 = false /\
      flushOfflineQueue queued = flushOfflineQueue g1
  | (Throw e, g1) =>
      offlineQueue g1 = rest /\
      storedQueue g1 = storedQueue queued /\
      flushOfflineQueue queued =
        (Throw e, withOfflineQueue (EvaluationEvent p createdAt :: rest) g1)
  | (Unfinished, _) => False
  end.
Proof.
  intros Hid Hroute Hon Hqueue.
  split; [rewrite (evaluate_offline _ _ Hid Hroute); reflexivity|].
  split; [unfold replayPayload; destruct (options p); reflexivity|].
  cbv zeta.
  split; [unfold routedOffline; cbn [isOffline withOfflineQueue];
          rewrite Hon, replayPayload_not_offline; reflexivity|].
  pose proof (flushOfflineQueue_step queued _ rest Hon Hqueue) as Hstep.
  cbn [replay replayBody] in Hstep. unfold bind in Hstep.
  destruct (evaluate (replayPayload p) (withOfflineQueue rest queued)) as [[r|e|] g1].
  - destruct Hstep as (Hq & Hon1 & Hstored & Hbodies & Hdel & Hflush).
    split; [exact Hbodies|]. split; [exact Hdel|]. split; [exact Hq|].
    split; [exact Hstored|]. split; [exact Hon1|exact Hflush].
  - exact Hstep.
  - exact Hstep.
Qed.

(** *** The claim about the rulepack cache *)

Lemma append_inj_r (s a b : string) : s +:+ a = s +:+ b -> a = b.
Proof.
  induction s as [|c s IH]; cbn; [trivial|]. intros [= Heq]. exact (IH Heq).
Qed.

Lemma digest_not_empty (v : string) : String.eqb (hashString v) "" = false.
Proof.
  apply String.eqb_neq. intros Hempty.
  pose proof (hashString_length v) as Hlen. rewrite Hempty in Hlen. discriminate.
Qed.

(** C6. The cache key of a rulepack is the digest of [policyId:checksum].
    When two bundles of one policy with different checksums are cached one
    after the other, and the digest does not collide on the two strings, the
    keys differ and the in-process tier holds both bundles, each under its
    key: the first is still there. The index points the policy at the key of
    the second, and resolving the policy before the second entry expires
    returns the second bundle from the cache without any request. *)
Theorem rulepack_cache_is_content_addressed policyId (first second : Rulepack) g t1 t2 :
  policyId <> "" ->
  checksum first <> checksum second ->
  (hashString (policyId +:+ ":" +:+ checksum first) =
   hashString (policyId +:+ ":" +:+ checksum second) ->
   policyId +:+ ":" +:+ checksum first = policyId +:+ ":" +:+ checksum second) ->
  t2 < t1 + default (Z.max 1 (cacheTTL (config g) / 1000)) (ttlSeconds second) * 1000 ->
  let k1 := createRulepackCacheKey policyId (checksum first) in
  let k2 := createRulepackCacheKey policyId (checksum second) in
  let g1 := snd (cacheRulepack policyId first g) in
  let g2 := snd (cacheRulepack policyId second (withClock t1 g1)) in
  let g3 := withClock t2 g2 in
  k1 = hashString (policyId +:+ ":" +:+ checksum first) /\
  k2 = hashString (policyId +:+ ":" +:+ checksum second) /\
  k1 <> k2 /\
  value <$> Cache.memory (rulepackCache g2) !! k1 = Some first /\
  value <$> Cache.memory (rulepackCache g2) !! k2 = Some second /\
  rulepackIndex g2 !! policyId = Some k2 /\
  fst (loadRulepack policyId false g3) = Return (Some second) /\
  since g3 (snd (loadRulepack policyId false g3)) = [].
Proof.
  intros Hid Hsums Hcollision Hfresh k1 k2 g1 g2 g3.
  assert (Hkeys : k1 <> k2).
  { unfold k1, k2, createRulepackCacheKey. intros Heq.
    apply Hcollision in Heq. apply append_inj_r, append_inj_r in Heq. exact (Hsums Heq). }
  split; [reflexivity|]. split; [reflexivity|]. split; [exact Hkeys|].
  assert (Hm2 : Cache.memory (rulepackCache g2) !! k2 =
                Some (mkCacheEntry second
                        (Finite (t1 + default (Z.max 1 (cacheTTL (config g) / 1000))
                                        (ttlSeconds second) * 1000)))).
  { unfold g2, g1, cacheRulepack, now, bind, gets, modify. cbn.
    apply lookup_insert_eq. }
  assert (Hm1 : value <$> Cache.memory (rulepackCache g2) !! k1 = Some first).
  { unfold g2, g1, cacheRulepack, now, bind, gets, modify. cbn.
    rewrite lookup_insert_ne by (intros Heq; apply Hkeys; symmetry; exact Heq).
    fold k1. rewrite lookup_insert_eq. reflexivity. }
  assert (Hindex : rulepackIndex g2 !! policyId = Some k2).
  { unfold g2, g1, cacheRulepack, now, bind, gets, modify. cbn.
    apply lookup_insert_eq. }
  split; [exact Hm1|]. split; [rewrite Hm2; reflexivity|]. split; [exact Hindex|].
  assert (Hresolve : loadRulepack policyId false g3 =
            (Return (Some second),
             withRulepackCache
               (Cache.withMetrics (Cache.hit (Cache.metrics (rulepackCache g3)))
                  (rulepackCache g3)) g3)).
  { assert (Hcached : getCachedRulepack policyId g3 =
              (Return (Some second),
               withRulepackCache
                 (Cache.withMetrics (Cache.hit (Cache.metrics (rulepackCache g3)))
                    (rulepackCache g3)) g3)).
    { unfold getCachedRulepack, now. rewrite bind_gets.
      change (rulepackIndex g3) with (rulepackIndex g2). rewrite Hindex.
      unfold k2 at 1, createRulepackCacheKey. rewrite digest_not_empty.
      fold (createRulepackCacheKey policyId (checksum second)). fold k2.
      rewrite bind_gets.
      rewrite (get_memoryHit k2 (clock g3) (rulepackCache g3) _ Hm2).
      - reflexivity.
      - unfold Cache.isExpired. cbn. apply Z.leb_gt. exact Hfresh. }
    unfold loadRulepack. apply String.eqb_neq in Hid. rewrite Hid.
    rewrite (bind_Return _ _ _ _ _ Hcached). reflexivity. }
  rewrite Hresolve. cbn [fst snd]. split; [reflexivity|].
  unfold since. cbn. apply drop_all.
Qed.

End GovernorProperties.

(** ** The properties on the scenarios *)

(** Queue FIFO under failure: with E1, E2, E3 queued and the delivery of E1
    failing once, the first flush throws and leaves E1, E2, E3 queued; after
    reconnecting, the second flush delivers E1, E2, E3 in this order, E1 with
    its offline option overridden. *)
Example flush_resumes_in_order :
  fst Scenario.firstFlush = Governor.Throw (GovernorError NetworkError "HTTP 503: down") /\
  Governor.offlineQueue (snd Scenario.firstFlush) = [Scenario.E1; Scenario.E2; Scenario.E3] /\
  Governor.deliveries (runtime := Scenario.shaky)
    (Governor.since Scenario.threeQueued (snd Scenario.firstFlush)) = [] /\
  fst Scenario.secondFlush = Governor.Return tt /\
  Governor.offlineQueue (snd Scenario.secondFlush) = [] /\
  Governor.deliveries (runtime := Scenario.shaky)
    (Governor.since (snd Scenario.firstFlush) (snd Scenario.secondFlush)) =
    [BodyEvaluation (Scenario.ask "hello" (Some (mkPayloadOptions (Some false) None)));
     BodyPolicies [mkPolicyDefinition "p1" "2" []];
     BodyEvaluation (Scenario.ask "bye" None)].
Proof. vm_compute. repeat split. Qed.

(** At least once, not exactly once: when the service answers an
    evaluation with [null], the request has reached it, yet the replay
    throws and the event stays at the head of the queue. *)
Example null_answer_keeps_event_queued :
  fst (Governor.flushOfflineQueue (runtime := Scenario.blank) Scenario.threeQueued)
    = Governor.Throw
        (Foreign "TypeError" "Cannot read properties of null (reading 'metadata')") /\
  Governor.offlineQueue
    (snd (Governor.flushOfflineQueue (runtime := Scenario.blank) Scenario.threeQueued))
    = [Scenario.E1; Scenario.E2; Scenario.E3] /\
  Governor.deliveries (runtime := Scenario.blank)
    (Governor.since Scenario.threeQueued
       (snd (Governor.flushOfflineQueue (runtime := Scenario.blank) Scenario.threeQueued)))
    = [BodyEvaluation (Scenario.ask "hello" (Some (mkPayloadOptions (Some false) None)))].
Proof. vm_compute. repeat split. Qed.

Lemma replay_overrides_offline_option_witness :
  let replayed := Scenario.ask "hello" (Some (mkPayloadOptions (Some false) None)) in
  let popped := Governor.withOfflineQueue [] Scenario.queuedOnce in
  let g1 := snd (Governor.evaluate (runtime := Scenario.up) replayed popped) in
  policyId Scenario.offlineAsk <> "" /\
  Governor.routedOffline Scenario.fresh Scenario.offlineAsk = true /\
  Governor.isOffline Scenario.queuedOnce = false /\
  Governor.offlineQueue Scenario.queuedOnce = [EvaluationEvent Scenario.offlineAsk "1000"] /\
  Governor.replayPayload Scenario.offlineAsk = replayed /\
  Governor.deliveries (runtime := Scenario.up) (Governor.since popped g1)
    = [BodyEvaluation replayed] /\
  Governor.offlineQueue g1 = [] /\
  Governor.flushOfflineQueue (runtime := Scenario.up) Scenario.queuedOnce
    = Governor.flushOfflineQueue (runtime := Scenario.up) g1.
Proof.
  cbv zeta.
  assert (H1 : policyId Scenario.offlineAsk <> "") by (vm_compute; discriminate).
  assert (H2 : Governor.routedOffline Scenario.fresh Scenario.offlineAsk = true)
    by (vm_compute; reflexivity).
  assert (H3 : Governor.isOffline Scenario.queuedOnce = false)
    by (vm_compute; reflexivity).
  assert (H4 : Governor.offlineQueue Scenario.queuedOnce
               = [EvaluationEvent Scenario.offlineAsk "1000"])
    by (vm_compute; reflexivity).
  destruct (replay_overrides_offline_option (runtime := Scenario.up)
              Scenario.offlineAsk Scenario.fresh "1000" Scenario.queuedOnce [] H1 H2 H3 H4)
    as (_ & Hpayload & _ & Hstep).
  change (Governor.replayPayload Scenario.offlineAsk)
    with (Scenario.ask "hello" (Some (mkPayloadOptions (Some false) None))) in *.
  split; [exact H1|]. split; [exact H2|]. split; [exact H3|]. split; [exact H4|].
  split; [reflexivity|].
  destruct (Governor.evaluate (runtime := Scenario.up)
              (Scenario.ask "hello" (Some (mkPayloadOptions (Some false) None)))
              (Governor.withOfflineQueue [] Scenario.queuedOnce))
    as [[r|e|] g1] eqn:Hrun;
    [|vm_compute in Hrun; discriminate|destruct Hstep].
  destruct Hstep as (_ & Hdel & Hq & _ & _ & Hflush). cbn [snd].
  split; [exact Hdel|]. split; [exact Hq|exact Hflush].
Defined.

(** C3. The failing input: a connected instance with the default
    configuration and a transport that refuses the connection, so that
    [fetch] rejects every request with its own [TypeError].  [evaluate]
    makes its four attempts and throws this exception.  [httpRequest] passed
    it on as it was, it is no [NetworkError], and so the retry controller
    never writes the flag: the instance is still connected, and the next
    [evaluate], without an offline option, goes to the service again in four
    more requests; nothing is queued.
    Where the service answers 503 instead, [httpRequest] throws a
    [NetworkError], the instance is offline after the call, and the next
    [evaluate] is queued without a request. *)
Theorem refused_connection_leaves_the_instance_connected :
  let first :=
    Governor.evaluate (runtime := Scenario.cut) (Scenario.ask "hello" None) Scenario.fresh in
  let second :=
    Governor.evaluate (runtime := Scenario.cut) (Scenario.ask "again" None) (snd first) in
  let first503 :=
    Governor.evaluate (runtime := Scenario.down) (Scenario.ask "hello" None) Scenario.fresh in
  let second503 :=
    Governor.evaluate (runtime := Scenario.down) (Scenario.ask "again" None) (snd first503) in
  (Governor.routedOffline Scenario.fresh (Scenario.ask "hello" None) = false /\
   fst first = Governor.Throw (Foreign "TypeError" "fetch failed") /\
   instanceofNetworkError (Foreign "TypeError" "fetch failed") = false /\
   Governor.requestsIn (Governor.since Scenario.fresh (snd first)) = 4%nat /\
   (forall mode, Governor.lastMode mode (Governor.since Scenario.fresh (snd first)) = mode) /\
   Governor.isOffline (snd first) = false /\
   Governor.routedOffline (snd first) (Scenario.ask "again" None) = false /\
   Governor.requestsIn (Governor.since (snd first) (snd second)) = 4%nat /\
   Governor.offlineQueue (snd second) = []) /\
  (fst first503 = Governor.Throw (GovernorError NetworkError "HTTP 503: down") /\
   Governor.isOffline (snd first503) = true /\
   Governor.since (snd first503) (snd second503) = [] /\
   Governor.offlineQueue (snd second503)
     = [EvaluationEvent (Scenario.ask "again" None)
          (toISOString (Runtime := Scenario.down) (Governor.clock (snd first503)))]).
Proof.
  cbv zeta. split.
  - split; [vm_compute; reflexivity|]. split; [vm_compute; reflexivity|].
    split; [reflexivity|]. split; [vm_compute; reflexivity|].
    split; [intros mode; vm_compute; reflexivity|].
    split; [vm_compute; reflexivity|]. split; [vm_compute; reflexivity|].
    split; vm_compute; reflexivity.
  - split; [vm_compute; reflexivity|]. split; [vm_compute; reflexivity|].
    split; vm_compute; reflexivity.
Qed.

(** Counterexample to C4. The service answers 200 with a body that is not
    JSON: the error of the attempt is the decoder's [SyntaxError], which has
    no [code], so it is neither a [network_error] nor a [timeout_error]; yet
    the controller does not let it through on its first occurrence but makes
    all four attempts, with the three backoff delays between them. *)
Lemma other_kinds_are_retried_too :
  fst (Governor.requestWithRetry (runtime := Scenario.noisy) Scenario.ping Scenario.fresh)
    = Governor.Throw (Foreign "SyntaxError" "Unexpected token <") /\
  code (Foreign "SyntaxError" "Unexpected token <") = None /\
  Governor.requestsIn
    (Governor.since Scenario.fresh
       (snd (Governor.requestWithRetry (runtime := Scenario.noisy) Scenario.ping
               Scenario.fresh))) = 4%nat /\
  Governor.delaysIn
    (Governor.since Scenario.fresh
       (snd (Governor.requestWithRetry (runtime := Scenario.noisy) Scenario.ping
               Scenario.fresh))) = [250; 500; 1000].
Proof. vm_compute. repeat split. Qed.

(** The first request is answered with 503, the three retries are refused.
    The call throws the [TypeError] of the last attempt, not the
    [NetworkError] of the first; the flag was set after the first attempt
    only, and stays. *)
Lemma every_failure_is_retried_witness :
  let run :=
    Governor.requestWithRetry (runtime := Cases.failing) Scenario.ping Scenario.fresh in
  let o := Governor.sentOptions Scenario.ping Scenario.fresh in
  let policy := retry (Governor.config Scenario.fresh) in
  0 <= retries policy /\
  fst run = Governor.Throw (Foreign "TypeError" "fetch failed") /\
  Governor.since Scenario.fresh (snd run) =
    [World.Requested o (Scenario.unavailable [] o); World.ModeSet true;
     World.Delayed 250;
     World.Requested o (Scenario.refused [] o); World.Delayed 500;
     World.Requested o (Scenario.refused [] o); World.Delayed 1000;
     World.Requested o (Scenario.refused [] o)] /\
  Governor.isOffline (snd run) = true /\
  exists failures closing,
    Forall (fun failure =>
              Governor.FailedAttempt (runtime := Cases.failing) o (fst failure) (snd failure))
      failures /\
    Governor.since Scenario.fresh (snd run)
      = Governor.retriedFrom policy 0 failures ++ closing /\
    Z.of_nat (length failures) = retries policy /\
    exists evs,
      Governor.FailedAttempt (runtime := Cases.failing) o evs
        (Foreign "TypeError" "fetch failed") /\
      closing = evs ++ Governor.modeAfter (Foreign "TypeError" "fetch failed").
Proof.
  cbv zeta.
  assert (H1 : 0 <= retries (retry (Governor.config Scenario.fresh)))
    by (vm_compute; discriminate).
  assert (H2 : fst (Governor.requestWithRetry (runtime := Cases.failing) Scenario.ping
                      Scenario.fresh)
               = Governor.Throw (Foreign "TypeError" "fetch failed"))
    by (vm_compute; reflexivity).
  split; [exact H1|]. split; [exact H2|].
  split; [vm_compute; reflexivity|].
  destruct (every_failure_is_retried (runtime := Cases.failing) Scenario.ping
              Scenario.fresh H1) as (failures & closing & Hall & Hnew & Hmode & Hend).
  split; [rewrite Hmode; vm_compute; reflexivity|].
  rewrite H2 in Hend. destruct Hend as [Hcount Hclosing].
  exists failures, closing.
  split; [exact Hall|]. split; [exact Hnew|]. split; [exact Hcount|exact Hclosing].
Defined.


(** Two bundles of policy p1 with checksums c1 and c2, cached at times 1000
    and 2000 and resolved at time 3000. *)
Lemma rulepack_cache_is_content_addressed_witness :
  "p1" <> "" /\
  checksum (Scenario.bundle "c1") <> checksum (Scenario.bundle "c2") /\
  3000 < 2000 + default (Z.max 1 (cacheTTL (Governor.config Scenario.fresh) / 1000))
                  (ttlSeconds (Scenario.bundle "c2")) * 1000 /\
  Governor.createRulepackCacheKey (runtime := Scenario.up) "p1" "c1" <>
  Governor.createRulepackCacheKey (runtime := Scenario.up) "p1" "c2" /\
  fst (Governor.loadRulepack (runtime := Scenario.up) "p1" false
         (Governor.withClock 3000
            (snd (Governor.cacheRulepack (runtime := Scenario.up) "p1" (Scenario.bundle "c2")
                    (Governor.withClock 2000
                       (snd (Governor.cacheRulepack (runtime := Scenario.up) "p1"
                               (Scenario.bundle "c1") Scenario.fresh)))))))
    = Governor.Return (Some (Scenario.bundle "c2")).
Proof.
  assert (H1 : "p1" <> "") by discriminate.
  assert (H2 : checksum (Scenario.bundle "c1") <> checksum (Scenario.bundle "c2"))
    by (vm_compute; discriminate).
  assert (H3 : hashString (Runtime := Scenario.up) ("p1" +:+ ":" +:+ checksum (Scenario.bundle "c1")) =
               hashString (Runtime := Scenario.up) ("p1" +:+ ":" +:+ checksum (Scenario.bundle "c2")) ->
               "p1" +:+ ":" +:+ checksum (Scenario.bundle "c1") =
               "p1" +:+ ":" +:+ checksum (Scenario.bundle "c2"))
    by (intros Hsame; vm_compute in Hsame; discriminate).
  assert (H4 : 3000 < 2000 + default (Z.max 1 (cacheTTL (Governor.config Scenario.fresh) / 1000))
                              (ttlSeconds (Scenario.bundle "c2")) * 1000)
    by (vm_compute; reflexivity).
  destruct (rulepack_cache_is_content_addressed (runtime := Scenario.up) "p1"
              (Scenario.bundle "c1") (Scenario.bundle "c2") Scenario.fresh 2000 3000
              H1 H2 H3 H4)
    as (_ & _ & Hkeys & _ & _ & _ & Hresolve & _).
  split; [exact H1|]. split; [exact H2|]. split; [exact H4|].
  split; [exact Hkeys|exact Hresolve].
Defined.

(** C7. The failing input: a connected instance with the default
    configuration and a transport that refuses the connection, so that
    [fetch] rejects with its own [TypeError].  After four attempts
    [evaluate], [updatePolicies] and [loadRulepack] throw this very
    exception to the caller: it is none of the errors of the SDK and has no
    [code].
    Where the service answers 503, or does not answer within the timeout,
    the same calls throw a typed error, with code [network_error] and
    [timeout_error]. *)
Theorem transport_exception_escapes :
  let raw := Foreign "TypeError" "fetch failed" in
  (fst (Governor.evaluate (runtime := Scenario.cut) (Scenario.ask "hi" None) Scenario.fresh)
     = Governor.Throw raw /\
   fst (Governor.updatePolicies (runtime := Scenario.cut)
          [mkPolicyDefinition "p1" "2" []] Scenario.fresh)
     = Governor.Throw raw /\
   fst (Governor.loadRulepack (runtime := Scenario.cut) "p1" true Scenario.fresh)
     = Governor.Throw raw /\
   code raw = None /\
   instanceofError raw = true /\
   instanceofNetworkError raw = false) /\
  (exists typed,
     fst (Governor.evaluate (runtime := Scenario.down) (Scenario.ask "hi" None)
            Scenario.fresh) = Governor.Throw typed /\
     code typed = Some "network_error") /\
  (exists typed,
     fst (Governor.evaluate (runtime := Cases.slow) (Scenario.ask "hi" None)
            Scenario.fresh) = Governor.Throw typed /\
     code typed = Some "timeout_error").
Proof.
  cbv zeta. split; [|split].
  - vm_compute. repeat split.
  - eexists. split; vm_compute; reflexivity.
  - eexists. split; vm_compute; reflexivity.
Qed.

(** 600 records appended to an empty log: the records 100 to 599 remain. *)
Lemma audit_log_keeps_last_500_witness :
  Governor.truthy (enableAuditLog (Governor.config Scenario.fresh)) = true /\
  (500 < length Scenario.sixHundred)%nat /\
  Governor.auditLog (snd (Governor.appendAuditRecords Scenario.sixHundred Scenario.fresh))
    = drop 100 Scenario.sixHundred.
Proof.
  assert (H1 : Governor.truthy (enableAuditLog (Governor.config Scenario.fresh)) = true)
    by reflexivity.
  assert (H2 : (500 < length Scenario.sixHundred)%nat) by (vm_compute; lia).
  destruct (audit_log_keeps_last_500 Scenario.fresh Scenario.sixHundred H1 H2)
    as (_ & _ & _ & _ & H600).
  split; [exact H1|]. split; [exact H2|]. apply H600. vm_compute. reflexivity.
Defined.

(** * The Node storage driver across time, keys and processes *)

Section StorageProperties.
Context {V : Type}.
Implicit Types (s : Storage.NodeStorage V) (key : string) (v : V).

Lemma getPrefixedKey_inj (p k k' : string) :
  Storage.getPrefixedKey p k = Storage.getPrefixedKey p k' -> k = k'.
Proof.
  unfold Storage.getPrefixedKey. intros H.
  apply append_inj_r in H. apply append_inj_r in H. exact H.
Qed.

(** X1. An entry written with a time to live is read back by the Node
    driver exactly until its expiry time, that time included, in the process
    that wrote it and in a process started afterwards. *)
Theorem node_entry_lives_until_expiry s key v (ttl now later : Z) :
  let written := Storage.nodeSetItem key v (Some ttl) now s in
  let expected := if later <=? now + ttl then Some v else None in
  fst (Storage.nodeGetItem key later written) = expected /\
  fst (Storage.nodeGetItem key later (Listing.restart written)) = expected.
Proof.
  cbv zeta. unfold Storage.nodeGetItem, Storage.nodeSetItem, Listing.restart.
  cbn [Storage.prefix Storage.memoryStore Storage.files].
  rewrite !lookup_insert_eq, lookup_empty.
  cbn [Storage.isExpired Storage.serialize Storage.jsonRoundTrip expiresAt value
       negb fmap option_fmap option_map].
  destruct (Z.ltb_spec (now + ttl) later) as [Hlt|Hge];
    destruct (Z.leb_spec later (now + ttl)) as [Hle|Hgt]; try lia;
    cbn; split; reflexivity.
Qed.

(** X2. An entry written without a time to live is read back in the process
    that wrote it, but not in a process started afterwards: the file holds
    [null] for the infinite expiry time, the first read there takes the
    entry for expired, answers [undefined] and deletes the file. *)
Theorem node_entry_without_ttl_is_lost_by_restart s key v (now later : Z) :
  0 < later ->
  let written := Storage.nodeSetItem key v None now s in
  let namespaced := Storage.getPrefixedKey (Storage.prefix s) key in
  fst (Storage.nodeGetItem key later written) = Some v /\
  fst (Storage.nodeGetItem key later (Listing.restart written)) = None /\
  Storage.files (snd (Storage.nodeGetItem key later (Listing.restart written)))
    = delete namespaced (Storage.files s).
Proof.
  intros Hlater. cbv zeta.
  unfold Storage.nodeGetItem, Storage.nodeSetItem, Listing.restart.
  cbn [Storage.prefix Storage.memoryStore Storage.files].
  rewrite !lookup_insert_eq, lookup_empty.
  cbn [Storage.isExpired Storage.serialize Storage.jsonRoundTrip expiresAt value
       negb fmap option_fmap option_map].
  destruct (Z.ltb_spec 0 later) as [_|Hle]; [|lia].
  cbn. rewrite delete_insert_eq. repeat split.
Qed.

(** X3. Keys of the Node driver that hold no path separator do not disturb
    each other, in a store of such keys: reading a key gives the same after
    another key was written or removed; and a removed key reads as
    absent. *)
Theorem node_keys_are_independent s key key' v (ttl : option Z) (now t : Z) :
  Listing.plainStore s = true ->
  Listing.plainName (Storage.getPrefixedKey (Storage.prefix s) key) = true ->
  Listing.plainName (Storage.getPrefixedKey (Storage.prefix s) key') = true ->
  key' <> key ->
  fst (Storage.nodeGetItem key' t (Storage.nodeSetItem key v ttl now s))
    = fst (Storage.nodeGetItem key' t s) /\
  fst (Storage.nodeGetItem key' t (Storage.nodeRemoveItem key s))
    = fst (Storage.nodeGetItem key' t s) /\
  fst (Storage.nodeGetItem key t (Storage.nodeRemoveItem key s)) = None.
Proof.
  intros _ _ _ Hne.
  assert (Hk : Storage.getPrefixedKey (Storage.prefix s) key
               <> Storage.getPrefixedKey (Storage.prefix s) key').
  { intros Heq. apply getPrefixedKey_inj in Heq. congruence. }
  unfold Storage.nodeGetItem, Storage.nodeSetItem, Storage.nodeRemoveItem.
  cbn [Storage.prefix Storage.memoryStore Storage.files].
  rewrite !lookup_insert_ne, !lookup_delete_ne, !lookup_delete_eq by exact Hk.
  split; [|split].
  - destruct (negb (Storage.isExpired t (Storage.memoryStore s !! _))); [reflexivity|].
    destruct (Storage.isExpired t (Storage.files s !! _)); [reflexivity|].
    destruct (Storage.files s !! _); reflexivity.
  - destruct (negb (Storage.isExpired t (Storage.memoryStore s !! _))); [reflexivity|].
    destruct (Storage.isExpired t (Storage.files s !! _)); [reflexivity|].
    destruct (Storage.files s !! _); reflexivity.
  - reflexivity.
Qed.

End StorageProperties.

Lemma node_entry_without_ttl_is_lost_by_restart_witness :
  0 < 2000 /\
  fst (Storage.nodeGetItem "rulepack:k2" 2000 Cases.indexWritten)
    = Some (Scenario.bundle "c2") /\
  fst (Storage.nodeGetItem "rulepack:k2" 2000 (Listing.restart Cases.indexWritten))
    = None.
Proof.
  assert (H : 0 < 2000) by lia.
  destruct (node_entry_without_ttl_is_lost_by_restart Scenario.warmStore
              "rulepack:k2" (Scenario.bundle "c2") 1000 2000 H) as (Hsame & Hnew & _).
  split; [exact H|]. split; [exact Hsame|exact Hnew].
Defined.

Lemma node_keys_are_independent_witness :
  Listing.plainStore Scenario.warmStore = true /\
  Listing.plainName "aisentinel:rulepack:k2" = true /\
  Listing.plainName "aisentinel:rulepack:k1" = true /\
  "rulepack:k1" <> "rulepack:k2" /\
  fst (Storage.nodeGetItem "rulepack:k1" 2000 Cases.indexWritten)
    = Some (Scenario.bundle "c1").
Proof.
  assert (H0 : Listing.plainStore Scenario.warmStore = true) by (vm_compute; reflexivity).
  assert (H1 : Listing.plainName
                 (Storage.getPrefixedKey (Storage.prefix Scenario.warmStore) "rulepack:k2")
               = true) by (vm_compute; reflexivity).
  assert (H2 : Listing.plainName
                 (Storage.getPrefixedKey (Storage.prefix Scenario.warmStore) "rulepack:k1")
               = true) by (vm_compute; reflexivity).
  assert (H : "rulepack:k1" <> "rulepack:k2") by discriminate.
  destruct (node_keys_are_independent Scenario.warmStore "rulepack:k2" "rulepack:k1"
              (Scenario.bundle "c2") None 1000 2000 H0 H1 H2 H) as (Hset & _ & _).
  split; [exact H0|]. split; [exact H1|]. split; [exact H2|].
  split; [exact H|]. unfold Cases.indexWritten. rewrite Hset.
  vm_compute. reflexivity.
Defined.

(** * The cache over any driver *)

Section CacheCounting.
Context {S V : Type} {driver : StorageDriver S V}.
Implicit Types (c : Cache.CacheManager S V) (key : string) (v : V).

(** X4. What [set] stored is returned by [get] from the in-process tier
    until the entry expires: a hit is counted and neither the tiers nor the
    other counters change. *)
Theorem cache_set_then_get c key v (ttl : option Z) (now later : Z) :
  later < now + default (Cache.ttlMs c) ttl ->
  Cache.get key later (Cache.set key v ttl now c) =
    (Some v,
     Cache.withMetrics (Cache.hit (Cache.metrics c)) (Cache.set key v ttl now c)).
Proof.
  intros Hlater. unfold Cache.get, Cache.set.
  cbn [Cache.memory Cache.withStorage Cache.withMemory].
  rewrite lookup_insert_eq.
  cbn [Cache.isExpired expiresAt value].
  destruct (Z.leb_spec (now + default (Cache.ttlMs c) ttl) later) as [Hle|_]; [lia|].
  reflexivity.
Qed.

(** X5. Every [get] counts exactly once as a hit or as a miss: a hit when it
    returns a value, a miss when it returns [undefined].  [stale] grows by
    one exactly when the in-process tier held an expired entry for the
    key. *)
Theorem cache_get_counts_once c key (now : Z) :
  let result := fst (Cache.get key now c) in
  let before := Cache.metrics c in
  let after := Cache.metrics (snd (Cache.get key now c)) in
  hits after = hits before + match result with Some _ => 1 | None => 0 end /\
  misses after = misses before + match result with Some _ => 0 | None => 1 end /\
  stale after = stale before +
    match Cache.memory c !! key with
    | Some record => if Cache.isExpired now record then 1 else 0
    | None => 0
    end.
Proof.
  cbv zeta. unfold Cache.get.
  destruct (Cache.memory c !! key) as [record|] eqn:Hmem.
  - destruct (Cache.isExpired now record) eqn:Hexp; cbn [negb].
    + unfold Cache.getPersisted.
      cbn [Cache.storage Cache.withMemory Cache.withMetrics Cache.metrics Cache.memory
           Cache.ttlMs Cache.namespace Cache.storageKey].
      destruct (getItem _ now (Cache.storage c)) as [[v|] st];
        cbn [fst snd Cache.metrics Cache.withMemory Cache.withMetrics Cache.withStorage
             Cache.memory Cache.hit Cache.miss Cache.staled hits misses stale value];
        repeat split; lia.
    + cbn [fst snd Cache.metrics Cache.withMetrics Cache.memory Cache.hit hits misses stale].
      repeat split; lia.
  - unfold Cache.getPersisted.
    destruct (getItem _ now (Cache.storage c)) as [[v|] st];
      cbn [fst snd Cache.metrics Cache.withMemory Cache.withMetrics Cache.withStorage
           Cache.memory Cache.hit Cache.miss Cache.staled hits misses stale value];
      repeat split; lia.
Qed.

End CacheCounting.

Lemma cache_set_then_get_witness :
  1500 < 1000 + 60000 /\
  fst (Cache.get "k9" 1500
         (Cache.set "k9" (Scenario.bundle "c9") None 1000 Cases.ruleCache))
    = Some (Scenario.bundle "c9").
Proof.
  assert (H : 1500 < 1000 + default (Cache.ttlMs Cases.ruleCache) None)
    by (vm_compute; reflexivity).
  split; [lia|].
  rewrite (cache_set_then_get Cases.ruleCache "k9" (Scenario.bundle "c9") None
             1000 1500 H).
  reflexivity.
Defined.

(** * The cache over the Node driver *)

Section CacheOnNode.
Context {V : Type}.
Implicit Types (c : Cache.CacheManager (Storage.NodeStorage V) V) (key : string) (v : V).

(** X6. Over the Node driver a cached entry is served through its expiry
    time.  Before that time the in-process tier answers.  At that very time,
    the cache and the driver reading the same value of the clock, the
    in-process tier counts the entry as stale, the driver still holds it for
    valid, and the entry starts a new life of [ttlMs] in process.  After
    that time both tiers drop it and a miss is counted. *)
Theorem cache_entry_is_served_through_its_expiry_time c key v
  (ttl : option Z) (now later : Z) :
  let t := default (Cache.ttlMs c) ttl in
  let m := Cache.metrics c in
  let after := Cache.get key later (Cache.set key v ttl now c) in
  fst after = (if later <=? now + t then Some v else None) /\
  Cache.metrics (snd after) =
    (if later <? now + t then Cache.hit m
     else if later =? now + t then Cache.hit (Cache.staled m)
     else Cache.miss (Cache.staled m)) /\
  Cache.memory (snd after) !! key =
    (if later <? now + t then Some (mkCacheEntry v (Finite (now + t)))
     else if later =? now + t then Some (mkCacheEntry v (Finite (later + Cache.ttlMs c)))
     else None).
Proof.
  cbv zeta. set (t := default (Cache.ttlMs c) ttl).
  unfold Cache.get, Cache.set. fold t.
  cbn [Cache.memory Cache.withStorage Cache.withMemory].
  rewrite lookup_insert_eq. cbn [Cache.isExpired expiresAt value].
  destruct (Z.ltb_spec later (now + t)) as [Hlt|Hge].
  - destruct (Z.leb_spec (now + t) later); [lia|].
    destruct (Z.leb_spec later (now + t)); [|lia].
    cbn. rewrite lookup_insert_eq. repeat split.
  - destruct (Z.leb_spec (now + t) later); [|lia]. cbn [negb].
    unfold Cache.getPersisted.
    cbn [Cache.storage Cache.withMemory Cache.withMetrics Cache.metrics Cache.memory
         Cache.ttlMs Cache.namespace Cache.storageKey getItem setItem
         Storage.createNodeStorage].
    unfold Storage.nodeGetItem, Storage.nodeSetItem.
    cbn [Cache.storage Cache.withMemory Cache.withMetrics Cache.withStorage Cache.metrics
         Cache.memory Cache.ttlMs Cache.namespace Cache.storageKey
         Storage.prefix Storage.memoryStore Storage.files].
    rewrite !lookup_insert_eq.
    cbn [Storage.isExpired Storage.serialize Storage.jsonRoundTrip expiresAt value
         negb fmap option_fmap option_map].
    destruct (Z.eqb_spec later (now + t)) as [Heq|Hne].
    + destruct (Z.ltb_spec (now + t) later); [lia|].
      destruct (Z.leb_spec later (now + t)); [|lia].
      cbn. rewrite lookup_insert_eq. repeat split.
    + destruct (Z.ltb_spec (now + t) later); [|lia].
      destruct (Z.leb_spec later (now + t)); [lia|].
      cbn. rewrite lookup_delete_eq. repeat split.
Qed.

(** X7. After [delete] a [get] of the key is a miss, whatever the tiers
    held. *)
Theorem cache_delete_then_get c key (now : Z) :
  fst (Cache.get key now (Cache.delete key c)) = None /\
  Cache.metrics (snd (Cache.get key now (Cache.delete key c)))
    = Cache.miss (Cache.metrics c).
Proof.
  unfold Cache.get, Cache.delete.
  cbn [Cache.memory Cache.withStorage Cache.withMemory].
  rewrite lookup_delete_eq. unfold Cache.getPersisted.
  cbn [Cache.storage Cache.withMemory Cache.withMetrics Cache.withStorage Cache.metrics
       Cache.memory Cache.ttlMs Cache.namespace Cache.storageKey getItem removeItem
       Storage.createNodeStorage].
  unfold Storage.nodeGetItem, Storage.nodeRemoveItem.
  cbn [Cache.storage Cache.withMemory Cache.withMetrics Cache.withStorage Cache.metrics
       Cache.memory Cache.ttlMs Cache.namespace Cache.storageKey
       Storage.prefix Storage.memoryStore Storage.files].
  rewrite !lookup_delete_eq. cbn. split; reflexivity.
Qed.

End CacheOnNode.

(** * Listing and clearing *)

Lemma string_app_assoc (a b c : string) : (a +:+ b) +:+ c = a +:+ (b +:+ c).
Proof.
  induction a as [|x a IH]; [reflexivity|].
  change (String x ((a +:+ b) +:+ c) = String x (a +:+ (b +:+ c))).
  now rewrite IH.
Qed.

Lemma string_app_length (a b : string) :
  String.length (a +:+ b) = (String.length a + String.length b)%nat.
Proof.
  induction a as [|x a IH]; [reflexivity|].
  change (Datatypes.S (String.length (a +:+ b))
          = Datatypes.S (String.length a + String.length b)).
  now rewrite IH.
Qed.

Lemma prefix_app (a b : string) : String.prefix a (a +:+ b) = true.
Proof.
  induction a as [|x a IH]; [destruct b; reflexivity|].
  change (String.prefix (String x a) (String x (a +:+ b)) = true).
  cbn [String.prefix]. destruct (ascii_dec x x); [exact IH|congruence].
Qed.

Lemma prefix_split (a b : string) :
  String.prefix a b = true -> b = a +:+ Listing.skip (String.length a) b.
Proof.
  revert b. induction a as [|x a IH]; intros b H; [reflexivity|].
  destruct b as [|y b]; [discriminate|]. cbn [String.prefix] in H.
  destruct (ascii_dec x y) as [->|]; [|discriminate].
  change (String y b = String y (a +:+ Listing.skip (String.length a) b)).
  now rewrite <- IH.
Qed.

Lemma skip_app (a b : string) : Listing.skip (String.length a) (a +:+ b) = b.
Proof.
  induction a as [|x a IH]; [reflexivity|].
  change (Listing.skip (Datatypes.S (String.length a)) (String x (a +:+ b)) = b).
  exact IH.
Qed.

Lemma replaceFirst_eq (pattern replacement s : string) :
  Listing.replaceFirst pattern replacement s =
    if String.prefix pattern s then
      replacement +:+ Listing.skip (String.length pattern) s
    else
      match s with
      | EmptyString => EmptyString
      | String c rest => String c (Listing.replaceFirst pattern replacement rest)
      end.
Proof. destruct s; reflexivity. Qed.

Lemma replaceFirst_prefix (a b : string) : Listing.replaceFirst a "" (a +:+ b) = b.
Proof. rewrite replaceFirst_eq, prefix_app, skip_app. reflexivity. Qed.

Lemma stripJson_eq (s : string) :
  Listing.stripJson s =
    if String.eqb s ".json" then EmptyString
    else
      match s with
      | EmptyString => EmptyString
      | String c rest => String c (Listing.stripJson rest)
      end.
Proof. destruct s; reflexivity. Qed.

Lemma stripJson_app (a : string) : Listing.stripJson (a +:+ ".json") = a.
Proof.
  induction a as [|x a IH]; [reflexivity|].
  rewrite stripJson_eq.
  destruct (String.eqb_spec (String x a +:+ ".json") ".json") as [Heq|_].
  - apply (f_equal String.length) in Heq. rewrite string_app_length in Heq.
    cbn in Heq. lia.
  - change (String x (Listing.stripJson (a +:+ ".json")) = String x a).
    now rewrite IH.
Qed.

Section ClearProperties.
Context {V : Type}.
Implicit Types (s : Storage.NodeStorage V) (key fk : string).

Lemma removeAll_prefix listed s :
  Storage.prefix (Listing.removeAll listed s) = Storage.prefix s.
Proof.
  revert s. induction listed as [|k listed IH]; intros s; [reflexivity|].
  change (Listing.removeAll (k :: listed) s)
    with (Listing.removeAll listed (Storage.nodeRemoveItem k s)).
  now rewrite IH.
Qed.

Lemma removeAll_lookup listed s fk :
  Storage.files (Listing.removeAll listed s) !! fk =
    (if decide (fk ∈ Storage.getPrefixedKey (Storage.prefix s) <$> listed)
     then None else Storage.files s !! fk) /\
  Storage.memoryStore (Listing.removeAll listed s) !! fk =
    (if decide (fk ∈ Storage.getPrefixedKey (Storage.prefix s) <$> listed)
     then None else Storage.memoryStore s !! fk).
Proof.
  revert s. induction listed as [|k listed IH]; intros s.
  - cbn. rewrite decide_False by (intros H; inversion H). split; reflexivity.
  - change (Listing.removeAll (k :: listed) s)
      with (Listing.removeAll listed (Storage.nodeRemoveItem k s)).
    destruct (IH (Storage.nodeRemoveItem k s)) as [IHf IHm].
    rewrite IHf, IHm. unfold Storage.nodeRemoveItem.
    cbn [Storage.prefix Storage.files Storage.memoryStore].
    rewrite fmap_cons.
    set (p := Storage.getPrefixedKey (Storage.prefix s)).
    destruct (decide (fk ∈ p <$> listed)) as [Hin|Hout];
      destruct (decide (fk ∈ p k :: (p <$> listed))) as [Hin'|Hout'].
    + split; reflexivity.
    + exfalso. apply Hout'. right. exact Hin.
    + apply elem_of_cons in Hin' as [->|Hin']; [|contradiction].
      rewrite !lookup_delete_eq. split; reflexivity.
    + assert (p k <> fk) by (intros <-; apply Hout'; left).
      rewrite !lookup_delete_ne by assumption. split; reflexivity.
Qed.

Lemma file_name_split (p key : string) :
  Storage.getPrefixedKey p key +:+ ".json" = (p +:+ ":") +:+ (key +:+ ".json").
Proof.
  unfold Storage.getPrefixedKey. now rewrite !string_app_assoc.
Qed.

Lemma listed_name (p key : string) :
  Listing.stripJson
    (Listing.replaceFirst (p +:+ ":") "" (Storage.getPrefixedKey p key +:+ ".json"))
  = key.
Proof. rewrite file_name_split, replaceFirst_prefix. apply stripJson_app. Qed.

Lemma wellKeyed_spec s fk :
  Listing.wellKeyed s = true ->
  is_Some (Storage.files s !! fk) ->
  exists key, fk = Storage.getPrefixedKey (Storage.prefix s) key.
Proof.
  intros Hall [e He]. unfold Listing.wellKeyed in Hall.
  rewrite forallb_forall in Hall.
  specialize (Hall (fk, e)). cbn [fst] in Hall.
  apply prefix_split in Hall;
    [|apply list_elem_of_In, elem_of_map_to_list; exact He].
  exists (Listing.skip (String.length (Storage.prefix s +:+ ":")) fk).
  unfold Storage.getPrefixedKey. rewrite <- string_app_assoc. exact Hall.
Qed.

Lemma backed_spec s fk :
  Listing.backed s = true ->
  is_Some (Storage.memoryStore s !! fk) ->
  is_Some (Storage.files s !! fk).
Proof.
  intros Hall [e He]. unfold Listing.backed in Hall.
  rewrite forallb_forall in Hall.
  specialize (Hall (fk, e)). cbn [fst] in Hall.
  apply bool_decide_eq_true in Hall; [exact Hall|].
  apply list_elem_of_In, elem_of_map_to_list. exact He.
Qed.

Lemma wellKeyed_prefix s fk :
  Listing.wellKeyed s = true ->
  is_Some (Storage.files s !! fk) ->
  String.prefix (Storage.prefix s +:+ ":") fk = true.
Proof.
  intros Hall [e He]. unfold Listing.wellKeyed in Hall.
  rewrite forallb_forall in Hall.
  apply (Hall (fk, e)), list_elem_of_In, elem_of_map_to_list. exact He.
Qed.

Lemma wellKeyed_intro s :
  (forall fk, is_Some (Storage.files s !! fk) ->
     String.prefix (Storage.prefix s +:+ ":") fk = true) ->
  Listing.wellKeyed s = true.
Proof.
  intros H. unfold Listing.wellKeyed. apply forallb_forall. intros [fk e] Hin.
  apply list_elem_of_In, elem_of_map_to_list in Hin. apply H. eexists; exact Hin.
Qed.

Lemma backed_intro s :
  (forall fk, is_Some (Storage.memoryStore s !! fk) ->
     is_Some (Storage.files s !! fk)) ->
  Listing.backed s = true.
Proof.
  intros H. unfold Listing.backed. apply forallb_forall. intros [fk e] Hin.
  apply list_elem_of_In, elem_of_map_to_list in Hin.
  apply bool_decide_eq_true. apply H. eexists; exact Hin.
Qed.

Lemma inStep_insert s key (e e' : CacheEntry V) :
  Listing.inStep s ->
  Listing.inStep (Storage.mkNodeStorage (Storage.prefix s)
            (<[Storage.getPrefixedKey (Storage.prefix s) key := e]> (Storage.memoryStore s))
            (<[Storage.getPrefixedKey (Storage.prefix s) key := e']> (Storage.files s))).
Proof.
  intros [Hkeyed Hbacked]. split.
  - apply wellKeyed_intro. cbn [Storage.prefix Storage.files]. intros fk Hsome.
    destruct (decide (Storage.getPrefixedKey (Storage.prefix s) key = fk)) as [<-|Hne].
    + unfold Storage.getPrefixedKey. rewrite <- string_app_assoc. apply prefix_app.
    + rewrite lookup_insert_ne in Hsome by exact Hne.
      exact (wellKeyed_prefix s fk Hkeyed Hsome).
  - apply backed_intro. cbn [Storage.memoryStore Storage.files]. intros fk Hsome.
    destruct (decide (Storage.getPrefixedKey (Storage.prefix s) key = fk)) as [<-|Hne].
    + rewrite lookup_insert_eq. eexists; reflexivity.
    + rewrite lookup_insert_ne in Hsome |- * by exact Hne.
      exact (backed_spec s fk Hbacked Hsome).
Qed.

Lemma inStep_delete s fk0 :
  Listing.inStep s ->
  Listing.inStep (Storage.mkNodeStorage (Storage.prefix s)
            (delete fk0 (Storage.memoryStore s)) (delete fk0 (Storage.files s))).
Proof.
  intros [Hkeyed Hbacked]. split.
  - apply wellKeyed_intro. cbn [Storage.prefix Storage.files]. intros fk Hsome.
    destruct (decide (fk0 = fk)) as [<-|Hne].
    + rewrite lookup_delete_eq in Hsome. destruct Hsome; discriminate.
    + rewrite lookup_delete_ne in Hsome by exact Hne.
      exact (wellKeyed_prefix s fk Hkeyed Hsome).
  - apply backed_intro. cbn [Storage.memoryStore Storage.files]. intros fk Hsome.
    destruct (decide (fk0 = fk)) as [<-|Hne].
    + rewrite lookup_delete_eq in Hsome. destruct Hsome; discriminate.
    + rewrite lookup_delete_ne in Hsome |- * by exact Hne.
      exact (backed_spec s fk Hbacked Hsome).
Qed.

Lemma plainStore_spec s :
  Listing.plainStore s = true <->
  (forall fk, is_Some (Storage.memoryStore s !! fk) -> Listing.plainName fk = true) /\
  (forall fk, is_Some (Storage.files s !! fk) -> Listing.plainName fk = true).
Proof.
  unfold Listing.plainStore. rewrite andb_true_iff, !forallb_forall. split.
  - intros [Hm Hf]. split; intros fk [e He].
    + apply (Hm (fk, e)), list_elem_of_In, elem_of_map_to_list. exact He.
    + apply (Hf (fk, e)), list_elem_of_In, elem_of_map_to_list. exact He.
  - intros [Hm Hf]. split; intros [fk e] Hin;
      apply list_elem_of_In, elem_of_map_to_list in Hin.
    + apply Hm. eexists; exact Hin.
    + apply Hf. eexists; exact Hin.
Qed.

Lemma plainStore_insert s fk0 (e e' : CacheEntry V) :
  Listing.plainStore s = true ->
  Listing.plainName fk0 = true ->
  Listing.plainStore (Storage.mkNodeStorage (Storage.prefix s)
    (<[fk0 := e]> (Storage.memoryStore s)) (<[fk0 := e']> (Storage.files s))) = true.
Proof.
  intros Hplain Hname. apply plainStore_spec in Hplain as [Hm Hf].
  apply plainStore_spec. cbn [Storage.memoryStore Storage.files].
  split; intros fk Hsome; (destruct (decide (fk0 = fk)) as [<-|Hne]; [exact Hname|]);
    rewrite lookup_insert_ne in Hsome by exact Hne; [apply Hm|apply Hf]; exact Hsome.
Qed.

Lemma plainStore_delete s fk0 :
  Listing.plainStore s = true ->
  Listing.plainStore (Storage.mkNodeStorage (Storage.prefix s)
    (delete fk0 (Storage.memoryStore s)) (delete fk0 (Storage.files s))) = true.
Proof.
  intros Hplain. apply plainStore_spec in Hplain as [Hm Hf].
  apply plainStore_spec. cbn [Storage.memoryStore Storage.files].
  split; intros fk Hsome;
    (destruct (decide (fk0 = fk)) as [<-|Hne];
       [rewrite lookup_delete_eq in Hsome; destruct Hsome; discriminate|]);
    rewrite lookup_delete_ne in Hsome by exact Hne; [apply Hm|apply Hf]; exact Hsome.
Qed.

(** X8. The Node driver keeps its tiers in step, for keys that hold no path
    separator.  When both tiers hold plain names only, every file of the
    directory carries the prefix of the driver and every entry of the
    in-process map has a file, the same holds after [setItem], [getItem] and
    [removeItem] of such a key, and in a process started afterwards. *)
Theorem node_tiers_stay_in_step s key (v : V) (ttl : option Z) (now : Z) :
  Listing.plainStore s = true ->
  Listing.plainName (Storage.getPrefixedKey (Storage.prefix s) key) = true ->
  Listing.wellKeyed s = true ->
  Listing.backed s = true ->
  (Listing.plainStore (Storage.nodeSetItem key v ttl now s) = true /\
   Listing.inStep (Storage.nodeSetItem key v ttl now s)) /\
  (Listing.plainStore (snd (Storage.nodeGetItem key now s)) = true /\
   Listing.inStep (snd (Storage.nodeGetItem key now s))) /\
  (Listing.plainStore (Storage.nodeRemoveItem key s) = true /\
   Listing.inStep (Storage.nodeRemoveItem key s)) /\
  (Listing.plainStore (Listing.restart s) = true /\
   Listing.inStep (Listing.restart s)).
Proof.
  intros Hplain Hname Hkeyed Hbacked.
  assert (Hs : Listing.inStep s) by (split; assumption).
  split; [|split; [|split]].
  - split; [apply plainStore_insert; assumption|apply inStep_insert; exact Hs].
  - unfold Storage.nodeGetItem.
    destruct (negb (Storage.isExpired now (Storage.memoryStore s !! _)));
      [split; [exact Hplain|exact Hs]|].
    destruct (Storage.isExpired now (Storage.files s !! _)) eqn:Hexp.
    + split; [apply plainStore_delete; exact Hplain|apply inStep_delete; exact Hs].
    + destruct (Storage.files s !! Storage.getPrefixedKey (Storage.prefix s) key)
        as [p|] eqn:Hfile; [|split; [exact Hplain|exact Hs]].
      cbn [snd]. pose proof (inStep_insert s key p p Hs) as Hins.
      pose proof (plainStore_insert s _ p p Hplain Hname) as Hpl.
      rewrite (insert_id (Storage.files s) _ _ Hfile) in Hins, Hpl.
      split; [exact Hpl|exact Hins].
  - split; [apply plainStore_delete; exact Hplain|apply inStep_delete; exact Hs].
  - split.
    + apply plainStore_spec in Hplain as [_ Hf]. apply plainStore_spec.
      cbn [Listing.restart Storage.memoryStore Storage.files]. split; [|exact Hf].
      intros fk [e He]. rewrite lookup_empty in He. discriminate.
    + split; [exact Hkeyed|].
      apply backed_intro. cbn. intros fk [e He]. rewrite lookup_empty in He. discriminate.
Qed.

(** A stored key is listed when the name of its file passes the filter. *)
Lemma nodeKeys_lists namespace s key :
  is_Some (Storage.files s !! Storage.getPrefixedKey (Storage.prefix s) key) ->
  String.prefix (Listing.prefixFilter namespace s)
    (Storage.getPrefixedKey (Storage.prefix s) key +:+ ".json") = true ->
  key ∈ Listing.nodeKeys namespace s.
Proof.
  intros [e He] Hpass. unfold Listing.nodeKeys.
  apply list_elem_of_fmap.
  exists (Storage.getPrefixedKey (Storage.prefix s) key +:+ ".json").
  split; [symmetry; apply listed_name|].
  apply list_elem_of_In, filter_In. split; [|exact Hpass].
  apply list_elem_of_In. unfold Listing.readdir.
  apply list_elem_of_fmap.
  exists (Storage.getPrefixedKey (Storage.prefix s) key, e). split; [reflexivity|].
  apply elem_of_map_to_list. exact He.
Qed.

(** Nothing else is listed. *)
Lemma nodeKeys_only namespace s key :
  Listing.wellKeyed s = true ->
  key ∈ Listing.nodeKeys namespace s ->
  is_Some (Storage.files s !! Storage.getPrefixedKey (Storage.prefix s) key) /\
  String.prefix (Listing.prefixFilter namespace s)
    (Storage.getPrefixedKey (Storage.prefix s) key +:+ ".json") = true.
Proof.
  intros Hkeyed Hin. unfold Listing.nodeKeys in Hin.
  apply list_elem_of_fmap in Hin as (name & -> & Hname).
  apply list_elem_of_In, filter_In in Hname as [Hdir Hpass].
  apply list_elem_of_In in Hdir. unfold Listing.readdir in Hdir.
  apply list_elem_of_fmap in Hdir as ([fk e] & -> & Hfile).
  apply elem_of_map_to_list in Hfile. cbn [fst] in *.
  destruct (wellKeyed_spec _ fk Hkeyed) as [key0 ->]; [eexists; exact Hfile|].
  rewrite listed_name. split; [eexists; exact Hfile|exact Hpass].
Qed.

(** X9. [clear] of a cache over the Node driver deletes exactly the files
    whose name starts with [prefix:namespace].  The filter does not end the
    namespace with a colon, so the files of every namespace that begins with
    this one go as well; all other files stay. *)
Theorem cache_clear_removes_by_name_prefix
  (c : Cache.CacheManager (Storage.NodeStorage V) V) fk :
  Listing.wellKeyed (Cache.storage c) = true ->
  Storage.files (Cache.storage (Listing.clear c)) !! fk =
    if String.prefix
         (Listing.prefixFilter (Some (Cache.namespace c)) (Cache.storage c))
         (fk +:+ ".json")
    then None
    else Storage.files (Cache.storage c) !! fk.
Proof.
  intros Hkeyed. unfold Listing.clear.
  cbn [Cache.storage Cache.withStorage Cache.withMemory Cache.namespace Listing.keys
       Listing.nodeStorageKeys].
  set (s := Cache.storage c) in *. set (ns := Some (Cache.namespace c)).
  destruct (removeAll_lookup (Listing.nodeKeys ns s) s fk) as [-> _].
  destruct (decide (fk ∈ Storage.getPrefixedKey (Storage.prefix s)
                          <$> Listing.nodeKeys ns s)) as [Hin|Hout].
  - apply list_elem_of_fmap in Hin as (key & -> & Hkey).
    apply (nodeKeys_only ns s key Hkeyed) in Hkey as [_ ->]. reflexivity.
  - destruct (Storage.files s !! fk) as [e|] eqn:Hfile;
      [|destruct (String.prefix _ _); reflexivity].
    destruct (wellKeyed_spec _ fk Hkeyed) as [key ->]; [eexists; exact Hfile|].
    destruct (String.prefix (Listing.prefixFilter ns s)
                (Storage.getPrefixedKey (Storage.prefix s) key +:+ ".json")) eqn:Hpass;
      [|reflexivity].
    exfalso. apply Hout. apply list_elem_of_fmap. exists key. split; [reflexivity|].
    apply nodeKeys_lists; [eexists; exact Hfile|exact Hpass].
Qed.

Lemma own_file_passes (c : Cache.CacheManager (Storage.NodeStorage V) V) key :
  String.prefix
    (Listing.prefixFilter (Some (Cache.namespace c)) (Cache.storage c))
    (Storage.getPrefixedKey (Storage.prefix (Cache.storage c)) (Cache.storageKey c key)
     +:+ ".json") = true.
Proof.
  unfold Listing.prefixFilter, Cache.storageKey, Storage.getPrefixedKey.
  destruct (Cache.namespace c) as [|x ns].
  - set (p := Storage.prefix (Cache.storage c)).
    replace ((p +:+ ":" +:+ "" +:+ ":" +:+ key) +:+ ".json")
      with ((p +:+ ":") +:+ ("" +:+ ":" +:+ key +:+ ".json"))
      by (now rewrite !string_app_assoc).
    apply prefix_app.
  - set (n := String x ns). set (p := Storage.prefix (Cache.storage c)).
    replace ((p +:+ ":" +:+ n +:+ ":" +:+ key) +:+ ".json")
      with ((p +:+ ":" +:+ n) +:+ (":" +:+ key +:+ ".json"))
      by (now rewrite !string_app_assoc).
    apply prefix_app.
Qed.

(** X10. After [clear], a [get] of a key without a path separator is a
    miss, in a store of such keys, provided whatever the in-process map of
    the driver holds has a file. *)
Theorem cache_clear_then_get
  (c : Cache.CacheManager (Storage.NodeStorage V) V) key (now : Z) :
  Listing.plainStore (Cache.storage c) = true ->
  Listing.plainName
    (Storage.getPrefixedKey (Storage.prefix (Cache.storage c)) (Cache.storageKey c key))
    = true ->
  Listing.backed (Cache.storage c) = true ->
  fst (Cache.get key now (Listing.clear c)) = None /\
  Cache.metrics (snd (Cache.get key now (Listing.clear c)))
    = Cache.miss (Cache.metrics c).
Proof.
  intros _ _ Hbacked. unfold Cache.get, Listing.clear.
  cbn [Cache.memory Cache.withStorage Cache.withMemory].
  rewrite lookup_empty. unfold Cache.getPersisted.
  cbn [Cache.storage Cache.withMemory Cache.withMetrics Cache.withStorage Cache.metrics
       Cache.memory Cache.ttlMs Cache.namespace Cache.storageKey getItem Listing.keys
       Storage.createNodeStorage Listing.nodeStorageKeys].
  fold (Cache.storageKey c key).
  set (s := Cache.storage c) in *. set (ns := Some (Cache.namespace c)).
  unfold Storage.nodeGetItem.
  set (fk := Storage.getPrefixedKey
               (Storage.prefix (Listing.removeAll (Listing.nodeKeys ns s) s))
               (Cache.storageKey c key)).
  assert (Hfk : fk = Storage.getPrefixedKey (Storage.prefix s) (Cache.storageKey c key)).
  { unfold fk. now rewrite removeAll_prefix. }
  destruct (removeAll_lookup (Listing.nodeKeys ns s) s fk) as [Hf Hm].
  assert (Hgone : Storage.files (Listing.removeAll (Listing.nodeKeys ns s) s) !! fk = None
                  /\ Storage.memoryStore (Listing.removeAll (Listing.nodeKeys ns s) s) !! fk
                     = None).
  { rewrite Hf, Hm.
    destruct (decide (fk ∈ Storage.getPrefixedKey (Storage.prefix s)
                            <$> Listing.nodeKeys ns s)) as [Hin|Hout];
      [split; reflexivity|].
    assert (Hfile : Storage.files s !! fk = None).
    { destruct (Storage.files s !! fk) as [e|] eqn:Hfile; [|reflexivity].
      exfalso. apply Hout. apply list_elem_of_fmap.
      exists (Cache.storageKey c key). split; [exact Hfk|].
      apply nodeKeys_lists; [rewrite <- Hfk; eexists; exact Hfile|apply own_file_passes]. }
    split; [exact Hfile|].
    destruct (Storage.memoryStore s !! fk) as [e|] eqn:Hmem; [|reflexivity].
    destruct (backed_spec _ fk Hbacked) as [e' He']; [eexists; exact Hmem|]. congruence. }
  destruct Hgone as [Hfiles Hmemory]. unfold fk in Hfiles, Hmemory.
  change (Cache.storageKey (Cache.withStorage _ (Cache.withMemory ∅ c)) key)
    with (Cache.storageKey c key).
  rewrite Hfiles, Hmemory. cbn. split; reflexivity.
Qed.

End ClearProperties.

Lemma node_tiers_stay_in_step_witness :
  Listing.plainStore Scenario.warmStore = true /\
  Listing.plainName "aisentinel:rulepack:k2" = true /\
  Listing.wellKeyed Scenario.warmStore = true /\
  Listing.backed Scenario.warmStore = true /\
  Listing.plainStore Cases.indexWritten = true /\
  Listing.wellKeyed Cases.indexWritten = true /\
  Listing.backed Cases.indexWritten = true.
Proof.
  assert (H0 : Listing.plainStore Scenario.warmStore = true) by (vm_compute; reflexivity).
  assert (Hn : Listing.plainName
                 (Storage.getPrefixedKey (Storage.prefix Scenario.warmStore) "rulepack:k2")
               = true) by (vm_compute; reflexivity).
  assert (H1 : Listing.wellKeyed Scenario.warmStore = true) by (vm_compute; reflexivity).
  assert (H2 : Listing.backed Scenario.warmStore = true) by (vm_compute; reflexivity).
  destruct (node_tiers_stay_in_step Scenario.warmStore "rulepack:k2"
              (Scenario.bundle "c2") None 1000 H0 Hn H1 H2)
    as ((Hplain & Hkeyed & Hset) & _).
  split; [exact H0|]. split; [exact Hn|]. split; [exact H1|]. split; [exact H2|].
  split; [exact Hplain|]. split; [exact Hkeyed|exact Hset].
Defined.

Lemma cache_clear_removes_by_name_prefix_witness :
  Listing.wellKeyed Scenario.warmStore = true /\
  Storage.files Scenario.warmStore !! "aisentinel:rulepack:k1"
    = Some (mkCacheEntry (Scenario.bundle "c1") (Finite 5000)) /\
  Storage.files (Cache.storage (Listing.clear Cases.ruleCache))
    !! "aisentinel:rulepack:k1" = None.
Proof.
  assert (H : Listing.wellKeyed (Cache.storage Cases.ruleCache) = true)
    by (vm_compute; reflexivity).
  split; [exact H|]. split; [vm_compute; reflexivity|].
  rewrite (cache_clear_removes_by_name_prefix Cases.ruleCache
             "aisentinel:rulepack:k1" H).
  vm_compute. reflexivity.
Defined.

Lemma cache_clear_then_get_witness :
  Listing.plainStore Scenario.warmStore = true /\
  Listing.plainName "aisentinel:rulepack:k1" = true /\
  Listing.backed Scenario.warmStore = true /\
  fst (Cache.get "k1" 2000 Scenario.coldCache) = Some (Scenario.bundle "c1") /\
  fst (Cache.get "k1" 2000 (Listing.clear Scenario.coldCache)) = None.
Proof.
  assert (H0 : Listing.plainStore (Cache.storage Scenario.coldCache) = true)
    by (vm_compute; reflexivity).
  assert (Hn : Listing.plainName
                 (Storage.getPrefixedKey (Storage.prefix (Cache.storage Scenario.coldCache))
                    (Cache.storageKey Scenario.coldCache "k1")) = true)
    by (vm_compute; reflexivity).
  assert (H : Listing.backed (Cache.storage Scenario.coldCache) = true)
    by (vm_compute; reflexivity).
  split; [exact H0|]. split; [exact Hn|]. split; [exact H|].
  split; [vm_compute; reflexivity|].
  exact (proj1 (cache_clear_then_get Scenario.coldCache "k1" 2000 H0 Hn H)).
Defined.

(** * The retry controller: time and connectivity *)

Section CallProperties.
Context {S : Type} {driver : StorageDriver S Rulepack} {runtime : Runtime}.
Import Governor.
Implicit Types (g : Governor.Governor S) (o options : HttpRequestOptions).

(** X11. The backoff delays never shrink from one attempt to the next and
    never exceed [maxTimeoutMs], when the factor is at least 1 and the
    first delay is not negative. *)
Theorem backoff_grows_up_to_the_cap (policy : RetryOptions) (attempt : Z) :
  1 <= factor policy ->
  0 <= minTimeoutMs policy ->
  0 <= attempt ->
  backoffDelayMs attempt policy <= backoffDelayMs (attempt + 1) policy /\
  backoffDelayMs attempt policy <= maxTimeoutMs policy /\
  backoffDelayMs 0 policy = Z.min (maxTimeoutMs policy) (minTimeoutMs policy).
Proof.
  intros Hfactor Hmin Hattempt. unfold backoffDelayMs.
  assert (Hpow : 0 < factor policy ^ attempt) by (apply Z.pow_pos_nonneg; lia).
  assert (Hnext : factor policy ^ (attempt + 1) = factor policy * factor policy ^ attempt).
  { rewrite Z.pow_add_r by lia. rewrite Z.pow_1_r. ring. }
  split; [|split].
  - rewrite Hnext. apply Z.min_le_compat_l. nia.
  - apply Z.le_min_l.
  - rewrite Z.pow_0_r, Z.mul_1_r. reflexivity.
Qed.

Lemma raced_bound o r (limit : Z) :
  reqTimeoutMs o = Some limit -> 0 < limit ->
  0 <= Z.max 0 (snd (raced o r)) <= limit.
Proof.
  intros Ho Hlimit. unfold raced, withTimeout. rewrite Ho.
  change (default 10000 (Some limit)) with limit.
  destruct (Z.leb_spec limit 0); [lia|].
  destruct (Z.ltb_spec (elapsedMs r) limit); cbn [snd]; lia.
Qed.

Lemma backoff_bound (attempt : Z) (policy : RetryOptions) :
  0 <= Z.max 0 (backoffDelayMs attempt policy) <= Z.max 0 (maxTimeoutMs policy).
Proof. unfold backoffDelayMs. lia. Qed.

(** The clock during the loop of [requestWithRetry]. *)
Lemma retryLoop_clock options maxAttempts fuel : forall attempt lastError g,
  let limit := default (timeoutMs (config g)) (reqTimeoutMs options) in
  let pause := Z.max 0 (maxTimeoutMs (retry (config g))) in
  0 < limit ->
  let g' := snd (retryLoop fuel options maxAttempts attempt lastError g) in
  clock g <= clock g' /\
  clock g' <= clock g + Z.max 0 (maxAttempts - attempt) * limit
                      + Z.max 0 (maxAttempts - attempt - 1) * pause.
Proof.
  induction fuel as [|fuel IH]; intros attempt lastError g limit pause Hlimit g'.
  - subst g'. cbn. nia.
  - destruct (Z.ltb_spec attempt maxAttempts) as [Hlt|Hge].
    + subst g'. rewrite retryLoop_step by exact Hlt. rewrite httpRequest_eq.
      assert (Hsent : forall r,
                 0 <= Z.max 0 (snd (raced (sentOptions options g) r)) <= limit).
      { intros r. apply raced_bound; [reflexivity|exact Hlimit]. }
      pose proof (backoff_bound attempt (retry (config g))) as Hpause.
      fold pause in Hpause.
      destruct (hasFetch || negb isBrowser).
      * set (r := fetch (trace g) (sentOptions options g)).
        specialize (Hsent r).
        destruct (attemptResult (sentOptions options g) r) as [response|e].
        -- destruct g. cbn in *. nia.
        -- cbv zeta. destruct (attempt + 1 >=? maxAttempts) eqn:Hlast.
           ++ destruct g, (instanceofNetworkError e); cbn in *; nia.
           ++ rewrite Z.geb_leb in Hlast. apply Z.leb_gt in Hlast.
              match goal with
              | |- context [retryLoop fuel options maxAttempts (attempt + 1) (Some e) ?g3] =>
                  specialize (IH (attempt + 1) (Some e) g3)
              end.
              destruct g, (instanceofNetworkError e); cbn in *;
                specialize (IH Hlimit); nia.
      * cbv zeta. destruct (attempt + 1 >=? maxAttempts) eqn:Hlast.
        -- destruct g. cbn in *. nia.
        -- rewrite Z.geb_leb in Hlast. apply Z.leb_gt in Hlast.
           match goal with
           | |- context [retryLoop fuel options maxAttempts (attempt + 1) ?le ?g3] =>
               specialize (IH (attempt + 1) le g3)
           end.
           destruct g. cbn in *. specialize (IH Hlimit). nia.
    + subst g'. cbn [retryLoop].
      assert (Hno : (attempt <? maxAttempts) = false) by (apply Z.ltb_ge; exact Hge).
      rewrite Hno. cbn. nia.
Qed.

(** X12. The time a remote call spends in its attempts and its pauses is
    bounded.  With a positive timeout and a budget of [retries >= 0], the
    clock, which counts the race of every attempt against its timeout and
    every backoff pause, moves forward by at most [retries + 1] timeouts and
    [retries] pauses of [maxTimeoutMs]. *)
Theorem remote_call_takes_bounded_time options g :
  let policy := retry (config g) in
  let limit := default (timeoutMs (config g)) (reqTimeoutMs options) in
  0 <= retries policy ->
  0 < limit ->
  let g' := snd (requestWithRetry options g) in
  clock g <= clock g' /\
  clock g' <= clock g + (retries policy + 1) * limit
                      + retries policy * Z.max 0 (maxTimeoutMs policy).
Proof.
  intros policy limit Hretries Hlimit g'. subst g'.
  unfold requestWithRetry, bind, gets. fold policy.
  pose proof (retryLoop_clock options (retries policy + 1)
                (Datatypes.S (Z.to_nat (retries policy + 1))) 0 None g Hlimit) as H.
  cbv zeta in H. fold policy limit in H.
  replace (Z.max 0 (retries policy + 1 - 0)) with (retries policy + 1) in H by lia.
  replace (Z.max 0 (retries policy + 1 - 0 - 1)) with (retries policy) in H by lia.
  exact H.
Qed.

(** The flag during the loop of [requestWithRetry]. *)
Lemma retryLoop_flag options maxAttempts fuel : forall attempt lastError g,
  hasFetch || negb isBrowser = true ->
  let r := retryLoop fuel options maxAttempts attempt lastError g in
  exists new,
    trace (snd r) = trace g ++ new /\
    isOffline (snd r) =
      match fst r with
      | Return _ => false
      | _ => isOffline g || existsb Timing.networkFailure new
      end.
Proof.
  induction fuel as [|fuel IH]; intros attempt lastError g Hfetch r.
  - exists []. subst r. cbn. rewrite app_nil_r, orb_false_r. split; reflexivity.
  - destruct (Z.ltb_spec attempt maxAttempts) as [Hlt|Hge].
    + subst r. rewrite retryLoop_step by exact Hlt. rewrite httpRequest_eq, Hfetch.
      set (o := sentOptions options g). set (reply := fetch (trace g) o).
      destruct (attemptResult o reply) as [response|e] eqn:Hres.
      * exists [Requested o reply; ModeSet false]. destruct g. cbn.
        rewrite <- app_assoc. split; reflexivity.
      * assert (Hfailed : Timing.networkFailure (Requested o reply)
                          = instanceofNetworkError e).
        { cbn. rewrite Hres. reflexivity. }
        cbv zeta. destruct (attempt + 1 >=? maxAttempts) eqn:Hlast.
        -- exists (Requested o reply :: modeAfter e). unfold modeAfter.
           cbn [existsb]. rewrite Hfailed.
           destruct g, (instanceofNetworkError e); cbn;
             rewrite <- ?app_assoc, ?orb_true_r, ?orb_false_r; split; reflexivity.
        -- match goal with
           | |- context [retryLoop fuel options maxAttempts (attempt + 1) (Some e) ?g3] =>
               destruct (IH (attempt + 1) (Some e) g3 Hfetch) as (rest & Htrace & Hflag);
               set (next := retryLoop fuel options maxAttempts (attempt + 1) (Some e) g3) in *
           end.
           exists (Requested o reply :: modeAfter e
                   ++ Delayed (backoffDelayMs attempt (retry (config g))) :: rest).
           rewrite Htrace, Hflag. unfold modeAfter.
           cbn [existsb]. rewrite Hfailed.
           destruct g, (instanceofNetworkError e); cbn [app existsb];
             cbn -[next]; rewrite <- ?app_assoc; cbn [app];
             (split; [reflexivity|]);
             destruct (fst next); rewrite ?orb_true_r, ?orb_false_r; reflexivity.
    + exists []. subst r. cbn [retryLoop].
      assert (Hno : (attempt <? maxAttempts) = false) by (apply Z.ltb_ge; exact Hge).
      rewrite Hno. cbn. rewrite app_nil_r, orb_false_r. split; reflexivity.
Qed.

(** X13. The connectivity flag after a remote call, where a transport is
    there.  A call that returns leaves the instance connected.  A call that
    throws leaves it offline exactly when it was offline before or one of
    the attempts failed with a [NetworkError]: timeouts and rejections of
    the transport change nothing. *)
Theorem connectivity_after_a_remote_call options g :
  hasFetch || negb isBrowser = true ->
  let r := requestWithRetry options g in
  isOffline (snd r) =
    match fst r with
    | Return _ => false
    | _ => isOffline g || existsb Timing.networkFailure (since g (snd r))
    end.
Proof.
  intros Hfetch r. subst r. unfold requestWithRetry, bind, gets.
  destruct (retryLoop_flag options (retries (retry (config g)) + 1)
              (Datatypes.S (Z.to_nat (retries (retry (config g)) + 1))) 0 None g Hfetch)
    as (new & Htrace & Hflag).
  cbv zeta in Htrace, Hflag. unfold since. rewrite Htrace, drop_app_length.
  exact Hflag.
Qed.

(** X14. Without a budget no attempt is made: with [retries] below zero a
    remote call throws the error of code [unknown] at once, sends nothing
    and leaves the instance as it was. *)
Theorem no_budget_no_attempt options g :
  retries (retry (config g)) < 0 ->
  requestWithRetry options g =
    (Throw (GovernorError (BaseGovernorError "unknown") "Unknown error"), g).
Proof.
  intros Hneg. unfold requestWithRetry, bind, gets. cbn [retryLoop].
  assert (Hno : (0 <? retries (retry (config g)) + 1) = false) by (apply Z.ltb_ge; lia).
  rewrite Hno. reflexivity.
Qed.

End CallProperties.

Lemma backoff_grows_up_to_the_cap_witness :
  1 <= 2 /\ 0 <= 250 /\ 0 <= 3 /\
  Governor.backoffDelayMs 3 Config.DEFAULT_RETRY
    <= Governor.backoffDelayMs 4 Config.DEFAULT_RETRY <= 4000.
Proof.
  assert (H1 : 1 <= factor Config.DEFAULT_RETRY) by (vm_compute; discriminate).
  assert (H2 : 0 <= minTimeoutMs Config.DEFAULT_RETRY) by (vm_compute; discriminate).
  assert (H3 : 0 <= 3) by lia.
  assert (H4 : 0 <= 4) by lia.
  destruct (backoff_grows_up_to_the_cap Config.DEFAULT_RETRY 3 H1 H2 H3) as (Hgrow & _ & _).
  destruct (backoff_grows_up_to_the_cap Config.DEFAULT_RETRY 4 H1 H2 H4) as (_ & Hcap & _).
  repeat split; try lia; assumption.
Defined.

Lemma remote_call_takes_bounded_time_witness :
  let g' := snd (Governor.requestWithRetry (runtime := Cases.slow) Scenario.ping
                   Scenario.fresh) in
  0 <= 3 /\ 0 < 10000 /\
  1000 <= Governor.clock g' <= 1000 + (3 + 1) * 10000 + 3 * 4000.
Proof.
  assert (H1 : 0 <= retries (retry (Governor.config Scenario.fresh)))
    by (vm_compute; discriminate).
  assert (H2 : 0 < default (timeoutMs (Governor.config Scenario.fresh))
                     (reqTimeoutMs Scenario.ping)) by (vm_compute; reflexivity).
  pose proof (remote_call_takes_bounded_time (runtime := Cases.slow) Scenario.ping
                Scenario.fresh H1 H2) as H.
  cbv zeta. split; [lia|]. split; [lia|]. exact H.
Defined.

Lemma connectivity_after_a_remote_call_witness :
  let r := Governor.requestWithRetry (runtime := Cases.slow) Scenario.ping
             Scenario.fresh in
  hasFetch (Runtime := Cases.slow) || negb (isBrowser (Runtime := Cases.slow)) = true /\
  fst r = Governor.Throw
            (GovernorError TimeoutError
               "Request to https://api.aisentinel.ai/v1/policies/updates timed out") /\
  Governor.isOffline (snd r) = false.
Proof.
  assert (H : hasFetch (Runtime := Cases.slow) || negb (isBrowser (Runtime := Cases.slow))
              = true) by reflexivity.
  cbv zeta. split; [exact H|]. split; [vm_compute; reflexivity|].
  rewrite (connectivity_after_a_remote_call (runtime := Cases.slow) Scenario.ping
             Scenario.fresh H).
  vm_compute. reflexivity.
Defined.

Lemma no_budget_no_attempt_witness :
  -1 < 0 /\
  Governor.requestWithRetry (runtime := Scenario.up) Scenario.ping Cases.noBudget =
    (Governor.Throw (GovernorError (BaseGovernorError "unknown") "Unknown error"),
     Cases.noBudget).
Proof.
  assert (H : retries (retry (Governor.config Cases.noBudget)) < 0)
    by (vm_compute; reflexivity).
  split; [lia|].
  exact (no_budget_no_attempt (runtime := Scenario.up) Scenario.ping Cases.noBudget H).
Defined.

(** * The Governor: loading, evaluating and flushing *)

Section RouteProperties.
Context {S : Type} {driver : StorageDriver S Rulepack} {runtime : Runtime}.
Import Governor.
Implicit Types (g : Governor.Governor S) (o options : HttpRequestOptions).
Implicit Types (p payload : EvaluationPayload).

Lemma since_same g : since g g = [].
Proof. unfold since. apply drop_all. Qed.

(** X15. While the instance is offline [loadRulepack] sends nothing.  It
    answers from the cache; with [forceRefresh] it does not even look there
    and answers [undefined], whatever the cache holds. *)
Theorem offline_load_sends_nothing (policyId : string) (forceRefresh : bool) g :
  policyId <> "" ->
  isOffline g = true ->
  loadRulepack policyId forceRefresh g =
    (if forceRefresh then (Return None, g) else getCachedRulepack policyId g) /\
  since g (snd (loadRulepack policyId forceRefresh g)) = [].
Proof.
  intros Hid Hoff. unfold loadRulepack.
  apply String.eqb_neq in Hid. rewrite Hid.
  destruct forceRefresh.
  - rewrite bind_ret, bind_gets, Hoff. cbn [ret snd]. split; [reflexivity|apply since_same].
  - destruct (getCachedRulepack_silent policyId g) as (found & g1 & Hget & Heff & _).
    rewrite (bind_Return _ _ _ _ _ Hget), Hget.
    assert (Hoff1 : isOffline g1 = true).
    { destruct Heff as [_ Hmode _ _ _]. rewrite Hmode. exact Hoff. }
    destruct found as [rulepack|].
    + cbn [ret snd]. split; [reflexivity|exact (Effect_since _ _ _ Heff)].
    + rewrite bind_gets, Hoff1. cbn [ret snd].
      split; [reflexivity|exact (Effect_since _ _ _ Heff)].
Qed.

(** The requests of a call of [requestWithRetry] all carry the options of
    the call. *)
Lemma requestWithRetry_options options g result g' :
  requestWithRetry options g = (result, g') ->
  exists new,
    Effect g g' new /\ sameInstance g g' /\
    forall o r, In (Requested o r) new -> o = sentOptions options g.
Proof.
  intros Hreq.
  destruct (requestWithRetry_run options g) as (new & Heff & Hsame & Hcases).
  rewrite Hreq in Heff, Hsame, Hcases. cbn [fst snd] in *.
  exists new. split; [exact Heff|]. split; [exact Hsame|].
  destruct Hcases as [(_ & -> & _)|(_ & Hrun)]; [intros o r []|].
  exact (RetryRun_options _ _ _ _ _ _ Hrun).
Qed.

Lemma evaluate_cached p g rulepack g1 result g' :
  policyId p <> "" ->
  routedOffline g p = false ->
  getCachedRulepack (policyId p) g = (Return (Some rulepack), g1) ->
  evaluate p g = (result, g') ->
  exists new,
    trace g' = trace g ++ new /\
    forall o r, In (Requested o r) new ->
      method o = Some POST /\ body o = Some (BodyEvaluation p).
Proof.
  intros Hid Hon Hget. unfold evaluate.
  apply String.eqb_neq in Hid. rewrite Hid.
  unfold bind at 1. cbn [gets]. rewrite Hon.
  destruct (getCachedRulepack_silent (policyId p) g) as (found & g1' & Hget' & Heff1 & _).
  rewrite Hget in Hget'. injection Hget' as <- <-.
  assert (Hensure : ensureRulepackCached (policyId p) g = (Return tt, g1)).
  { unfold ensureRulepackCached. rewrite (bind_Return _ _ _ _ _ Hget). reflexivity. }
  rewrite (bind_Return _ _ _ _ _ Hensure).
  destruct (createHeaders_pure g1) as [hs Hhs].
  rewrite (bind_Return _ _ _ _ _ Hhs). rewrite !bind_gets.
  match goal with
  | |- context [bind (requestWithRetry ?o) _ g1] => set (options := o)
  end.
  destruct (requestWithRetry options g1) as [[response|e|] g2] eqn:Hreq;
    destruct (requestWithRetry_options _ _ _ _ Hreq) as (new & Heff & Hsame & Hopts).
  - rewrite (bind_Return _ _ _ _ _ Hreq).
    assert (Hshape : forall g3, trace g3 = trace g2 ->
              exists new0, trace g3 = trace g ++ new0 /\
                forall o r, In (Requested o r) new0 ->
                  method o = Some POST /\ body o = Some (BodyEvaluation p)).
    { intros g3 Htrace. exists new. split.
      - rewrite Htrace. destruct Heff as [-> _ _ _ _]. destruct Heff1 as [-> _ _ _ _].
        rewrite app_nil_r. reflexivity.
      - intros o r Hin. rewrite (Hopts o r Hin). split; reflexivity. }
    destruct (asEvaluationResult (data response)) as [received|e].
    + cbn [liftFallible]. rewrite bind_ret, !bind_gets.
      destruct (truthy (enableAuditLog (config g2))) eqn:Henabled.
      * cbv [bind randomId now gets modify ret].
        rewrite appendAuditRecord_enabled by exact Henabled.
        intros [= <- <-]. apply Hshape. reflexivity.
      * rewrite !bind_ret. cbn [ret]. intros [= <- <-]. apply Hshape. reflexivity.
    + cbn [liftFallible]. rewrite bind_throw. intros [= <- <-]. apply Hshape. reflexivity.
  - rewrite (bind_Throw _ _ _ _ _ Hreq). intros [= <- <-]. exists new. split.
    + destruct Heff as [-> _ _ _ _]. destruct Heff1 as [-> _ _ _ _].
      rewrite app_nil_r. reflexivity.
    + intros o r Hin. rewrite (Hopts o r Hin). split; reflexivity.
  - destruct (requestWithRetry_settles options g1) as (new' & _ & _ & Hsettles).
    rewrite Hreq in Hsettles. destruct Hsettles as (_ & [] & _).
Qed.

(** X16. When the rulepack of the policy is in the cache, [evaluate] asks
    the service for nothing but the evaluation: every request it hands to
    the transport is the POST of the payload. *)
Theorem cached_rulepack_is_not_fetched p g rulepack g1 :
  policyId p <> "" ->
  routedOffline g p = false ->
  getCachedRulepack (policyId p) g = (Return (Some rulepack), g1) ->
  forall o r, In (Requested o r) (since g (snd (evaluate p g))) ->
    method o = Some POST /\ body o = Some (BodyEvaluation p).
Proof.
  intros Hid Hon Hget.
  destruct (evaluate p g) as [result g'] eqn:Heval.
  destruct (evaluate_cached _ _ _ _ _ _ Hid Hon Hget Heval) as (new & Htrace & Hall).
  cbn [snd]. unfold since. rewrite Htrace, drop_app_length. exact Hall.
Qed.

(** X17. When getting the rulepack fails, [evaluate] fails with the same
    error: the payload is neither sent nor queued. *)
Theorem failed_rulepack_fetch_blocks_evaluation p g e :
  policyId p <> "" ->
  routedOffline g p = false ->
  fst (ensureRulepackCached (policyId p) g) = Throw e ->
  evaluate p g = (Throw e, snd (ensureRulepackCached (policyId p) g)) /\
  bodiesIn (since g (snd (evaluate p g))) = [] /\
  offlineQueue (snd (evaluate p g)) = offlineQueue g /\
  storedQueue (snd (evaluate p g)) = storedQueue g.
Proof.
  intros Hid Hon Hthrow.
  destruct (ensureRulepackCached (policyId p) g) as [result g1] eqn:Hensure.
  cbn [fst snd] in *. subst result.
  destruct (ensureRulepackCached_effect _ _ _ _ Hensure) as (new & Heff & _ & Hbodies & _).
  assert (Heval : evaluate p g = (Throw e, g1)).
  { unfold evaluate. apply String.eqb_neq in Hid. rewrite Hid.
    unfold bind at 1. cbn [gets]. rewrite Hon.
    rewrite (bind_Throw _ _ _ _ _ Hensure). reflexivity. }
  rewrite Heval. cbn [snd]. split; [reflexivity|].
  rewrite (Effect_since _ _ _ Heff).
  split; [exact Hbodies|]. split; apply Heff.
Qed.

(** X18. [updatePolicies] never writes an audit record.  Offline it queues
    the list as it came, persists the queue and sends nothing; connected it
    hands the list to the retry controller and queues nothing. *)
Theorem policy_updates_are_queued_or_sent (policies : list PolicyDefinition) g :
  let r := updatePolicies policies g in
  sameAudit g (snd r) /\
  if isOffline g then
    r = (Return tt, enqueued (PolicyUpdateEvent policies (toISOString (clock g))) g)
  else
    offlineQueue (snd r) = offlineQueue g /\
    Settles (Some (BodyPolicies policies)) (since g (snd r)) (fst r).
Proof.
  cbv zeta. destruct (isOffline g) eqn:Hoff.
  - assert (Hrun : updatePolicies policies g =
                   (Return tt,
                    enqueued (PolicyUpdateEvent policies (toISOString (clock g))) g)).
    { unfold updatePolicies. rewrite bind_gets, Hoff. reflexivity. }
    rewrite Hrun. split; [repeat split|reflexivity].
  - destruct (updatePolicies policies g) as [result g'] eqn:Hrun.
    destruct (updatePolicies_online _ _ _ _ Hoff Hrun) as (new & Heff & Haud & Hsettles).
    cbn [fst snd]. rewrite (Effect_since _ _ _ Heff).
    split; [exact Haud|]. split; [apply Heff|exact Hsettles].
Qed.

End RouteProperties.

Section FlushProperties.
Context {S : Type} {driver : StorageDriver S Rulepack} {runtime : Runtime}.
Import Governor.
Implicit Types (g : Governor.Governor S) (p payload : EvaluationPayload).

(** The loop of [flushOfflineQueue] does not write the stored queue. *)
Lemma flushLoop_stored fuel : forall g result g',
  isOffline g = false ->
  flushLoop fuel g = (result, g') ->
  storedQueue g' = storedQueue g.
Proof.
  induction fuel as [|fuel IH]; intros g result g' Hon; [intros [= <- <-]; reflexivity|].
  cbn [flushLoop]. rewrite bind_gets.
  destruct (offlineQueue g) as [|event rest] eqn:Hqueue; [intros [= <- <-]; reflexivity|].
  rewrite bind_modify. unfold bind at 1. unfold tryCatch.
  set (g1 := withOfflineQueue rest g).
  assert (Hon1 : isOffline g1 = false) by exact Hon.
  destruct (replay event g1) as [[[]|e|] g2] eqn:Hreplay;
    destruct (replay_online _ _ _ _ Hon1 Hreplay) as (new & Heff & Hbodies & Hsafe & Hres).
  - destruct Hres as [_ Hmode].
    assert (Hon2 : isOffline g2 = false).
    { destruct Heff as [_ Hm _ _ _]. rewrite Hm. apply Hmode. }
    intros Hloop. rewrite (IH _ _ _ Hon2 Hloop). apply Heff.
  - rewrite bind_modify. cbn [throw]. intros [= <- <-]. apply Heff.
  - destruct Hsafe.
Qed.

(** X19. A flush that fails does not persist the queue.  The events it had
    delivered are gone from the queue in memory, and what is stored under
    the queue key is what was stored before the flush. *)
Theorem failed_flush_does_not_persist g e :
  fst (flushOfflineQueue g) = Throw e ->
  storedQueue (snd (flushOfflineQueue g)) = storedQueue g /\
  exists sent,
    offlineQueue g = sent ++ offlineQueue (snd (flushOfflineQueue g)) /\
    (deliveries (since g (snd (flushOfflineQueue g))) = map replayBody sent \/
     exists failed,
       deliveries (since g (snd (flushOfflineQueue g))) = map replayBody (sent ++ [failed])).
Proof.
  intros Hthrow.
  destruct (flushOfflineQueue g) as [result g'] eqn:Hflush. cbn [fst snd] in *.
  subst result. pose proof (flushOfflineQueue_fifo _ _ _ Hflush) as Hfifo.
  destruct (isOffline g) eqn:Hon; [destruct Hfifo as [[=] _]|].
  destruct Hfifo as (sent & kept & new & Hsplit & Hkept & Htrace & _ & _ & Hend).
  split.
  - revert Hflush. unfold flushOfflineQueue. rewrite bind_gets, Hon, bind_gets.
    unfold bind.
    destruct (flushLoop (Datatypes.S (length (offlineQueue g))) g) as [[[]|e'|] g1] eqn:Hloop;
      intros [= <- <-]. exact (flushLoop_stored _ _ _ _ Hon Hloop).
  - exists sent. rewrite Hkept. split; [exact Hsplit|].
    unfold since. rewrite Htrace, drop_app_length.
    destruct Hend as (failed & _ & _ & _ & _ & _ & [Hdel|Hdel]);
      [left; exact Hdel|right; exists failed; exact Hdel].
Qed.

Lemma spliceOldest_length (log : list AuditRecord) :
  (length (spliceOldest log) <= 500)%nat.
Proof.
  unfold spliceOldest. destruct (Nat.ltb_spec 500 (length log)); [|lia].
  rewrite length_drop. lia.
Qed.

Lemma spliceOldest_short (log : list AuditRecord) :
  (length log <= 500)%nat -> spliceOldest log = log.
Proof.
  intros Hshort. unfold spliceOldest.
  destruct (Nat.ltb_spec 500 (length log)); [lia|reflexivity].
Qed.

(** The audit record of an evaluation that went through. *)
Lemma evaluate_online_record p g r g' :
  policyId p <> "" ->
  routedOffline g p = false ->
  truthy (enableAuditLog (config g)) = true ->
  evaluate p g = (Return r, g') ->
  exists record,
    action record = "evaluate" /\
    auPolicyId (auditPayload record) = policyId p /\
    auOffline (auditPayload record) = false /\
    auditLog g' = spliceOldest (auditLog g ++ [record]).
Proof.
  intros Hid Hon Henabled. unfold evaluate.
  apply String.eqb_neq in Hid. rewrite Hid.
  unfold bind at 1. cbn [gets]. rewrite Hon. unfold bind at 1.
  destruct (ensureRulepackCached (policyId p) g) as [[[]|e|] g1] eqn:Hensure;
    [|intros [=]|intros [=]].
  destruct (ensureRulepackCached_effect _ _ _ _ Hensure) as (new1 & Heff1 & Haud1 & _).
  destruct (createHeaders_pure g1) as [hs Hhs].
  rewrite (bind_Return _ _ _ _ _ Hhs). rewrite !bind_gets.
  match goal with
  | |- context [bind (requestWithRetry ?o) _ g1] => set (options := o)
  end.
  destruct (requestWithRetry options g1) as [[response|e|] g2] eqn:Hreq;
    [|rewrite (bind_Throw _ _ _ _ _ Hreq); intros [=]
     |unfold bind; rewrite Hreq; intros [=]].
  destruct (requestWithRetry_options _ _ _ _ Hreq) as (new & Heff & Hsame & _).
  rewrite (bind_Return _ _ _ _ _ Hreq).
  destruct (asEvaluationResult (data response)) as [received|e];
    [|cbn [liftFallible]; rewrite bind_throw; intros [=]].
  cbn [liftFallible]. rewrite bind_ret, !bind_gets.
  assert (Hcfg : config g2 = config g).
  { destruct Heff as [_ _ -> _ _]. apply Heff1. }
  assert (Hlog : auditLog g2 = auditLog g).
  { destruct (sameInstance_sameAudit _ _ Hsame) as (-> & _). apply Haud1. }
  rewrite Hcfg, Henabled.
  cbv [bind randomId now gets modify ret].
  rewrite appendAuditRecord_enabled by (cbn; rewrite Hcfg; exact Henabled).
  intros [= _ <-]. eexists (mkAuditRecord _ _ _ (mkAuditPayload _ _ _ _ _)).
  cbn. rewrite Hlog. repeat split.
Qed.

(** What a replay that went through adds to the audit log. *)
Lemma replay_record event g g' :
  isOffline g = false ->
  truthy (enableAuditLog (config g)) = true ->
  replay event g = (Return tt, g') ->
  match event with
  | EvaluationEvent p _ =>
      exists record,
        action record = "evaluate" /\
        auPolicyId (auditPayload record) = policyId p /\
        auOffline (auditPayload record) = false /\
        auditLog g' = spliceOldest (auditLog g ++ [record])
  | PolicyUpdateEvent _ _ => auditLog g' = auditLog g
  end.
Proof.
  intros Hon Henabled. destruct event as [p createdAt|policies createdAt]; cbn [replay].
  - destruct (String.eqb_spec (policyId (replayPayload p)) "") as [Hid|Hid].
    + unfold bind. rewrite (evaluate_missing_policy _ _ Hid). intros [=].
    + assert (Hroute : routedOffline g (replayPayload p) = false).
      { unfold routedOffline. rewrite Hon, replayPayload_not_offline. reflexivity. }
      unfold bind.
      destruct (evaluate (replayPayload p) g) as [[r|e|] g1] eqn:Heval; intros [= <-].
      exact (evaluate_online_record _ _ _ _ Hid Hroute Henabled Heval).
  - intros Hrun.
    destruct (updatePolicies_online _ _ _ _ Hon Hrun) as (_ & _ & (Hlog & _) & _).
    exact Hlog.
Qed.

Lemma flushLoop_records fuel : forall g g',
  isOffline g = false ->
  truthy (enableAuditLog (config g)) = true ->
  (length (auditLog g) <= 500)%nat ->
  flushLoop fuel g = (Return tt, g') ->
  exists records,
    map (fun record => auPolicyId (auditPayload record)) records
      = map policyId (Queue.evaluations (offlineQueue g)) /\
    Forall (fun record => action record = "evaluate" /\
                          auOffline (auditPayload record) = false) records /\
    auditLog g' = spliceOldest (auditLog g ++ records).
Proof.
  induction fuel as [|fuel IH]; intros g g' Hon Henabled Hshort; [intros [=]|].
  cbn [flushLoop]. rewrite bind_gets.
  destruct (offlineQueue g) as [|event rest] eqn:Hqueue.
  { intros [= <-]. exists []. split; [reflexivity|]. split; [constructor|].
    rewrite app_nil_r. symmetry. apply spliceOldest_short. exact Hshort. }
  rewrite bind_modify. unfold bind at 1. unfold tryCatch.
  set (g1 := withOfflineQueue rest g).
  assert (Hon1 : isOffline g1 = false) by exact Hon.
  destruct (replay event g1) as [[[]|e|] g2] eqn:Hreplay;
    destruct (replay_online _ _ _ _ Hon1 Hreplay) as (new & Heff & Hbodies & Hsafe & Hres);
    [|rewrite bind_modify; cbn [throw]; intros [=]|destruct Hsafe].
  destruct Hres as [_ Hmode].
  assert (Hon2 : isOffline g2 = false).
  { destruct Heff as [_ Hm _ _ _]. rewrite Hm. apply Hmode. }
  assert (Hcfg2 : config g2 = config g) by apply Heff.
  assert (Hq2 : offlineQueue g2 = rest) by apply Heff.
  pose proof (replay_record event g1 g2 Hon1 Henabled Hreplay) as Hrecord.
  change (auditLog g1) with (auditLog g) in Hrecord.
  intros Hloop.
  destruct event as [p createdAt|policies createdAt].
  - destruct Hrecord as (record & Haction & Hpolicy & Hoffline & Hlog).
    destruct (IH g2 g' Hon2 ltac:(rewrite Hcfg2; exact Henabled)
                ltac:(rewrite Hlog; apply spliceOldest_length) Hloop)
      as (records & Hids & Hall & Hlog').
    exists (record :: records). split; [|split].
    + cbn. rewrite Hpolicy, Hids, Hq2. reflexivity.
    + constructor; [split; assumption|exact Hall].
    + rewrite Hlog', Hlog, spliceOldest_app, <- app_assoc. reflexivity.
  - destruct (IH g2 g' Hon2 ltac:(rewrite Hcfg2; exact Henabled)
                ltac:(rewrite Hrecord; exact Hshort) Hloop)
      as (records & Hids & Hall & Hlog').
    exists records. split; [|split].
    + cbn. rewrite Hids, Hq2. reflexivity.
    + exact Hall.
    + rewrite Hlog', Hrecord. reflexivity.
Qed.

(** X20. An evaluation that was queued gets its audit record when it is
    replayed.  A flush that returns has appended one record for every
    evaluation event of the queue, in the order of the queue, each of action
    [evaluate] and marked as not offline; policy updates leave no record. *)
Theorem flush_audits_replayed_evaluations g :
  isOffline g = false ->
  truthy (enableAuditLog (config g)) = true ->
  (length (auditLog g) <= 500)%nat ->
  fst (flushOfflineQueue g) = Return tt ->
  exists records,
    map (fun record => auPolicyId (auditPayload record)) records
      = map policyId (Queue.evaluations (offlineQueue g)) /\
    Forall (fun record => action record = "evaluate" /\
                          auOffline (auditPayload record) = false) records /\
    auditLog (snd (flushOfflineQueue g)) = spliceOldest (auditLog g ++ records).
Proof.
  intros Hon Henabled Hshort. unfold flushOfflineQueue.
  rewrite bind_gets, Hon, bind_gets. unfold bind.
  destruct (flushLoop (Datatypes.S (length (offlineQueue g))) g) as [[[]|e|] g1] eqn:Hloop;
    cbn [fst snd]; [|intros [=]|intros [=]].
  intros _. exact (flushLoop_records _ _ _ Hon Henabled Hshort Hloop).
Qed.

Lemma RetryRun_returned policy maxAttempts o attempt new response :
  RetryRun policy maxAttempts o attempt new (Return response) ->
  exists r, In (Requested o r) new /\ attemptResult o r = inl response.
Proof.
  intros Hrun. remember (Return response) as result eqn:Hresult.
  induction Hrun as [attempt r response' Hlt Hres
                    |attempt evs e Hlt Hfail Hlast
                    |attempt evs e rest result Hlt Hfail Hmore Hrun IH].
  - injection Hresult as ->. exists r. split; [left; reflexivity|exact Hres].
  - discriminate.
  - destruct (IH Hresult) as (r & Hin & Hres). exists r. split; [|exact Hres].
    apply in_or_app. right. apply in_or_app. right. right. exact Hin.
Qed.

Lemma requestWithRetry_returned options g response g' :
  requestWithRetry options g = (Return response, g') ->
  exists new r,
    Effect g g' new /\ sameInstance g g' /\
    In (Requested (sentOptions options g) r) new /\
    attemptResult (sentOptions options g) r = inl response.
Proof.
  intros Hreq.
  destruct (requestWithRetry_run options g) as (new & Heff & Hsame & Hcases).
  rewrite Hreq in Heff, Hsame, Hcases. cbn [fst snd] in *.
  destruct Hcases as [(_ & _ & [=])|(_ & Hrun)].
  destruct (RetryRun_returned _ _ _ _ _ _ Hrun) as (r & Hin & Hres).
  exists new, r. split; [exact Heff|]. split; [exact Hsame|]. split; assumption.
Qed.

(** X21. What [evaluate] returns on the online route is the answer of the
    service as it was decoded, field by field and unchecked, except for two
    keys of [metadata]: [piiMatches] is the scan the SDK made of the input
    itself, and [cacheMetrics] the counters of the rulepack cache after the
    call. *)
Theorem online_result_is_the_answer_with_local_metadata p g r g' :
  policyId p <> "" ->
  routedOffline g p = false ->
  evaluate p g = (Return r, g') ->
  exists o reply response received,
    In (Requested o reply) (since g g') /\
    body o = Some (BodyEvaluation p) /\
    attemptResult o reply = inl response /\
    asEvaluationResult (data response) = inl received /\
    let md := default (mkMetadata None None None None []) (metadata received) in
    r = mkEvaluationResult (resPolicyId received) (decision received) (score received)
          (reasons received)
          (Some (mkMetadata (mdOffline md) (mdQueuedEventId md)
                   (Some (piiScan (input p)))
                   (Some (Cache.getMetrics (rulepackCache g'))) (mdOther md)))
          (evaluatedAt received).
Proof.
  intros Hid Hon. unfold evaluate.
  apply String.eqb_neq in Hid. rewrite Hid.
  unfold bind at 1. cbn [gets]. rewrite Hon. unfold bind at 1.
  destruct (ensureRulepackCached (policyId p) g) as [[[]|e|] g1] eqn:Hensure;
    [|intros [=]|intros [=]].
  destruct (ensureRulepackCached_effect _ _ _ _ Hensure) as (new1 & Heff1 & _).
  destruct (createHeaders_pure g1) as [hs Hhs].
  rewrite (bind_Return _ _ _ _ _ Hhs). rewrite !bind_gets.
  match goal with
  | |- context [bind (requestWithRetry ?o) _ g1] => set (options := o)
  end.
  destruct (requestWithRetry options g1) as [[response|e|] g2] eqn:Hreq;
    [|rewrite (bind_Throw _ _ _ _ _ Hreq); intros [=]
     |unfold bind; rewrite Hreq; intros [=]].
  destruct (requestWithRetry_returned _ _ _ _ Hreq) as (new & reply & Heff & _ & Hin & Hres).
  rewrite (bind_Return _ _ _ _ _ Hreq).
  destruct (asEvaluationResult (data response)) as [received|e] eqn:Hread;
    [|cbn [liftFallible]; rewrite bind_throw; intros [=]].
  cbn [liftFallible]. rewrite bind_ret, !bind_gets.
  assert (Hshape : forall g3,
            trace g3 = trace g2 -> rulepackCache g3 = rulepackCache g2 ->
            (Return (A := EvaluationResult)
               (mkEvaluationResult (resPolicyId received) (decision received)
                  (score received) (reasons received)
                  (Some (mkMetadata
                           (mdOffline (default (mkMetadata None None None None [])
                                         (metadata received)))
                           (mdQueuedEventId (default (mkMetadata None None None None [])
                                               (metadata received)))
                           (Some (piiScan (input p)))
                           (Some (Cache.getMetrics (rulepackCache g2)))
                           (mdOther (default (mkMetadata None None None None [])
                                       (metadata received)))))
                  (evaluatedAt received)), g3) = (Return r, g') ->
            exists o reply response received,
              In (Requested o reply) (since g g') /\
              body o = Some (BodyEvaluation p) /\
              attemptResult o reply = inl response /\
              asEvaluationResult (data response) = inl received /\
              let md := default (mkMetadata None None None None []) (metadata received) in
              r = mkEvaluationResult (resPolicyId received) (decision received)
                    (score received) (reasons received)
                    (Some (mkMetadata (mdOffline md) (mdQueuedEventId md)
                             (Some (piiScan (input p)))
                             (Some (Cache.getMetrics (rulepackCache g'))) (mdOther md)))
                    (evaluatedAt received)).
  { intros g3 Htrace Hcache [= <- <-].
    exists (sentOptions options g1), reply, response, received.
    split; [|split; [reflexivity|split; [exact Hres|split; [exact Hread|]]]].
    - unfold since. rewrite Htrace. destruct Heff as [-> _ _ _ _].
      destruct Heff1 as [-> _ _ _ _]. rewrite <- app_assoc, drop_app_length.
      apply in_or_app. right. exact Hin.
    - cbv zeta. rewrite Hcache. reflexivity. }
  destruct (truthy (enableAuditLog (config g2))) eqn:Henabled.
  - cbv [bind randomId now gets modify ret].
    rewrite appendAuditRecord_enabled by exact Henabled.
    apply Hshape; reflexivity.
  - rewrite !bind_ret. cbn [ret]. apply Hshape; reflexivity.
Qed.

End FlushProperties.

Lemma offline_load_sends_nothing_witness :
  "p1" <> "" /\ Governor.isOffline Cases.cachedOffline = true /\
  fst (Governor.loadRulepack (runtime := Scenario.up) "p1" false Cases.cachedOffline)
    = Governor.Return (Some (Scenario.bundle "c1")) /\
  Governor.loadRulepack (runtime := Scenario.up) "p1" true Cases.cachedOffline
    = (Governor.Return None, Cases.cachedOffline).
Proof.
  assert (H1 : "p1" <> "") by discriminate.
  assert (H2 : Governor.isOffline Cases.cachedOffline = true) by reflexivity.
  split; [exact H1|]. split; [exact H2|]. split; [vm_compute; reflexivity|].
  exact (proj1 (offline_load_sends_nothing (runtime := Scenario.up) "p1" true
                  Cases.cachedOffline H1 H2)).
Defined.

Lemma cached_rulepack_is_not_fetched_witness :
  let p := Scenario.ask "hello" None in
  policyId p <> "" /\
  Governor.routedOffline Cases.cached p = false /\
  fst (Governor.getCachedRulepack "p1" Cases.cached)
    = Governor.Return (Some (Scenario.bundle "c1")) /\
  Governor.requestsIn
    (Governor.since Cases.cached
       (snd (Governor.evaluate (runtime := Scenario.up) p Cases.cached))) = 1%nat /\
  forall o r,
    In (Requested o r)
      (Governor.since Cases.cached
         (snd (Governor.evaluate (runtime := Scenario.up) p Cases.cached))) ->
    method o = Some POST /\ body o = Some (BodyEvaluation p).
Proof.
  cbv zeta.
  assert (H1 : policyId (Scenario.ask "hello" None) <> "") by discriminate.
  assert (H2 : Governor.routedOffline Cases.cached (Scenario.ask "hello" None) = false)
    by reflexivity.
  assert (H3 : Governor.getCachedRulepack "p1" Cases.cached
               = (Governor.Return (Some (Scenario.bundle "c1")),
                  snd (Governor.getCachedRulepack "p1" Cases.cached)))
    by (vm_compute; reflexivity).
  split; [exact H1|]. split; [exact H2|]. split; [vm_compute; reflexivity|].
  split; [vm_compute; reflexivity|].
  exact (cached_rulepack_is_not_fetched (runtime := Scenario.up)
           (Scenario.ask "hello" None) Cases.cached (Scenario.bundle "c1") _ H1 H2 H3).
Defined.

Lemma failed_rulepack_fetch_blocks_evaluation_witness :
  let p := Scenario.ask "hello" None in
  let failure := GovernorError NetworkError "HTTP 503: down" in
  policyId p <> "" /\
  Governor.routedOffline Scenario.fresh p = false /\
  fst (Governor.ensureRulepackCached (runtime := Scenario.down) "p1" Scenario.fresh)
    = Governor.Throw failure /\
  fst (Governor.evaluate (runtime := Scenario.down) p Scenario.fresh)
    = Governor.Throw failure /\
  Governor.offlineQueue (snd (Governor.evaluate (runtime := Scenario.down) p Scenario.fresh))
    = [].
Proof.
  cbv zeta.
  assert (H1 : policyId (Scenario.ask "hello" None) <> "") by discriminate.
  assert (H2 : Governor.routedOffline Scenario.fresh (Scenario.ask "hello" None) = false)
    by reflexivity.
  assert (H3 : fst (Governor.ensureRulepackCached (runtime := Scenario.down)
                      (policyId (Scenario.ask "hello" None)) Scenario.fresh)
               = Governor.Throw (GovernorError NetworkError "HTTP 503: down"))
    by (vm_compute; reflexivity).
  destruct (failed_rulepack_fetch_blocks_evaluation (runtime := Scenario.down)
              (Scenario.ask "hello" None) Scenario.fresh _ H1 H2 H3)
    as (Heval & _ & Hqueue & _).
  split; [exact H1|]. split; [exact H2|]. split; [exact H3|].
  split; [rewrite Heval; reflexivity|exact Hqueue].
Defined.

Lemma failed_flush_does_not_persist_witness :
  let flushed := Governor.flushOfflineQueue (runtime := Cases.readOnly)
                   Cases.persistedThree in
  fst flushed = Governor.Throw (GovernorError NetworkError "HTTP 503: down") /\
  Governor.offlineQueue (snd flushed) = [Scenario.E2; Scenario.E3] /\
  Governor.storedQueue (snd flushed) = Some [Scenario.E1; Scenario.E2; Scenario.E3].
Proof.
  cbv zeta.
  assert (H : fst (Governor.flushOfflineQueue (runtime := Cases.readOnly)
                     Cases.persistedThree)
              = Governor.Throw (GovernorError NetworkError "HTTP 503: down"))
    by (vm_compute; reflexivity).
  split; [exact H|]. split; [vm_compute; reflexivity|].
  exact (proj1 (failed_flush_does_not_persist (runtime := Cases.readOnly)
                  Cases.persistedThree _ H)).
Defined.

Lemma flush_audits_replayed_evaluations_witness :
  let flushed := Governor.flushOfflineQueue (runtime := Scenario.up)
                   Scenario.threeQueued in
  fst flushed = Governor.Return tt /\
  map (fun record => auPolicyId (auditPayload record)) (Governor.auditLog (snd flushed))
    = ["p1"; "p1"].
Proof.
  cbv zeta.
  assert (H1 : Governor.isOffline Scenario.threeQueued = false) by reflexivity.
  assert (H2 : Governor.truthy (enableAuditLog (Governor.config Scenario.threeQueued))
               = true) by reflexivity.
  assert (H3 : (length (Governor.auditLog Scenario.threeQueued) <= 500)%nat)
    by (vm_compute; lia).
  assert (H4 : fst (Governor.flushOfflineQueue (runtime := Scenario.up)
                      Scenario.threeQueued) = Governor.Return tt)
    by (vm_compute; reflexivity).
  destruct (flush_audits_replayed_evaluations (runtime := Scenario.up)
              Scenario.threeQueued H1 H2 H3 H4) as (records & Hids & _ & Hlog).
  split; [exact H4|]. rewrite Hlog.
  change (Governor.auditLog Scenario.threeQueued) with (@nil AuditRecord).
  cbn [app]. rewrite spliceOldest_short.
  - rewrite Hids. vm_compute. reflexivity.
  - apply (f_equal (@length _)) in Hids. rewrite !length_map in Hids.
    rewrite Hids. vm_compute. lia.
Defined.

(** * config.ts *)

Section ResolveProperties.
Import Resolve.

(** X22. A resolved configuration is stable.  Handed back to
    [resolveGovernorConfig] it comes out as it is, whatever the environment
    says by then, unless it has no API key and the environment now offers
    one.  Without overrides and with an empty environment the result is the
    defaults. *)
Theorem resolved_configuration_is_stable
  (readEnv readEnv' : string -> option string) (toNumber toNumber' : string -> option Z)
  (config : option PartialGovernorConfig) :
  let resolved := resolveGovernorConfig readEnv toNumber config in
  (apiKey resolved = None -> readEnv' "AISENTINEL_API_KEY" = None) ->
  resolveGovernorConfig readEnv' toNumber' (Some (asGiven resolved)) = resolved /\
  resolveGovernorConfig (fun _ => None) toNumber None = Config.DEFAULTS.
Proof.
  intros resolved Hkey. split; [|reflexivity].
  subst resolved. unfold resolveGovernorConfig, asGiven in *.
  cbn [mbind option_bind givenApiKey givenEndpoint givenTimeoutMs givenRetry
       givenCacheTTL givenOffline givenStorageKeyPrefix givenEnableAuditLog
       apiKey endpoint timeoutMs retry cacheTTL offline storageKeyPrefix
       enableAuditLog orElse default] in *.
  destruct (config ≫= givenApiKey) as [k|].
  - reflexivity.
  - destruct (readEnv "AISENTINEL_API_KEY") as [k|]; [reflexivity|].
    rewrite (Hkey eq_refl). reflexivity.
Qed.

Lemma substring_prefix (a b : string) :
  String.substring 0 (String.length a) (a +:+ b) = a.
Proof.
  induction a as [|x a IH]; [destruct b; reflexivity|].
  change (String x (String.substring 0 (String.length a) (a +:+ b)) = String x a).
  now rewrite IH.
Qed.

Lemma substring_whole (b : string) : String.substring 0 (String.length b) b = b.
Proof. induction b as [|x b IH]; [reflexivity|]. cbn. now rewrite IH. Qed.

Lemma substring_suffix (a b : string) :
  String.substring (String.length a) (String.length b) (a +:+ b) = b.
Proof.
  induction a as [|x a IH]; [apply substring_whole|].
  change (String.substring (String.length a) (String.length b) (a +:+ b) = b).
  exact IH.
Qed.

Lemma maskApiKey_defined (key : string) :
  key <> "" ->
  maskApiKey (Some key) =
    if (String.length key <=? 8)%nat then Some (stars (String.length key))
    else
      Some (String.substring 0 4 key +:+ "****"
            +:+ String.substring (String.length key - 4) 4 key).
Proof. destruct key; [congruence|reflexivity]. Qed.

(** X23. [maskApiKey] shows only the ends of a long key: of a key of more
    than eight characters the first four and the last four are kept and
    whatever lies between them, however long, becomes four stars. *)
Theorem mask_shows_only_the_ends (first middle last : string) :
  String.length first = 4%nat ->
  String.length last = 4%nat ->
  middle <> "" ->
  maskApiKey (Some (first +:+ middle +:+ last)) = Some (first +:+ "****" +:+ last).
Proof.
  intros Hfirst Hlast Hmiddle.
  assert (Hlen : String.length (first +:+ middle +:+ last)
                 = (8 + String.length middle)%nat).
  { rewrite !string_app_length. lia. }
  assert (Hmid : (0 < String.length middle)%nat).
  { destruct middle; [congruence|cbn; lia]. }
  rewrite maskApiKey_defined by (intros Hkey; rewrite Hkey in Hlen; cbn in Hlen; lia).
  rewrite Hlen.
  destruct (Nat.leb_spec (8 + String.length middle) 8); [lia|].
  f_equal. f_equal.
  - rewrite <- Hfirst. apply substring_prefix.
  - f_equal. rewrite <- string_app_assoc.
    replace (8 + String.length middle - 4)%nat with (String.length (first +:+ middle))
      by (rewrite string_app_length; lia).
    rewrite <- Hlast. apply substring_suffix.
Qed.

End ResolveProperties.

Lemma resolved_configuration_is_stable_witness :
  let resolved := Resolve.resolveGovernorConfig Cases.shell Cases.decimal None in
  timeoutMs resolved = 2500 /\ enableAuditLog resolved = Some false /\
  Resolve.resolveGovernorConfig Cases.otherShell Cases.decimal
    (Some (Resolve.asGiven resolved)) = resolved.
Proof.
  cbv zeta.
  assert (H : apiKey (Resolve.resolveGovernorConfig Cases.shell Cases.decimal None) = None ->
              Cases.otherShell "AISENTINEL_API_KEY" = None) by reflexivity.
  split; [reflexivity|]. split; [reflexivity|].
  exact (proj1 (resolved_configuration_is_stable Cases.shell Cases.otherShell
                  Cases.decimal Cases.decimal None H)).
Defined.

Lemma mask_shows_only_the_ends_witness :
  Resolve.maskApiKey (Some "sk_live_0123456789abcdef") = Some "sk_l****cdef".
Proof.
  assert (H1 : String.length "sk_l" = 4%nat) by reflexivity.
  assert (H2 : String.length "cdef" = 4%nat) by reflexivity.
  assert (H3 : "ive_0123456789ab" <> "") by discriminate.
  exact (mask_shows_only_the_ends "sk_l" "ive_0123456789ab" "cdef" H1 H2 H3).
Defined.

(** * utils.ts and the byte arrays of Governor.ts *)

Section UtilsProperties.
Import Utils.

Lemma hasSpace_app (a b : string) : hasSpace (a +:+ b) = hasSpace a || hasSpace b.
Proof.
  unfold hasSpace. induction a as [|x a IH]; [reflexivity|].
  change (isSpace x || existsb isSpace (list_ascii_of_string (a +:+ b))
          = isSpace x || existsb isSpace (list_ascii_of_string a)
            || existsb isSpace (list_ascii_of_string b)).
  rewrite IH. apply orb_assoc.
Qed.

Lemma collapse_hasSpace (s : string) : forall inRun, hasSpace (collapse inRun s) = false.
Proof.
  induction s as [|c s IH]; intros inRun; [reflexivity|].
  cbn [collapse]. destruct (isSpace c) eqn:Hc.
  - destruct inRun; [apply IH|].
    change (isSpace "_" || hasSpace (collapse true s) = false).
    rewrite IH. reflexivity.
  - change (isSpace c || hasSpace (collapse false s) = false).
    rewrite Hc, IH. reflexivity.
Qed.

Lemma join_hasSpace (parts : list string) :
  Forall (fun part => hasSpace part = false) parts -> hasSpace (join parts) = false.
Proof.
  induction 1 as [|part rest Hpart Hrest IH]; [reflexivity|].
  destruct rest as [|next rest]; [exact Hpart|].
  change (hasSpace (part +:+ ":" +:+ join (next :: rest)) = false).
  rewrite !hasSpace_app, Hpart, IH. reflexivity.
Qed.

(** X24. A key made by [generateCacheKey] holds no white space, whatever
    the parts are; parts that are [undefined] leave no trace in it. *)
Theorem cache_key_has_no_white_space (parts : list (option Part)) :
  hasSpace (generateCacheKey parts) = false /\
  generateCacheKey parts = generateCacheKey (Some <$> omap id parts).
Proof.
  split.
  - unfold generateCacheKey. apply join_hasSpace.
    apply Forall_forall. intros part Hin.
    apply list_elem_of_In, in_map_iff in Hin as (given & <- & _).
    apply collapse_hasSpace.
  - unfold generateCacheKey. f_equal. f_equal.
    induction parts as [|[part|] parts IH]; [reflexivity| |exact IH].
    cbn. f_equal. exact IH.
Qed.

Lemma totalLength_sum (chunks : list (list Byte.byte)) : forall n,
  foldl (fun sum chunk => (sum + length chunk)%nat) n chunks
  = (n + length (concat chunks))%nat.
Proof.
  induction chunks as [|chunk chunks IH]; intros n; cbn; [lia|].
  rewrite IH, length_app. lia.
Qed.

(** The loop of [concatUint8Arrays] after the chunks [done]. *)
Lemma concat_loop (rest : list (list Byte.byte)) : forall (done : list Byte.byte) pad,
  foldl (fun state chunk =>
           match state with
           | Some (result, offset) =>
               match typedSet result chunk offset with
               | Some written => Some (written, (offset + length chunk)%nat)
               | None => None
               end
           | None => None
           end)
    (Some (done ++ replicate (length (concat rest) + pad) Byte.x00, length done)) rest
  = Some (done ++ concat rest ++ replicate pad Byte.x00,
          (length done + length (concat rest))%nat).
Proof.
  induction rest as [|chunk rest IH]; intros done pad.
  - cbn. rewrite Nat.add_0_r. reflexivity.
  - cbn [foldl concat]. unfold typedSet at 2.
    rewrite !length_app, length_replicate.
    destruct (Nat.leb_spec (length done + length chunk)
                (length done + (length chunk + length (concat rest) + pad)));
      [|lia].
    rewrite take_app_length.
    rewrite drop_app_add.
    replace (length chunk + length (concat rest) + pad)%nat
      with (length chunk + (length (concat rest) + pad))%nat by lia.
    rewrite drop_replicate_add.
    replace (done ++ chunk ++ replicate (length (concat rest) + pad) Byte.x00)
      with ((done ++ chunk) ++ replicate (length (concat rest) + pad) Byte.x00)
      by (now rewrite <- app_assoc).
    replace (length done + length chunk)%nat with (length (done ++ chunk))
      by (now rewrite length_app).
    rewrite IH. rewrite length_app, <- !app_assoc. f_equal. f_equal. lia.
Qed.

(** X25. [concatUint8Arrays] returns the bytes of the chunks one after the
    other, as many as the chunks hold together, and no write of its loop
    falls outside the array. *)
Theorem concatUint8Arrays_concatenates (chunks : list (list Byte.byte)) :
  concatUint8Arrays chunks = Some (concat chunks).
Proof.
  unfold concatUint8Arrays. rewrite totalLength_sum. cbn [Nat.add].
  pose proof (concat_loop chunks [] 0) as Hloop.
  rewrite Nat.add_0_r in Hloop. cbn [app length] in Hloop.
  rewrite Hloop. cbn. rewrite app_nil_r. reflexivity.
Qed.

End UtilsProperties.

(** * The browser driver, and what a new instance reads back *)

Section BrowserProperties.
Context {V : Type}.
Import Browser.

(** X26. What the browser driver reads back after a write.  Through
    IndexedDB an entry is read back until its expiry time, and for ever when
    it was written without a time to live.  Through the [localStorage]
    fallback an entry with a time to live is read back until its expiry
    time, and an entry without one is never read back, for the item holds
    [null] for the infinite expiry time.  Without either store nothing is
    read back. *)
Theorem browser_entry_read_back (s : BrowserStorage V) (key : string) (v : V)
  (ttl : option Z) (now later : Z) :
  let written := snd (browserSetItem key v ttl now s) in
  let untilExpiry :=
    match ttl with
    | Some t => if later <=? now + t then Some v else None
    | None => Some v
    end in
  fst (browserGetItem key later written) =
    match indexedDbError s, localStorage s with
    | None, _ => untilExpiry
    | Some _, Some _ =>
        match ttl with
        | Some _ => untilExpiry
        | None => if 0 <? later then None else Some v
        end
    | Some _, None => None
    end.
Proof.
  cbv zeta. unfold browserSetItem, browserGetItem.
  destruct (indexedDbError s) as [e|] eqn:Hdb.
  - destruct (localStorage s) as [items|] eqn:Hlocal;
      cbn [snd prefix indexedDbError indexedDb localStorage].
    + rewrite lookup_insert_eq.
      destruct ttl as [t|];
        cbn [Storage.isExpired Storage.serialize Storage.jsonRoundTrip expiresAt value].
      * destruct (Z.ltb_spec (now + t) later), (Z.leb_spec later (now + t));
          try lia; reflexivity.
      * destruct (0 <? later); reflexivity.
    + rewrite Hdb, Hlocal. reflexivity.
  - cbn [snd prefix indexedDbError indexedDb localStorage].
    rewrite lookup_insert_eq.
    destruct ttl as [t|];
      cbn [Storage.isExpired Storage.serialize expiresAt value].
    + destruct (Z.ltb_spec (now + t) later), (Z.leb_spec later (now + t));
        try lia; reflexivity.
    + reflexivity.
Qed.

End BrowserProperties.

Section PersistenceProperties.
Context {S : Type}.
Import Persistence.
Implicit Types (g : Governor.Governor S) (d : Disk).

Lemma node_written_then_read {V : Type} (s : Storage.NodeStorage V) (key : string)
  (v : V) (now later : Z) :
  Storage.nodeGetItem key later (Storage.nodeSetItem key v None now s)
  = (Some v, Storage.nodeSetItem key v None now s).
Proof.
  unfold Storage.nodeGetItem, Storage.nodeSetItem.
  cbn [Storage.prefix Storage.memoryStore Storage.files].
  rewrite lookup_insert_eq. reflexivity.
Qed.

Lemma node_written_then_lost {V : Type} (s : Storage.NodeStorage V) (key : string)
  (v : V) (now later : Z) :
  0 < later ->
  fst (Storage.nodeGetItem key later
         (Listing.restart (Storage.nodeSetItem key v None now s))) = None.
Proof.
  intros Hlater. unfold Storage.nodeGetItem, Storage.nodeSetItem, Listing.restart.
  cbn [Storage.prefix Storage.memoryStore Storage.files].
  rewrite lookup_empty, lookup_insert_eq.
  cbn [Storage.isExpired Storage.serialize Storage.jsonRoundTrip expiresAt negb].
  destruct (Z.ltb_spec 0 later); [reflexivity|lia].
Qed.

(** X27. What the Governor persists in the Node driver comes back in the
    process that wrote it and is lost to the next one.  After the queue, the
    audit log and the rulepack index were persisted, an instance initialized
    in the same process holds them; an instance initialized in a process
    started afterwards holds nothing of them. *)
Theorem persisted_state_does_not_outlive_the_process
  (queue : list OfflineEvent) (log : list AuditRecord) (index : gmap string string)
  (now later : Z) d g :
  0 < later ->
  let cfg := Governor.config g in
  let written :=
    persistRulepackIndex cfg index now
      (persistAuditLog cfg log now (persistOfflineQueue cfg queue now d)) in
  let same := fst (initialize later written g) in
  Governor.offlineQueue same = Governor.offlineQueue g ++ queue /\
  Governor.auditLog same = Governor.auditLog g ++ log /\
  Governor.rulepackIndex same = index ∪ Governor.rulepackIndex g /\
  fst (initialize later (restart written) g) = g.
Proof.
  intros Hlater. cbv zeta.
  unfold initialize, persistRulepackIndex, persistAuditLog, persistOfflineQueue, restart.
  cbn [queueFiles auditFiles indexFiles].
  rewrite !node_written_then_read.
  split; [reflexivity|]. split; [reflexivity|]. split; [reflexivity|].
  pose proof (node_written_then_lost (queueFiles d)
                (withPrefix (Governor.config g) OFFLINE_QUEUE_KEY) queue now later Hlater)
    as Hqueue.
  pose proof (node_written_then_lost (auditFiles d)
                (withPrefix (Governor.config g) AUDIT_LOG_KEY) log now later Hlater)
    as Haudit.
  pose proof (node_written_then_lost (indexFiles d)
                (withPrefix (Governor.config g) RULEPACK_INDEX_KEY) index now later Hlater)
    as Hindex.
  destruct (Storage.nodeGetItem (withPrefix (Governor.config g) OFFLINE_QUEUE_KEY) later _)
    as [found1 d1].
  destruct (Storage.nodeGetItem (withPrefix (Governor.config g) AUDIT_LOG_KEY) later _)
    as [found2 d2].
  destruct (Storage.nodeGetItem (withPrefix (Governor.config g) RULEPACK_INDEX_KEY) later _)
    as [found3 d3].
  cbn [fst] in *. subst. reflexivity.
Qed.

End PersistenceProperties.

Lemma persisted_state_does_not_outlive_the_process_witness :
  0 < 2000 /\
  Governor.offlineQueue (fst (Persistence.initialize 2000 Cases.allOnDisk Scenario.fresh))
    = [Scenario.E1; Scenario.E2; Scenario.E3] /\
  Governor.auditLog (fst (Persistence.initialize 2000 Cases.allOnDisk Scenario.fresh))
    = [Scenario.entry 0; Scenario.entry 1] /\
  fst (Persistence.initialize 2000 (Persistence.restart Cases.allOnDisk) Scenario.fresh)
    = Scenario.fresh.
Proof.
  assert (H : 0 < 2000) by lia.
  destruct (persisted_state_does_not_outlive_the_process
              [Scenario.E1; Scenario.E2; Scenario.E3]
              [Scenario.entry 0; Scenario.entry 1] ∅ 1000 2000
              Cases.emptyDisk Scenario.fresh H) as (Hqueue & Hlog & _ & Hnext).
  split; [exact H|]. split; [exact Hqueue|]. split; [exact Hlog|exact Hnext].
Defined.

Lemma online_result_is_the_answer_with_local_metadata_witness :
  let p := Scenario.ask "hello" None in
  policyId p <> "" /\
  Governor.routedOffline Scenario.fresh p = false /\
  exists r g',
    Governor.evaluate (runtime := Scenario.up) p Scenario.fresh = (Governor.Return r, g') /\
    (metadata r ≫= mdPiiMatches)
      = Some (Governor.piiScan (runtime := Scenario.up) (input p)) /\
    (metadata r ≫= mdCacheMetrics)
      = Some (Cache.getMetrics (Governor.rulepackCache g')).
Proof.
  cbv zeta.
  assert (H1 : policyId (Scenario.ask "hello" None) <> "") by discriminate.
  assert (H2 : Governor.routedOffline Scenario.fresh (Scenario.ask "hello" None) = false)
    by reflexivity.
  destruct (Governor.evaluate (runtime := Scenario.up) (Scenario.ask "hello" None)
              Scenario.fresh) as [[r| |] g'] eqn:Hrun;
    [|vm_compute in Hrun; discriminate|vm_compute in Hrun; discriminate].
  destruct (online_result_is_the_answer_with_local_metadata (runtime := Scenario.up)
              _ _ _ _ H1 H2 Hrun) as (o & reply & response & received & _ & _ & _ & _ & Hr).
  split; [exact H1|]. split; [exact H2|]. exists r, g'. split; [reflexivity|].
  cbv zeta in Hr. rewrite Hr. split; reflexivity.
Defined.
